(** * admin/aws.py: intents, performers and the fake AWS backend

    A shallow embedding of [admin/aws.py].  The module describes every AWS
    operation of the release tooling as an inert intent value, gives one
    performer per intent against boto, and a second set of performers
    against the in-memory [FakeAWS] object.

    Conventions of the embedding

    - Python [bytes]/[str] values are [string]; a [dict] is a [gmap], a
      [set] a [gset]; a [list] or [tuple] is a [list].
    - The Python process is one [World]: the local filesystem (reached
      through [twisted.python.filepath.FilePath]), the remote AWS account
      (reached through [boto]) and the one [FakeAWS] instance on the heap.
    - A performer is a state-and-exception computation on the [World].
      The [effect] library's [sync_perform] is the function [perform].  A
      performer under [@do] hands back the [Func] effect of its generator
      and runs nothing itself; the generator runs when that effect is
      performed, which takes the base dispatcher's performer of [Func].  A
      [yield Effect(i)] inside the generator is a monadic bind of the
      dispatch function the generator is run with.
    - The order in which a [set] hands out its elements is not fixed by
      the language; it is a parameter [order] of whatever iterates over a
      set, and statements that rely on it ask only that it enumerates the
      set ([iteration_order]). *)

From Stdlib Require Import String Ascii.
From stdpp Require Import gmap strings list fin_maps.

Local Open Scope string_scope.
Local Open Scope list_scope.

(** ** Python string operations used by the module *)

(** [s.startswith(p)] *)
Fixpoint startswith (s p : string) {struct p} : bool :=
  match p with
  | EmptyString => true
  | String a p' =>
      match s with
      | EmptyString => false
      | String b s' => Ascii.eqb a b && startswith s' p'
      end
  end.

(** The slice [s[n:]] *)
Fixpoint str_drop (n : nat) (s : string) : string :=
  match n with
  | 0 => s
  | S n' => match s with
            | EmptyString => EmptyString
            | String _ s' => str_drop n' s'
            end
  end.

(** [s.endswith(suffix)] for one suffix *)
Definition endswith1 (s suffix : string) : bool :=
  (String.length suffix <=? String.length s)%nat
  && String.eqb (str_drop (String.length s - String.length suffix) s) suffix.

(** [s.endswith(suffixes)] for a tuple of suffixes *)
Definition endswith (s : string) (suffixes : list string) : bool :=
  existsb (endswith1 s) suffixes.

(** [s.split('/')] *)
Fixpoint split_sep (s : string) : list string :=
  match s with
  | EmptyString => [EmptyString]
  | String c s' =>
      if Ascii.eqb c "/" then EmptyString :: split_sep s'
      else match split_sep s' with
           | h :: t => String c h :: t
           | [] => [String c EmptyString]
           end
  end.

(** Iterating over a [str] yields its one-character substrings. *)
Fixpoint chars (s : string) : list string :=
  match s with
  | EmptyString => []
  | String c s' => String c EmptyString :: chars s'
  end.

(** [os.path.join(a, b)] of [posixpath] *)
Definition os_path_join (a b : string) : string :=
  if startswith b "/" then b
  else if String.eqb a "" || endswith1 a "/" then a +:+ b
  else a +:+ "/" +:+ b.

(** ** The local filesystem behind [FilePath] *)

(** A [FilePath] always holds an absolute, normalised path; it is kept as
    the list of its segments, the root being [[]]. *)
Definition FilePath := list string.

(** Each segment behind a separator. *)
Fixpoint joined (segments : list string) : string :=
  match segments with
  | [] => ""
  | s :: rest => "/" +:+ s +:+ joined rest
  end.

(** The [.path] attribute. *)
Definition path_of (p : FilePath) : string :=
  match p with
  | [] => "/"
  | _ => joined p
  end.

(** [.basename()] *)
Definition basename (p : FilePath) : string := List.last p "".

(** [.parent()]; the root is its own parent. *)
Definition parent (p : FilePath) : FilePath := removelast p.

(** A filesystem is a tree; the entries of a directory are kept in the
    order [os.listdir] reports them. *)
#[local] Unset Elimination Schemes.
Inductive Node : Type :=
| File (content : string)
| Dir (entries : list (string * Node)).
#[local] Set Elimination Schemes.

Fixpoint entry_lookup (name : string) (es : list (string * Node)) : option Node :=
  match es with
  | [] => None
  | (n, c) :: es' => if String.eqb n name then Some c else entry_lookup name es'
  end.

(** Replace the entry called [name], or add it at the end. *)
Fixpoint entry_set (name : string) (c : Node) (es : list (string * Node))
  : list (string * Node) :=
  match es with
  | [] => [(name, c)]
  | (n, c0) :: es' =>
      if String.eqb n name then (n, c) :: es' else (n, c0) :: entry_set name c es'
  end.

Fixpoint lookup_node (p : FilePath) (n : Node) : option Node :=
  match p with
  | [] => Some n
  | s :: rest =>
      match n with
      | File _ => None
      | Dir es =>
          match entry_lookup s es with
          | Some c => lookup_node rest c
          | None => None
          end
      end
  end.

(** [.exists()] *)
Definition fs_exists (fs : Node) (p : FilePath) : bool :=
  match lookup_node p fs with Some _ => true | None => false end.

(** [.isfile()] *)
Definition fs_isfile (fs : Node) (p : FilePath) : bool :=
  match lookup_node p fs with Some (File _) => true | _ => false end.

(** [.open().read()]: the content of a regular file. *)
Definition fs_read (fs : Node) (p : FilePath) : option string :=
  match lookup_node p fs with Some (File c) => Some c | _ => None end.

(** Writing a regular file ([.setContent(c)], or [.open('w')] followed by
    writes): the parent must be a directory and the path itself must not
    be one.  [None] stands for the [IOError]/[OSError] of the failed call. *)
Fixpoint fs_write (p : FilePath) (c : string) (n : Node) : option Node :=
  match p with
  | [] => match n with File _ => Some (File c) | Dir _ => None end
  | s :: rest =>
      match n with
      | File _ => None
      | Dir es =>
          match entry_lookup s es with
          | Some child =>
              match fs_write rest c child with
              | Some child' => Some (Dir (entry_set s child' es))
              | None => None
              end
          | None =>
              match rest with
              | [] => Some (Dir (entry_set s (File c) es))
              | _ => None
              end
          end
      end
  end.

(** A fresh chain of nested directories. *)
Fixpoint fresh_dirs (p : FilePath) : Node :=
  match p with
  | [] => Dir []
  | s :: rest => Dir [(s, fresh_dirs rest)]
  end.

(** [.makedirs()] ([os.makedirs]): creates the directory and every missing
    ancestor; fails when the path exists already or an ancestor is a
    regular file. *)
Fixpoint fs_makedirs (p : FilePath) (n : Node) : option Node :=
  match p with
  | [] => None
  | s :: rest =>
      match n with
      | File _ => None
      | Dir es =>
          match entry_lookup s es with
          | Some child =>
              match fs_makedirs rest child with
              | Some child' => Some (Dir (entry_set s child' es))
              | None => None
              end
          | None => Some (Dir (entry_set s (fresh_dirs rest) es))
          end
      end
  end.

(** [.walk()]: the path itself, then, for a directory, the walk of each
    child in listing order. *)
Fixpoint walk_node (p : FilePath) (n : Node) : list FilePath :=
  p :: match n with
       | File _ => []
       | Dir es =>
           (fix walk_entries (es : list (string * Node)) : list FilePath :=
              match es with
              | [] => []
              | (name, c) :: es' => walk_node (p ++ [name]) c ++ walk_entries es'
              end) es
       end.

Definition fs_walk (fs : Node) (p : FilePath) : list FilePath :=
  match lookup_node p fs with
  | Some n => walk_node p n
  | None => [p]
  end.

(** [.isdir()] *)
Definition fs_isdir (fs : Node) (p : FilePath) : bool :=
  match lookup_node p fs with Some (Dir _) => true | _ => false end.

(** The names of a directory's entries, one after the other. *)
Fixpoint all_names (es : list (string * Node)) : string :=
  match es with
  | [] => ""
  | (name, _) :: es' => name +:+ all_names es'
  end.

(** [.temporarySibling()]: a sibling whose name is a random string, the
    base name and [".new"].  The random string is such that no entry of
    the directory has the name; the model takes the names of all entries
    in a row for it. *)
Definition temporary_sibling (fs : Node) (p : FilePath) : FilePath :=
  let taken :=
    match lookup_node (parent p) fs with
    | Some (Dir es) => all_names es
    | _ => ""
    end in
  parent p ++ [taken +:+ basename p +:+ ".new"].

(** [.setContent(c)]: the content is written to a temporary sibling, which
    is then renamed over the path.  Where that goes through, the outcome
    is that of writing the file.  Where it does not, either the parent is
    no directory, the sibling cannot be opened and nothing changes, or the
    rename fails (the path is a directory) and the sibling stays behind.
    The result is whether the call returned, and the filesystem
    afterwards. *)
Definition fs_set_content (p : FilePath) (c : string) (fs : Node) : bool * Node :=
  match fs_write p c fs with
  | Some fs' => (true, fs')
  | None =>
      if fs_isdir fs (parent p) then
        match fs_write (temporary_sibling fs p) c fs with
        | Some behind => (false, behind)
        | None => (false, fs)
        end
      else (false, fs)
  end.

(** [posixpath.normpath] on the components of a path: empty and ["."]
    components vanish and [".."] removes the component before it (at the
    root it has nothing to remove). *)
Fixpoint resolve (stack : FilePath) (comps : list string) : FilePath :=
  match comps with
  | [] => stack
  | c :: comps' =>
      if String.eqb c "" || String.eqb c "." then resolve stack comps'
      else if String.eqb c ".." then resolve (removelast stack) comps'
      else resolve (stack ++ [c]) comps'
  end.

(** [.preauthChild(key)]: [abspath(join(self.path, normpath(key)))], which
    must still start with [self.path] as a string; [None] is the
    [InsecurePath] exception.  An absolute [key] replaces [self.path] in
    the join.  [posixpath] keeps exactly two leading slashes, and such a
    path starts with [self.path] only for the root (where it names the
    same file as with one slash). *)
Definition preauthChild (self : FilePath) (key : string) : option FilePath :=
  let comps := split_sep key in
  if startswith key "//" && negb (startswith key "///") then
    match self with
    | [] => Some (resolve [] comps)
    | _ => None
    end
  else
    let newpath :=
      if startswith key "/" then resolve [] comps else resolve self comps in
    if startswith (path_of newpath) (path_of self) then Some newpath else None.

(** ** Intents *)

(** The thunk that [@do] wraps in an [effect.Func] intent: a call of one
    of the module's two generator functions, kept with the attributes of
    the intent it was made for. *)
Inductive Doit : Type :=
| download_s3_key_recursively_doit (source_bucket source_prefix : string)
    (target_path : FilePath) (filter_extensions : list string)
| upload_s3_key_recursively_doit (source_path : FilePath)
    (target_bucket target_key : string) (files : list string).

(** The nine [@attributes] classes of the module, and the [effect.Func]
    intents its [@do] performers hand back.  [dispatch] accepts any
    Python object as an intent; an object of any other class (for
    instance [effect.Delay]) is an [OtherIntent] carrying its class name. *)
Inductive Intent : Type :=
| UpdateS3RoutingRule (bucket prefix target_prefix : string)
| CreateCloudFrontInvalidation (cname : string) (paths : list string)
| DeleteS3Keys (bucket prefix : string) (keys : list string)
| CopyS3Keys (source_bucket source_prefix destination_bucket
              destination_prefix : string) (keys : list string)
| ListS3Keys (bucket prefix : string)
| DownloadS3KeyRecursively (source_bucket source_prefix : string)
    (target_path : FilePath) (filter_extensions : list string)
| DownloadS3Key (source_bucket source_key : string) (target_path : FilePath)
| UploadToS3Recursively (source_path : FilePath)
    (target_bucket target_key : string) (files : list string)
| UploadToS3 (source_path : FilePath) (target_bucket target_key : string)
    (file : FilePath)
| Func (doit : Doit)
| OtherIntent (class_name : string).

(** [type(intent)], the key of a [TypeDispatcher] mapping. *)
Inductive IntentType : Type :=
| TUpdateS3RoutingRule
| TCreateCloudFrontInvalidation
| TDeleteS3Keys
| TCopyS3Keys
| TListS3Keys
| TDownloadS3KeyRecursively
| TDownloadS3Key
| TUploadToS3Recursively
| TUploadToS3
| TFunc
| TOther (class_name : string).

#[global] Instance IntentType_eq_dec : EqDecision IntentType.
Proof. solve_decision. Defined.

Definition type_of (intent : Intent) : IntentType :=
  match intent with
  | UpdateS3RoutingRule _ _ _ => TUpdateS3RoutingRule
  | CreateCloudFrontInvalidation _ _ => TCreateCloudFrontInvalidation
  | DeleteS3Keys _ _ _ => TDeleteS3Keys
  | CopyS3Keys _ _ _ _ _ => TCopyS3Keys
  | ListS3Keys _ _ => TListS3Keys
  | DownloadS3KeyRecursively _ _ _ _ => TDownloadS3KeyRecursively
  | DownloadS3Key _ _ _ => TDownloadS3Key
  | UploadToS3Recursively _ _ _ _ => TUploadToS3Recursively
  | UploadToS3 _ _ _ _ => TUploadToS3
  | Func _ => TFunc
  | OtherIntent c => TOther c
  end.

(** The intent classes defined by the module. *)
Definition intent_classes : list IntentType :=
  [ TUpdateS3RoutingRule; TCreateCloudFrontInvalidation; TDeleteS3Keys;
    TCopyS3Keys; TListS3Keys; TDownloadS3Key; TDownloadS3KeyRecursively;
    TUploadToS3; TUploadToS3Recursively ].

(** ** Results and exceptions *)

(** What a performer of this module returns: [None], a byte string (the
    old routing prefix) or a set of key names. *)
Inductive Value : Type :=
| VNone
| VStr (s : string)
| VSet (names : gset string).

(** The exceptions the modelled calls raise.  [NoPerformerFoundError] is
    the [effect] library's error for an intent without a performer. *)
Inductive Exn : Type :=
| KeyError (key : string)
| IndexError
| AttributeError
| TypeError
| IOError (path : FilePath)
| OSError (path : FilePath)
| InsecurePath (child : string)
| S3ResponseError (resource : string)
| NoPerformerFoundError (intent : Intent).

(** The names the specification gives to these failures. *)
Definition UnhandledIntent : Intent -> Exn := NoPerformerFoundError.
Definition RuleNotFound : Exn := IndexError.

(** ** The world: local files, the AWS account, the fake *)

Record RoutingRule : Type := {
  condition_key_prefix : string;
  redirect_replace_key_prefix : string
}.

Record S3Key : Type := {
  key_contents : string;
  key_public : bool
}.

Record S3Bucket : Type := {
  website_configuration : option (list RoutingRule);
  bucket_keys : gmap string S3Key
}.

Record Distribution : Type := {
  distribution_id : string;
  cnames : list string
}.

Record AWS : Type := {
  s3 : gmap string S3Bucket;
  distributions : list Distribution;
  invalidation_requests : list (string * list string)
}.

(** The attributes of a [FakeAWS] instance. *)
Record FakeAWS : Type := {
  routing_rules : gmap string (gmap string string);
  s3_buckets : gmap string (gmap string string);
  cloudfront_invalidations : list Intent
}.

Record World : Type := {
  local_fs : Node;
  aws : AWS;
  fake : FakeAWS
}.

(** ** The performer monad *)

Inductive Outcome (A : Type) : Type :=
| Returned (a : A)
| Raised (e : Exn)
| Unfinished.
Arguments Returned {A} a.
Arguments Raised {A} e.
Arguments Unfinished {A}.

Definition M (A : Type) : Type := World -> Outcome A * World.

Definition ret {A} (a : A) : M A := fun w => (Returned a, w).
Definition raise {A} (e : Exn) : M A := fun w => (Raised e, w).
Definition unfinished {A} : M A := fun w => (Unfinished, w).

Definition bind {A B} (m : M A) (k : A -> M B) : M B :=
  fun w =>
    match m w with
    | (Returned a, w') => k a w'
    | (Raised e, w') => (Raised e, w')
    | (Unfinished, w') => (Unfinished, w')
    end.

Notation "'let*' x ':=' m 'in' k" := (bind m (fun x => k))
  (at level 10, x name, m at level 100, k at level 200, only parsing).
Notation "m ';;;' k" := (bind m (fun _ => k))
  (at level 100, k at level 200, right associativity, only parsing).

Definition get_fs : M Node := fun w => (Returned (local_fs w), w).
Definition set_fs (fs : Node) : M unit :=
  fun w => (Returned tt, {| local_fs := fs; aws := aws w; fake := fake w |}).
Definition get_aws : M AWS := fun w => (Returned (aws w), w).
Definition set_aws (a : AWS) : M unit :=
  fun w => (Returned tt, {| local_fs := local_fs w; aws := a; fake := fake w |}).
Definition get_fake : M FakeAWS := fun w => (Returned (fake w), w).
Definition set_fake (f : FakeAWS) : M unit :=
  fun w => (Returned tt, {| local_fs := local_fs w; aws := aws w; fake := f |}).

(** A partial library call: its value, or the exception it raises. *)
Definition or_raise {A} (o : option A) (e : Exn) : M A :=
  match o with
  | Some a => ret a
  | None => raise e
  end.

(** [d[k]] on a dict. *)
Definition dict_get {V} (d : gmap string V) (k : string) : M V :=
  or_raise (d !! k) (KeyError k).

(** A [for] loop whose body runs for its effects. *)
Fixpoint for_each {A} (xs : list A) (body : A -> M unit) : M unit :=
  match xs with
  | [] => ret tt
  | x :: xs' => body x ;;; for_each xs' body
  end.

(** The order in which a Python [set] hands out its elements is not
    fixed by its value: all that is known of it is that every element
    comes once. *)
Definition iteration_order (order : gset string -> list string) : Prop :=
  forall names, order names ≡ₚ elements names.

(** Iterating over a returned value: a set yields its elements in its
    own order, a string its characters, [None] is not iterable. *)
Definition iterate (order : gset string -> list string) (v : Value) : M (list string) :=
  match v with
  | VSet names => ret (order names)
  | VStr s => ret (chars s)
  | VNone => raise TypeError
  end.

(** ** Dispatch *)

(** What a performer receives as its [dispatcher] argument: the means to
    perform a further effect. *)
Definition Dispatch : Type := Intent -> M Value.

(** A performer reads the attributes of its own intent class.  Both
    tables register every performer under that class only; what it would
    do with an object of another class is left at [AttributeError]. *)
Definition Performer : Type := Dispatch -> Intent -> M Value.

(** A dispatcher is called on an intent and answers with a performer or
    with [None]. *)
Definition Dispatcher : Type := Intent -> option Performer.

(** [effect.TypeDispatcher(mapping)]: the lookup of [type(intent)]. *)
Fixpoint mapping_get (t : IntentType) (mapping : list (IntentType * Performer))
  : option Performer :=
  match mapping with
  | [] => None
  | (k, v) :: rest => if decide (k = t) then Some v else mapping_get t rest
  end.

Definition TypeDispatcher (mapping : list (IntentType * Performer)) : Dispatcher :=
  fun intent => mapping_get (type_of intent) mapping.

(** [effect.sync_perform(dispatcher, Effect(intent))]: the dispatcher is
    asked for the performer of the intent, a missing performer is the
    library's [NoPerformerFoundError], and the performer runs with the
    dispatcher at hand.  An effect yielded by a [@do] performer is
    performed with that same dispatcher, so [fuel] bounds the nesting of
    effects: one unit for a primitive intent, three for a composite one
    (the intent, the [Func] of its generator, the intents it yields).
    Performing is synchronous, so a performer that hands back a further
    effect is one that dispatches it as its last step. *)
Fixpoint perform (fuel : nat) (dispatcher : Dispatcher) (intent : Intent) : M Value :=
  match fuel with
  | 0 => unfinished
  | S fuel' =>
      match dispatcher intent with
      | None => raise (NoPerformerFoundError intent)
      | Some performer => performer (perform fuel' dispatcher) intent
      end
  end.

(** ** The boto performers *)

(** Of boto the model keeps what the performers rely on: [get_bucket]
    fails for an unknown bucket, [bucket.list(prefix)] yields the keys
    whose name starts with [prefix], [get_key] answers [None] for an
    unknown key, [delete_keys] ignores unknown names, and a website
    configuration is a list of routing rules. *)

(** [boto.connect_s3().get_bucket(name)] *)
Definition s3_get_bucket (name : string) : M S3Bucket :=
  let* a := get_aws in or_raise (s3 a !! name) (S3ResponseError name).

(** Stores the bucket [b] under [name] in the account. *)
Definition s3_put_bucket (name : string) (b : S3Bucket) : M unit :=
  let* a := get_aws in
  set_aws {| s3 := <[name := b]> (s3 a);
             distributions := distributions a;
             invalidation_requests := invalidation_requests a |}.

Definition rule_matches (prefix : string) (rule : RoutingRule) : bool :=
  String.eqb (condition_key_prefix rule) prefix.

(** Assigning to an attribute of the first rule that passes [test]: the
    rule found by the list comprehension is the object held by the
    configuration, so the configuration sees the assignment. *)
Fixpoint assign_first (test : RoutingRule -> bool) (rule' : RoutingRule)
    (rules : list RoutingRule) : list RoutingRule :=
  match rules with
  | [] => []
  | r :: rs => if test r then rule' :: rs else r :: assign_first test rule' rs
  end.

Definition perform_update_s3_routing_rule (dispatcher : Dispatch) (intent : Intent)
  : M Value :=
  match intent with
  | UpdateS3RoutingRule bucket_name prefix target_prefix =>
      let* bucket := s3_get_bucket bucket_name in
      let* config :=
        or_raise (website_configuration bucket) (S3ResponseError bucket_name) in
      let* rule := or_raise (head (List.filter (rule_matches prefix) config)) IndexError in
      if String.eqb (redirect_replace_key_prefix rule) target_prefix then ret VNone
      else
        let old_prefix := redirect_replace_key_prefix rule in
        let rule' := {| condition_key_prefix := condition_key_prefix rule;
                        redirect_replace_key_prefix := target_prefix |} in
        let config' := assign_first (rule_matches prefix) rule' config in
        s3_put_bucket bucket_name
          {| website_configuration := Some config';
             bucket_keys := bucket_keys bucket |} ;;;
        ret (VStr old_prefix)
  | _ => raise AttributeError
  end.

Definition perform_create_cloudfront_invalidation (dispatcher : Dispatch)
    (intent : Intent) : M Value :=
  match intent with
  | CreateCloudFrontInvalidation cname paths =>
      let* a := get_aws in
      let* distribution :=
        or_raise (head (List.filter (fun dist => bool_decide (cname ∈ cnames dist))
                          (distributions a))) IndexError in
      set_aws {| s3 := s3 a;
                 distributions := distributions a;
                 invalidation_requests :=
                   invalidation_requests a ++ [(distribution_id distribution, paths)] |} ;;;
      ret VNone
  | _ => raise AttributeError
  end.

Definition perform_delete_s3_keys (dispatcher : Dispatch) (intent : Intent) : M Value :=
  match intent with
  | DeleteS3Keys bucket_name prefix keys =>
      let* bucket := s3_get_bucket bucket_name in
      s3_put_bucket bucket_name
        {| website_configuration := website_configuration bucket;
           bucket_keys :=
             foldl (fun ks name => delete name ks) (bucket_keys bucket)
               (map (String.append prefix) keys) |} ;;;
      ret VNone
  | _ => raise AttributeError
  end.

(** [destination_bucket.copy_key(new_key_name, src_bucket_name, src_key_name)];
    the copy gets the default private ACL. *)
Definition s3_copy_key (destination new_key_name src_bucket_name src_key_name : string)
  : M unit :=
  let* src_bucket := s3_get_bucket src_bucket_name in
  let* src :=
    or_raise (bucket_keys src_bucket !! src_key_name) (S3ResponseError src_key_name) in
  let* dst_bucket := s3_get_bucket destination in
  s3_put_bucket destination
    {| website_configuration := website_configuration dst_bucket;
       bucket_keys :=
         <[new_key_name := {| key_contents := key_contents src; key_public := false |}]>
           (bucket_keys dst_bucket) |}.

Definition perform_copy_s3_keys (dispatcher : Dispatch) (intent : Intent) : M Value :=
  match intent with
  | CopyS3Keys source_bucket source_prefix destination_bucket destination_prefix keys =>
      s3_get_bucket destination_bucket ;;;
      for_each keys (fun key =>
        s3_copy_key destination_bucket (destination_prefix +:+ key)
          source_bucket (source_prefix +:+ key)) ;;;
      ret VNone
  | _ => raise AttributeError
  end.

(** The names a dict of keys holds under [prefix], each with its first
    [len(prefix)] characters sliced off, as a set. *)
Definition stripped_names {V} (keys : gmap string V) (prefix : string) : gset string :=
  set_map (str_drop (String.length prefix))
    (filter (fun name => Is_true (startswith name prefix)) (dom keys)).

Definition perform_list_s3_keys (dispatcher : Dispatch) (intent : Intent) : M Value :=
  match intent with
  | ListS3Keys bucket_name prefix =>
      let* bucket := s3_get_bucket bucket_name in
      ret (VSet (stripped_names (bucket_keys bucket) prefix))
  | _ => raise AttributeError
  end.

(** The generator function under [@do] of
    [perform_download_s3_key_recursively]: each [yield Effect(i)] hands
    [i] to the dispatcher that performs the generator.  A key without a
    wanted extension is the [continue] branch. *)
Definition download_s3_key_recursively_generator (order : gset string -> list string)
    (dispatcher : Dispatch) (source_bucket source_prefix : string)
    (target_path : FilePath) (filter_extensions : list string) : M Value :=
  let* listed := dispatcher (ListS3Keys source_bucket (source_prefix +:+ "/")) in
  let* keys := iterate order listed in
  for_each keys (fun key =>
    if negb (endswith key filter_extensions) then ret tt
    else
      let* path := or_raise (preauthChild target_path key) (InsecurePath key) in
      let* fs := get_fs in
      (if negb (fs_exists fs (parent path)) then
         let* fs' := or_raise (fs_makedirs (parent path) fs) (OSError (parent path)) in
         set_fs fs'
       else ret tt) ;;;
      let source_key := os_path_join source_prefix key in
      dispatcher (DownloadS3Key source_bucket source_key path) ;;;
      ret tt) ;;;
  ret VNone.

(** Shared by both dispatchers.  Under [@sync_performer] and [@do] the
    function hands back [Effect(Func(doit))] without running any of its
    body; performing goes on with that effect, so the body runs only if
    the dispatcher has a performer for [Func]. *)
Definition perform_download_s3_key_recursively (dispatcher : Dispatch) (intent : Intent)
  : M Value :=
  match intent with
  | DownloadS3KeyRecursively source_bucket source_prefix target_path filter_extensions =>
      dispatcher
        (Func (download_s3_key_recursively_doit source_bucket source_prefix target_path
                 filter_extensions))
  | _ => raise AttributeError
  end.

Definition perform_download_s3_key (dispatcher : Dispatch) (intent : Intent) : M Value :=
  match intent with
  | DownloadS3Key source_bucket source_key target_path =>
      let* bucket := s3_get_bucket source_bucket in
      let key := bucket_keys bucket !! source_key in
      let* fs := get_fs in
      let* opened := or_raise (fs_write target_path "" fs) (IOError target_path) in
      set_fs opened ;;;
      let* found := or_raise key AttributeError in
      let* written :=
        or_raise (fs_write target_path (key_contents found) opened) (IOError target_path) in
      set_fs written ;;;
      ret VNone
  | _ => raise AttributeError
  end.

(** The generator function under [@do] of
    [perform_upload_s3_key_recursively].  [walk()] lists the tree as the
    loop advances; no upload performer of the module writes to the local
    filesystem, so the listing is taken when the loop starts, while
    [isfile()] is asked at each path's turn. *)
Definition upload_s3_key_recursively_generator (dispatcher : Dispatch)
    (source_path : FilePath) (target_bucket target_key : string) (files : list string)
  : M Value :=
  let* fs0 := get_fs in
  for_each (fs_walk fs0 source_path) (fun path =>
    if bool_decide (basename path ∈ files) then
      let* fs := get_fs in
      if fs_isfile fs path then
        dispatcher (UploadToS3 source_path target_bucket target_key path) ;;;
        ret tt
      else ret tt
    else ret tt) ;;;
  ret VNone.

(** Shared by both dispatchers; it hands back [Effect(Func(doit))] like
    the recursive download. *)
Definition perform_upload_s3_key_recursively (dispatcher : Dispatch) (intent : Intent)
  : M Value :=
  match intent with
  | UploadToS3Recursively source_path target_bucket target_key files =>
      dispatcher
        (Func (upload_s3_key_recursively_doit source_path target_bucket target_key files))
  | _ => raise AttributeError
  end.

(** The key an upload stores under:
    [target_key + file.path[len(source_path.path):]]. *)
Definition upload_key (source_path : FilePath) (target_key : string) (file : FilePath)
  : string :=
  target_key +:+ str_drop (String.length (path_of source_path)) (path_of file).

Definition perform_upload_s3_key (dispatcher : Dispatch) (intent : Intent) : M Value :=
  match intent with
  | UploadToS3 source_path target_bucket target_key file =>
      let* bucket := s3_get_bucket target_bucket in
      let* fs := get_fs in
      let* source_file := or_raise (fs_read fs file) (IOError file) in
      s3_put_bucket target_bucket
        {| website_configuration := website_configuration bucket;
           bucket_keys :=
             <[upload_key source_path target_key file :=
                 {| key_contents := source_file; key_public := true |}]>
               (bucket_keys bucket) |} ;;;
      ret VNone
  | _ => raise AttributeError
  end.

Definition boto_dispatcher : Dispatcher :=
  TypeDispatcher [
    (TUpdateS3RoutingRule, perform_update_s3_routing_rule);
    (TListS3Keys, perform_list_s3_keys);
    (TDeleteS3Keys, perform_delete_s3_keys);
    (TCopyS3Keys, perform_copy_s3_keys);
    (TDownloadS3KeyRecursively, perform_download_s3_key_recursively);
    (TDownloadS3Key, perform_download_s3_key);
    (TUploadToS3Recursively, perform_upload_s3_key_recursively);
    (TUploadToS3, perform_upload_s3_key);
    (TCreateCloudFrontInvalidation, perform_create_cloudfront_invalidation)
  ].

(** ** The fake performers *)

Module FakeAWS.

(** [self.s3_buckets[name]]: the dict object of a bucket.  The performers
    mutate that object in place, so every later read goes back to it. *)
Definition bucket_dict (name : string) : M (gmap string string) :=
  let* self := get_fake in dict_get (s3_buckets self) name.

(** The in-place update of the dict object of bucket [name]. *)
Definition mutate_bucket (name : string) (f : gmap string string -> gmap string string)
  : M unit :=
  let* self := get_fake in
  let* bucket := dict_get (s3_buckets self) name in
  set_fake {| routing_rules := routing_rules self;
              s3_buckets := <[name := f bucket]> (s3_buckets self);
              cloudfront_invalidations := cloudfront_invalidations self |}.

Definition _perform_update_s3_routing_rule (dispatcher : Dispatch) (intent : Intent)
  : M Value :=
  match intent with
  | UpdateS3RoutingRule bucket prefix target_prefix =>
      let* self := get_fake in
      let* rules := dict_get (routing_rules self) bucket in
      let* old_target := dict_get rules prefix in
      set_fake {| routing_rules :=
                    <[bucket := <[prefix := target_prefix]> rules]> (routing_rules self);
                  s3_buckets := s3_buckets self;
                  cloudfront_invalidations := cloudfront_invalidations self |} ;;;
      ret (VStr old_target)
  | _ => raise AttributeError
  end.

Definition _perform_create_cloudfront_invalidation (dispatcher : Dispatch)
    (intent : Intent) : M Value :=
  let* self := get_fake in
  set_fake {| routing_rules := routing_rules self;
              s3_buckets := s3_buckets self;
              cloudfront_invalidations := cloudfront_invalidations self ++ [intent] |} ;;;
  ret VNone.

Definition _perform_delete_s3_keys (dispatcher : Dispatch) (intent : Intent) : M Value :=
  match intent with
  | DeleteS3Keys bucket_name prefix keys =>
      bucket_dict bucket_name ;;;
      for_each keys (fun key =>
        let* bucket := bucket_dict bucket_name in
        dict_get bucket (prefix +:+ key) ;;;
        mutate_bucket bucket_name (delete (prefix +:+ key))) ;;;
      ret VNone
  | _ => raise AttributeError
  end.

Definition _perform_copy_s3_keys (dispatcher : Dispatch) (intent : Intent) : M Value :=
  match intent with
  | CopyS3Keys source_bucket source_prefix destination_bucket destination_prefix keys =>
      bucket_dict source_bucket ;;;
      bucket_dict destination_bucket ;;;
      for_each keys (fun key =>
        let* source := bucket_dict source_bucket in
        let* content := dict_get source (source_prefix +:+ key) in
        mutate_bucket destination_bucket (insert (destination_prefix +:+ key) content)) ;;;
      ret VNone
  | _ => raise AttributeError
  end.

Definition _perform_list_s3_keys (dispatcher : Dispatch) (intent : Intent) : M Value :=
  match intent with
  | ListS3Keys bucket_name prefix =>
      let* bucket := bucket_dict bucket_name in
      ret (VSet (stripped_names bucket prefix))
  | _ => raise AttributeError
  end.

Definition _perform_download_s3_key (dispatcher : Dispatch) (intent : Intent) : M Value :=
  match intent with
  | DownloadS3Key source_bucket source_key target_path =>
      let* bucket := bucket_dict source_bucket in
      let* content := dict_get bucket source_key in
      let* fs := get_fs in
      set_fs (snd (fs_set_content target_path content fs)) ;;;
      if fst (fs_set_content target_path content fs) then ret VNone
      else raise (OSError target_path)
  | _ => raise AttributeError
  end.

Definition _perform_upload_s3_key (dispatcher : Dispatch) (intent : Intent) : M Value :=
  match intent with
  | UploadToS3 source_path target_bucket target_key file =>
      bucket_dict target_bucket ;;;
      let* fs := get_fs in
      let* source_file := or_raise (fs_read fs file) (IOError file) in
      mutate_bucket target_bucket
        (insert (upload_key source_path target_key file) source_file) ;;;
      ret VNone
  | _ => raise AttributeError
  end.

Definition get_dispatcher : Dispatcher :=
  TypeDispatcher [
    (TDownloadS3KeyRecursively, perform_download_s3_key_recursively);
    (TUploadToS3Recursively, perform_upload_s3_key_recursively);
    (TUpdateS3RoutingRule, _perform_update_s3_routing_rule);
    (TListS3Keys, _perform_list_s3_keys);
    (TDeleteS3Keys, _perform_delete_s3_keys);
    (TCopyS3Keys, _perform_copy_s3_keys);
    (TDownloadS3Key, _perform_download_s3_key);
    (TUploadToS3, _perform_upload_s3_key);
    (TCreateCloudFrontInvalidation, _perform_create_cloudfront_invalidation)
  ].

End FakeAWS.

(** ** The effect library's own dispatchers *)

(** [doit()]: the generator runs, its yields performed by [dispatcher]. *)
Definition call_doit (order : gset string -> list string) (dispatcher : Dispatch)
    (doit : Doit) : M Value :=
  match doit with
  | download_s3_key_recursively_doit source_bucket source_prefix target_path
      filter_extensions =>
      download_s3_key_recursively_generator order dispatcher source_bucket source_prefix
        target_path filter_extensions
  | upload_s3_key_recursively_doit source_path target_bucket target_key files =>
      upload_s3_key_recursively_generator dispatcher source_path target_bucket target_key
        files
  end.

(** [effect.perform_func], the performer of [Func]: it calls the thunk.
    [order] is the order in which the sets met by the generators hand out
    their elements. *)
Definition perform_func (order : gset string -> list string) (dispatcher : Dispatch)
    (intent : Intent) : M Value :=
  match intent with
  | Func doit => call_doit order dispatcher doit
  | _ => raise AttributeError
  end.

(** [effect.base_dispatcher], as far as the module needs it: the
    performer of [Func].  (Its performers of [Constant] and [Error], two
    intents the module never makes, are left out.) *)
Definition base_dispatcher (order : gset string -> list string) : Dispatcher :=
  TypeDispatcher [ (TFunc, perform_func order) ].

(** [effect.ComposedDispatcher(dispatchers)]: the first performer that
    one of the dispatchers, asked in order, answers with. *)
Fixpoint ComposedDispatcher (dispatchers : list Dispatcher) : Dispatcher :=
  fun intent =>
    match dispatchers with
    | [] => None
    | d :: rest =>
        match d intent with
        | Some performer => Some performer
        | None => ComposedDispatcher rest intent
        end
    end.

(** The fake's table and boto's table as callers perform with them:
    composed with [base_dispatcher]. *)
Definition fake_with_base (order : gset string -> list string) : Dispatcher :=
  ComposedDispatcher [FakeAWS.get_dispatcher; base_dispatcher order].

Definition boto_with_base (order : gset string -> list string) : Dispatcher :=
  ComposedDispatcher [boto_dispatcher; base_dispatcher order].

(** ** Sample worlds *)

Definition empty_aws : AWS :=
  {| s3 := ∅; distributions := []; invalidation_requests := [] |}.

Definition sample_fs : Node :=
  Dir [("src", Dir [("a.txt", File "alpha");
                    ("sub", Dir [("c.log", File "gamma"); ("b.txt", File "beta")]);
                    ("empty", File "")]);
       ("out", Dir [])].

Definition sample_fake : FakeAWS :=
  {| routing_rules := {[ "docs" := {[ "en/latest/" := "en/0.3.0/" ]} ]};
     s3_buckets := {[ "docs" := {[ "docs/docs/index.html" := "<html>";
                                   "docs/x.json" := "{}";
                                   "foo/x.json" := "{1}";
                                   "foo/y.txt" := "why";
                                   "foo/deep/z.json" := "{2}" ]} ]};
     cloudfront_invalidations := [] |}.

Definition sample_world : World :=
  {| local_fs := sample_fs; aws := empty_aws; fake := sample_fake |}.

(** ** Worlds after an update *)

(** The world with the local filesystem [fs]. *)
Definition with_fs (w : World) (fs : Node) : World :=
  {| local_fs := fs; aws := aws w; fake := fake w |}.

(** The account after the website configuration of [bucket_name] was
    replaced by [config]. *)
Definition with_website (w : World) (bucket_name : string) (bucket : S3Bucket)
    (config : list RoutingRule) : World :=
  {| local_fs := local_fs w;
     aws := {| s3 := <[bucket_name :=
                        {| website_configuration := Some config;
                           bucket_keys := bucket_keys bucket |}]> (s3 (aws w));
               distributions := distributions (aws w);
               invalidation_requests := invalidation_requests (aws w) |};
     fake := fake w |}.

(** The world in which the S3 bucket [name] holds [keys]. *)
Definition with_s3_keys (w : World) (name : string) (bucket : S3Bucket)
    (keys : gmap string S3Key) : World :=
  {| local_fs := local_fs w;
     aws := {| s3 := <[name := {| website_configuration := website_configuration bucket;
                                  bucket_keys := keys |}]> (s3 (aws w));
               distributions := distributions (aws w);
               invalidation_requests := invalidation_requests (aws w) |};
     fake := fake w |}.

(** The world in which the dict of the fake bucket [name] is [bucket]. *)
Definition with_fake_bucket (w : World) (name : string) (bucket : gmap string string)
  : World :=
  {| local_fs := local_fs w;
     aws := aws w;
     fake := {| routing_rules := routing_rules (fake w);
                s3_buckets := <[name := bucket]> (s3_buckets (fake w));
                cloudfront_invalidations := cloudfront_invalidations (fake w) |} |}.

(** ** Notions used in the statements *)

(** One round of the loop [del bucket[prefix + key]]. *)
Definition delete_step (bucket_name prefix key : string) : M unit :=
  let* bucket := FakeAWS.bucket_dict bucket_name in
  dict_get bucket (prefix +:+ key) ;;;
  FakeAWS.mutate_bucket bucket_name (delete (prefix +:+ key)).

(** The dict after [del] of each of [names]. *)
Definition without (names : list string) (bucket : gmap string string)
  : gmap string string :=
  foldl (fun b name => delete name b) bucket names.

(** The path can be written as a regular file: its parent is a directory
    and it is not one itself. *)
Definition fs_writable (fs : Node) (p : FilePath) : bool :=
  match fs_write p "" fs with Some _ => true | None => false end.

(** A relative path as a string: its segments with a separator between
    them. *)
Fixpoint slash_joined (segments : list string) : string :=
  match segments with
  | [] => ""
  | [s] => s
  | s :: rest => s +:+ "/" +:+ slash_joined rest
  end.

(** The path of [file] relative to [source_path]. *)
Definition relative_to (source_path file : FilePath) : string :=
  slash_joined (drop (List.length source_path) file).

(** A walked path the recursive upload is about: its base name is one of
    [files] and it is a regular file. *)
Definition wanted_file (fs : Node) (files : list string) (path : FilePath) : bool :=
  bool_decide (basename path ∈ files) && fs_isfile fs path.

Definition uploads_of (fs : Node) (source_path : FilePath) (files : list string)
  : list FilePath :=
  List.filter (wanted_file fs files) (fs_walk fs source_path).

(** The recursive upload in the words of its description: one [UploadToS3]
    dispatched per wanted file, in walk order. *)
Definition upload_each (dispatcher : Dispatch) (source_path : FilePath)
    (target_bucket target_key : string) (paths : list FilePath) : M Value :=
  for_each paths (fun path =>
    dispatcher (UploadToS3 source_path target_bucket target_key path) ;;; ret tt) ;;;
  ret VNone.

(** The dict of a fake bucket after the uploads of [paths], in order. *)
Definition uploaded (fs : Node) (source_path : FilePath) (target_key : string)
    (paths : list FilePath) (bucket : gmap string string) : gmap string string :=
  foldl (fun b path =>
           <[upload_key source_path target_key path := default "" (fs_read fs path)]> b)
    bucket paths.

(** The keys of an S3 bucket after the uploads of [paths], in order; an
    uploaded key is public. *)
Definition boto_uploaded (fs : Node) (source_path : FilePath) (target_key : string)
    (paths : list FilePath) (keys : gmap string S3Key) : gmap string S3Key :=
  foldl (fun ks path =>
           <[upload_key source_path target_key path :=
               {| key_contents := default "" (fs_read fs path); key_public := true |}]> ks)
    keys paths.

(** Make sure the directory a download is written into exists. *)
Definition ensure_parent (path : FilePath) : M unit :=
  let* fs := get_fs in
  if fs_exists fs (parent path) then ret tt
  else
    let* fs' := or_raise (fs_makedirs (parent path) fs) (OSError (parent path)) in
    set_fs fs'.

(** The downloads of the given relative keys, one after the other. *)
Definition download_each (dispatcher : Dispatch) (source_bucket source_prefix : string)
    (target_path : FilePath) (keys : list string) : M Value :=
  for_each keys (fun key =>
    let* path := or_raise (preauthChild target_path key) (InsecurePath key) in
    ensure_parent path ;;;
    dispatcher (DownloadS3Key source_bucket (os_path_join source_prefix key) path) ;;;
    ret tt) ;;;
  ret VNone.

(** The recursive download in the words of its description: list under
    [source_prefix + "/"], keep the keys with a wanted extension, download
    each of those. *)
Definition download_listed (order : gset string -> list string) (dispatcher : Dispatch)
    (source_bucket source_prefix : string)
    (target_path : FilePath) (filter_extensions : list string) : M Value :=
  let* listed := dispatcher (ListS3Keys source_bucket (source_prefix +:+ "/")) in
  let* keys := iterate order listed in
  download_each dispatcher source_bucket source_prefix target_path
    (List.filter (fun key => endswith key filter_extensions) keys).

(** ** Induction on trees *)

Fixpoint Node_ind (P : Node -> Prop)
    (HFile : forall content, P (File content))
    (HDir : forall entries, Forall (fun e => P (snd e)) entries -> P (Dir entries))
    (n : Node) {struct n} : P n :=
  match n with
  | File content => HFile content
  | Dir entries =>
      HDir entries
        ((fix all (es : list (string * Node)) : Forall (fun e => P (snd e)) es :=
            match es with
            | [] => @List.Forall_nil _ _
            | (name, c) :: es' =>
                @List.Forall_cons _ (fun e => P (snd e)) (name, c) es'
                  (Node_ind P HFile HDir c) (all es')
            end) entries)
  end.

(** ** More sample worlds *)

Definition sample_rules : list RoutingRule :=
  [ {| condition_key_prefix := "en/devel/"; redirect_replace_key_prefix := "en/0.4.0dev1/" |};
    {| condition_key_prefix := "en/latest/"; redirect_replace_key_prefix := "en/0.3.0/" |};
    {| condition_key_prefix := "en/latest/"; redirect_replace_key_prefix := "en/0.2.0/" |} ].

Definition sample_bucket : S3Bucket :=
  {| website_configuration := Some sample_rules;
     bucket_keys := {[ "en/0.3.0/index.html" := {| key_contents := "<html>"; key_public := true |} ]} |}.

Definition sample_aws : AWS :=
  {| s3 := {[ "docs" := sample_bucket ]}; distributions := []; invalidation_requests := [] |}.

Definition sample_boto_world : World :=
  {| local_fs := sample_fs; aws := sample_aws; fake := sample_fake |}.

(** A fake with two buckets. *)
Definition two_buckets_world : World :=
  {| local_fs := sample_fs;
     aws := empty_aws;
     fake := {| routing_rules := ∅;
                s3_buckets := {[ "dev" := {[ "doc/a.html" := "A"; "doc/b.html" := "B" ]};
                                 "prod" := {[ "en/old.html" := "O" ]} ]};
                cloudfront_invalidations := [] |} |}.

(** ** Further notions used in the statements *)

(** The world in which the fake's rules of [bucket] are [rules]. *)
Definition with_fake_rules (w : World) (bucket : string) (rules : gmap string string)
  : World :=
  {| local_fs := local_fs w;
     aws := aws w;
     fake := {| routing_rules := <[bucket := rules]> (routing_rules (fake w));
                s3_buckets := s3_buckets (fake w);
                cloudfront_invalidations := cloudfront_invalidations (fake w) |} |}.

(** The world after CloudFront took one more invalidation request. *)
Definition with_invalidation_request (w : World) (request : string * list string)
  : World :=
  {| local_fs := local_fs w;
     aws := {| s3 := s3 (aws w);
               distributions := distributions (aws w);
               invalidation_requests := invalidation_requests (aws w) ++ [request] |};
     fake := fake w |}.

(** The world after the fake recorded further invalidations. *)
Definition with_recorded (w : World) (intents : list Intent) : World :=
  {| local_fs := local_fs w;
     aws := aws w;
     fake := {| routing_rules := routing_rules (fake w);
                s3_buckets := s3_buckets (fake w);
                cloudfront_invalidations :=
                  cloudfront_invalidations (fake w) ++ intents |} |}.

(** Intents performed one after the other, each for its effect. *)
Definition perform_each (fuel : nat) (dispatcher : Dispatcher) (intents : list Intent)
  : M unit :=
  for_each intents (fun intent => perform fuel dispatcher intent ;;; ret tt).

(** The destination dict after the copies of [keys], in order, out of the
    dict [source]. *)
Definition copied (source : gmap string string) (source_prefix destination_prefix : string)
    (keys : list string) (destination : gmap string string) : gmap string string :=
  foldl (fun d key =>
           <[destination_prefix +:+ key := default "" (source !! (source_prefix +:+ key))]> d)
    destination keys.

(** One round of the fake's copy loop. *)
Definition copy_step (source_bucket source_prefix destination_bucket
    destination_prefix key : string) : M unit :=
  let* source := FakeAWS.bucket_dict source_bucket in
  let* content := dict_get source (source_prefix +:+ key) in
  FakeAWS.mutate_bucket destination_bucket (insert (destination_prefix +:+ key) content).

(** A computation that, from any world and whatever its outcome, ends in
    a world related to the one it started in. *)
Definition stable {A} (R : World -> World -> Prop) (m : M A) : Prop :=
  forall w, R w (snd (m w)).

(** What a recursive download may not touch: the fake and the account. *)
Definition same_remote (w w' : World) : Prop :=
  fake w' = fake w /\ aws w' = aws w.

(** What an upload into the fake bucket [target_bucket] may not touch:
    local files, the account, the fake's rules and invalidations, and
    every other bucket of the fake. *)
Definition only_bucket (target_bucket : string) (w w' : World) : Prop :=
  local_fs w' = local_fs w
  /\ aws w' = aws w
  /\ routing_rules (fake w') = routing_rules (fake w)
  /\ cloudfront_invalidations (fake w') = cloudfront_invalidations (fake w)
  /\ forall b, b <> target_bucket -> s3_buckets (fake w') !! b = s3_buckets (fake w) !! b.

(** * Properties *)

(** ** Running the monad *)

Lemma bind_returned {A B} (m : M A) (k : A -> M B) w a w' :
  m w = (Returned a, w') -> bind m k w = k a w'.
Proof. intros H. unfold bind. now rewrite H. Qed.

Lemma bind_ext {A B} (m : M A) (k1 k2 : A -> M B) w :
  (forall a w', k1 a w' = k2 a w') -> bind m k1 w = bind m k2 w.
Proof.
  intros H. unfold bind. destruct (m w) as [[a| |] w']; auto.
Qed.

Lemma world_eta w :
  {| local_fs := local_fs w; aws := aws w; fake := fake w |} = w.
Proof. now destruct w. Qed.

Lemma fake_eta f :
  {| routing_rules := routing_rules f; s3_buckets := s3_buckets f;
     cloudfront_invalidations := cloudfront_invalidations f |} = f.
Proof. now destruct f. Qed.

(** ** Dispatch tables *)

Lemma mapping_get_other c mapping :
  Forall (fun kv => match fst kv with TOther _ => False | _ => True end) mapping ->
  mapping_get (TOther c) mapping = None.
Proof.
  induction 1 as [|[k v] rest Hk _ IH]; simpl; [reflexivity|].
  destruct (decide (k = TOther c)) as [->|_]; [destruct Hk | exact IH].
Qed.

(** C3: each of the nine intent classes has a performer in both tables, an
    object of any other class has none, and performing an intent for
    which the dispatcher has no performer raises [UnhandledIntent] and
    does nothing else. *)
Theorem dispatch_tables_complete :
  (forall i, type_of i ∈ intent_classes ->
     is_Some (boto_dispatcher i) /\ is_Some (FakeAWS.get_dispatcher i))
  /\ (forall c, boto_dispatcher (OtherIntent c) = None
                /\ FakeAWS.get_dispatcher (OtherIntent c) = None)
  /\ (forall (d : Dispatcher) i fuel w,
        d i = None -> perform (S fuel) d i w = (Raised (UnhandledIntent i), w)).
Proof.
  split; [|split].
  - intros i Hi. destruct i; try (split; eexists; reflexivity);
      exfalso; unfold intent_classes in Hi; simpl in Hi;
      repeat (apply elem_of_cons in Hi as [Hi|Hi]; [discriminate Hi|]);
      inversion Hi.
  - intros c. split; apply mapping_get_other; repeat constructor.
  - intros d i fuel w H. simpl. now rewrite H.
Qed.

Lemma dispatch_tables_complete_witness :
  is_Some (boto_dispatcher (ListS3Keys "docs" "en/"))
  /\ is_Some (FakeAWS.get_dispatcher (ListS3Keys "docs" "en/"))
  /\ perform 1 boto_dispatcher (OtherIntent "Delay") sample_world
     = (Raised (UnhandledIntent (OtherIntent "Delay")), sample_world)
  /\ perform 1 FakeAWS.get_dispatcher (OtherIntent "Delay") sample_world
     = (Raised (UnhandledIntent (OtherIntent "Delay")), sample_world).
Proof.
  destruct dispatch_tables_complete as (Hreg & Hother & Hfail).
  destruct (Hreg (ListS3Keys "docs" "en/")) as [Hb Hf].
  { simpl. unfold intent_classes. rewrite !elem_of_cons. tauto. }
  destruct (Hother "Delay") as [Hob Hof].
  split; [exact Hb | split; [exact Hf | split]].
  - apply (Hfail boto_dispatcher); exact Hob.
  - apply (Hfail FakeAWS.get_dispatcher); exact Hof.
Defined.

(** ** Routing rules *)

Lemma first_match_none prefix (rules : list RoutingRule) :
  Forall (fun r => condition_key_prefix r <> prefix) rules ->
  List.filter (rule_matches prefix) rules = [].
Proof.
  induction 1 as [|r rs Hr _ IH]; simpl; [reflexivity|].
  unfold rule_matches at 1. apply String.eqb_neq in Hr. now rewrite Hr.
Qed.

Lemma first_match_found prefix (pre post : list RoutingRule) r :
  Forall (fun r => condition_key_prefix r <> prefix) pre ->
  condition_key_prefix r = prefix ->
  head (List.filter (rule_matches prefix) (pre ++ r :: post)) = Some r.
Proof.
  intros Hpre Hr. rewrite List.filter_app, (first_match_none _ _ Hpre). simpl.
  unfold rule_matches at 1. apply String.eqb_eq in Hr. now rewrite Hr.
Qed.

Lemma assign_first_found prefix (pre post : list RoutingRule) r r' :
  Forall (fun r => condition_key_prefix r <> prefix) pre ->
  condition_key_prefix r = prefix ->
  assign_first (rule_matches prefix) r' (pre ++ r :: post) = pre ++ r' :: post.
Proof.
  intros Hpre Hr. induction Hpre as [|x xs Hx _ IH]; simpl.
  - unfold rule_matches. apply String.eqb_eq in Hr. now rewrite Hr.
  - unfold rule_matches at 1. apply String.eqb_neq in Hx. rewrite Hx. now rewrite IH.
Qed.

Lemma boto_update_no_match fuel w bucket_name bucket config prefix target :
  s3 (aws w) !! bucket_name = Some bucket ->
  website_configuration bucket = Some config ->
  Forall (fun r => condition_key_prefix r <> prefix) config ->
  perform (S fuel) boto_dispatcher (UpdateS3RoutingRule bucket_name prefix target) w
  = (Raised IndexError, w).
Proof.
  intros Hb Hc Hnone.
  change (perform_update_s3_routing_rule (perform fuel boto_dispatcher)
            (UpdateS3RoutingRule bucket_name prefix target) w = (Raised IndexError, w)).
  unfold perform_update_s3_routing_rule, s3_get_bucket, bind, get_aws, or_raise.
  rewrite Hb. simpl. rewrite Hc. simpl.
  now rewrite (first_match_none _ _ Hnone).
Qed.

Lemma boto_update_at_first_match fuel w bucket_name bucket pre r post prefix target :
  s3 (aws w) !! bucket_name = Some bucket ->
  website_configuration bucket = Some (pre ++ r :: post) ->
  Forall (fun r => condition_key_prefix r <> prefix) pre ->
  condition_key_prefix r = prefix ->
  perform (S fuel) boto_dispatcher (UpdateS3RoutingRule bucket_name prefix target) w
  = if String.eqb (redirect_replace_key_prefix r) target
    then (Returned VNone, w)
    else (Returned (VStr (redirect_replace_key_prefix r)),
          with_website w bucket_name bucket
            (pre ++ {| condition_key_prefix := condition_key_prefix r;
                       redirect_replace_key_prefix := target |} :: post)).
Proof.
  intros Hb Hc Hpre Hr.
  change (perform (S fuel) boto_dispatcher
            (UpdateS3RoutingRule bucket_name prefix target) w)
    with (perform_update_s3_routing_rule (perform fuel boto_dispatcher)
            (UpdateS3RoutingRule bucket_name prefix target) w).
  unfold perform_update_s3_routing_rule, s3_get_bucket, bind, get_aws, or_raise.
  rewrite Hb. simpl. rewrite Hc. simpl.
  rewrite (first_match_found _ _ _ _ Hpre Hr). simpl.
  destruct (String.eqb (redirect_replace_key_prefix r) target); [reflexivity|].
  rewrite (assign_first_found _ _ _ _ _ Hpre Hr).
  unfold s3_put_bucket, bind, get_aws, set_aws, ret. simpl. reflexivity.
Qed.

(** C5: against boto, an update for which no rule of the bucket's website
    configuration has the intent's prefix as its condition prefix raises
    [RuleNotFound] and changes nothing; otherwise the first rule with that
    prefix, in the order of the configuration, is the one compared and
    rewritten, whatever rules follow it. *)
Theorem boto_update_first_match_wins fuel w bucket_name bucket config prefix target :
  s3 (aws w) !! bucket_name = Some bucket ->
  website_configuration bucket = Some config ->
  (Forall (fun r => condition_key_prefix r <> prefix) config ->
   perform (S fuel) boto_dispatcher (UpdateS3RoutingRule bucket_name prefix target) w
   = (Raised RuleNotFound, w))
  /\ (forall pre r post,
        config = pre ++ r :: post ->
        Forall (fun r => condition_key_prefix r <> prefix) pre ->
        condition_key_prefix r = prefix ->
        perform (S fuel) boto_dispatcher (UpdateS3RoutingRule bucket_name prefix target) w
        = if String.eqb (redirect_replace_key_prefix r) target
          then (Returned VNone, w)
          else (Returned (VStr (redirect_replace_key_prefix r)),
                with_website w bucket_name bucket
                  (pre ++ {| condition_key_prefix := condition_key_prefix r;
                             redirect_replace_key_prefix := target |} :: post))).
Proof.
  intros Hb Hc. split.
  - intros Hnone. now apply (boto_update_no_match fuel w bucket_name bucket config).
  - intros pre r post -> Hpre Hr. now apply boto_update_at_first_match.
Qed.

Lemma boto_update_first_match_wins_witness :
  perform 1 boto_dispatcher (UpdateS3RoutingRule "docs" "en/old/" "en/0.3.1/") sample_boto_world
  = (Raised RuleNotFound, sample_boto_world)
  /\ perform 1 boto_dispatcher (UpdateS3RoutingRule "docs" "en/latest/" "en/0.3.1/")
       sample_boto_world
     = (Returned (VStr "en/0.3.0/"),
        with_website sample_boto_world "docs" sample_bucket
          [ {| condition_key_prefix := "en/devel/"; redirect_replace_key_prefix := "en/0.4.0dev1/" |};
            {| condition_key_prefix := "en/latest/"; redirect_replace_key_prefix := "en/0.3.1/" |};
            {| condition_key_prefix := "en/latest/"; redirect_replace_key_prefix := "en/0.2.0/" |} ]).
Proof.
  destruct (boto_update_first_match_wins 0 sample_boto_world "docs" sample_bucket
              sample_rules "en/old/" "en/0.3.1/" eq_refl eq_refl) as [Hnone _].
  destruct (boto_update_first_match_wins 0 sample_boto_world "docs" sample_bucket
              sample_rules "en/latest/" "en/0.3.1/" eq_refl eq_refl) as [_ Hfirst].
  split.
  - apply Hnone. repeat constructor; discriminate.
  - apply (Hfirst [ {| condition_key_prefix := "en/devel/";
                        redirect_replace_key_prefix := "en/0.4.0dev1/" |} ]
                  {| condition_key_prefix := "en/latest/";
                     redirect_replace_key_prefix := "en/0.3.0/" |}
                  [ {| condition_key_prefix := "en/latest/";
                       redirect_replace_key_prefix := "en/0.2.0/" |} ]);
      [reflexivity | repeat constructor; discriminate | reflexivity].
Defined.

(** Against boto, an update to the target the first matching rule already
    has returns [None] and writes nothing. *)
Lemma boto_update_same_target fuel w bucket_name bucket pre r post prefix :
  s3 (aws w) !! bucket_name = Some bucket ->
  website_configuration bucket = Some (pre ++ r :: post) ->
  Forall (fun r => condition_key_prefix r <> prefix) pre ->
  condition_key_prefix r = prefix ->
  perform (S fuel) boto_dispatcher
    (UpdateS3RoutingRule bucket_name prefix (redirect_replace_key_prefix r)) w
  = (Returned VNone, w).
Proof.
  intros Hb Hc Hpre Hr.
  rewrite (boto_update_at_first_match fuel w bucket_name bucket pre r post prefix
             (redirect_replace_key_prefix r) Hb Hc Hpre Hr).
  now rewrite String.eqb_refl.
Qed.

(** C6: the fake raises the [KeyError] of the failed dict lookup, on the
    bucket or on the prefix, and the world (so the whole fake) is as it
    was before the dispatch. *)
Theorem fake_update_missing_rule_fails fuel w bucket prefix target :
  (routing_rules (fake w) !! bucket = None
   \/ exists rules, routing_rules (fake w) !! bucket = Some rules /\ rules !! prefix = None) ->
  exists key, (key = bucket \/ key = prefix)
    /\ perform (S fuel) FakeAWS.get_dispatcher (UpdateS3RoutingRule bucket prefix target) w
       = (Raised (KeyError key), w).
Proof.
  intros H.
  change (perform (S fuel) FakeAWS.get_dispatcher (UpdateS3RoutingRule bucket prefix target) w)
    with (FakeAWS._perform_update_s3_routing_rule (perform fuel FakeAWS.get_dispatcher)
            (UpdateS3RoutingRule bucket prefix target) w).
  unfold FakeAWS._perform_update_s3_routing_rule, bind, get_fake, dict_get, or_raise.
  destruct H as [Hb | (rules & Hb & Hp)].
  - exists bucket. split; [now left|]. now rewrite Hb.
  - exists prefix. split; [now right|]. rewrite Hb. simpl. now rewrite Hp.
Qed.

Lemma fake_update_missing_rule_fails_witness :
  exists key, (key = "docs" \/ key = "en/devel/")
    /\ perform 1 FakeAWS.get_dispatcher (UpdateS3RoutingRule "docs" "en/devel/" "en/0.4.0/")
         sample_world
       = (Raised (KeyError key), sample_world).
Proof.
  apply (fake_update_missing_rule_fails 0 sample_world "docs" "en/devel/" "en/0.4.0/").
  right. exists {[ "en/latest/" := "en/0.3.0/" ]}. split; reflexivity.
Defined.

(** The fake, given the target a rule already has: the stored rules stay
    as they are, and the value returned is that target. *)
Lemma fake_update_same_target fuel w bucket prefix rules target :
  routing_rules (fake w) !! bucket = Some rules ->
  rules !! prefix = Some target ->
  perform (S fuel) FakeAWS.get_dispatcher (UpdateS3RoutingRule bucket prefix target) w
  = (Returned (VStr target), w).
Proof.
  intros Hb Hp.
  change (perform (S fuel) FakeAWS.get_dispatcher (UpdateS3RoutingRule bucket prefix target) w)
    with (FakeAWS._perform_update_s3_routing_rule (perform fuel FakeAWS.get_dispatcher)
            (UpdateS3RoutingRule bucket prefix target) w).
  unfold FakeAWS._perform_update_s3_routing_rule, bind, get_fake, dict_get, or_raise.
  rewrite Hb. simpl. rewrite Hp. simpl. unfold set_fake, ret.
  rewrite (insert_id rules prefix target Hp), (insert_id _ bucket rules Hb).
  now rewrite fake_eta, world_eta.
Qed.

(** C2: at a fake whose rule for ["en/latest/"] already redirects to
    ["en/0.3.0/"], the update to that same target leaves the world as it
    was but returns the target, where boto's performer returns [None]. *)
Theorem fake_update_same_target_returns_it :
  perform 1 FakeAWS.get_dispatcher (UpdateS3RoutingRule "docs" "en/latest/" "en/0.3.0/")
    sample_world
  = (Returned (VStr "en/0.3.0/"), sample_world)
  /\ perform 1 boto_dispatcher (UpdateS3RoutingRule "docs" "en/latest/" "en/0.3.0/")
       sample_boto_world
     = (Returned VNone, sample_boto_world).
Proof.
  split.
  - apply (fake_update_same_target 0 sample_world "docs" "en/latest/"
             {[ "en/latest/" := "en/0.3.0/" ]}); reflexivity.
  - apply (boto_update_same_target 0 sample_boto_world "docs" sample_bucket
             [ {| condition_key_prefix := "en/devel/";
                  redirect_replace_key_prefix := "en/0.4.0dev1/" |} ]
             {| condition_key_prefix := "en/latest/";
                redirect_replace_key_prefix := "en/0.3.0/" |}
             [ {| condition_key_prefix := "en/latest/";
                  redirect_replace_key_prefix := "en/0.2.0/" |} ] "en/latest/");
      [reflexivity | reflexivity | repeat constructor; discriminate | reflexivity].
Qed.

(** ** Strings *)

Lemma append_String a p r : String a p +:+ r = String a (p +:+ r).
Proof. reflexivity. Qed.

Lemma append_empty r : "" +:+ r = r.
Proof. reflexivity. Qed.

Lemma length_append a b : String.length (a +:+ b) = String.length a + String.length b.
Proof.
  induction a as [|c a IH]; [reflexivity|].
  rewrite append_String. simpl. now rewrite IH.
Qed.

Lemma startswith_app p r : startswith (p +:+ r) p = true.
Proof.
  induction p as [|a p IH]; [reflexivity|].
  rewrite append_String. simpl. now rewrite Ascii.eqb_refl.
Qed.

Lemma str_drop_app p r : str_drop (String.length p) (p +:+ r) = r.
Proof.
  induction p as [|a p IH]; [reflexivity|].
  rewrite append_String. simpl. exact IH.
Qed.

Lemma startswith_split s p :
  startswith s p = true -> s = p +:+ str_drop (String.length p) s.
Proof.
  revert s. induction p as [|a p IH]; intros s H; [reflexivity|].
  destruct s as [|b s]; [discriminate|]. simpl in H.
  apply andb_prop in H as [Hab Hs]. apply Ascii.eqb_eq in Hab. subst b.
  rewrite append_String. simpl. f_equal. now apply IH.
Qed.

(** ** Listing keys *)

Lemma elem_of_stripped_names {V} (keys : gmap string V) prefix name :
  name ∈ stripped_names keys prefix <-> is_Some (keys !! (prefix +:+ name)).
Proof.
  unfold stripped_names. rewrite elem_of_map. split.
  - intros (key & -> & Hkey). apply elem_of_filter in Hkey as [Hp Hdom].
    apply Is_true_true in Hp. rewrite <- (startswith_split _ _ Hp).
    now apply elem_of_dom.
  - intros Hsome. exists (prefix +:+ name). split.
    + now rewrite str_drop_app.
    + apply elem_of_filter. split.
      * apply Is_true_true, startswith_app.
      * now apply elem_of_dom.
Qed.

(** C4, as stated, fails: the fake bucket ["docs"] stores the key
    ["docs/docs/index.html"], and listing under ["docs/"] returns the name
    ["docs/index.html"], which again starts with ["docs/"]. *)
Lemma list_keys_name_may_repeat_prefix :
  ~ (forall w bucket prefix names name,
       perform 1 FakeAWS.get_dispatcher (ListS3Keys bucket prefix) w
         = (Returned (VSet names), w) ->
       name ∈ names -> startswith name prefix = false).
Proof.
  intros H.
  specialize (H sample_world "docs" "docs/"
                (stripped_names
                   ({[ "docs/docs/index.html" := "<html>";
                       "docs/x.json" := "{}";
                       "foo/x.json" := "{1}";
                       "foo/y.txt" := "why";
                       "foo/deep/z.json" := "{2}" ]} : gmap string string) "docs/")
                "docs/index.html" eq_refl).
  assert (Hin : "docs/index.html" ∈
                stripped_names
                   ({[ "docs/docs/index.html" := "<html>";
                       "docs/x.json" := "{}";
                       "foo/x.json" := "{1}";
                       "foo/y.txt" := "why";
                       "foo/deep/z.json" := "{2}" ]} : gmap string string) "docs/").
  { apply elem_of_stripped_names. eexists. reflexivity. }
  specialize (H Hin). discriminate H.
Qed.

(** C4, amended: listing returns exactly the names [n] for which
    [prefix + n] is a key of the bucket, that is every key stored under
    the prefix with its first [len(prefix)] characters removed, as a set;
    the world is not changed.  This holds for the fake and for boto. *)
Theorem list_keys_strips_prefix_once fuel w bucket_name prefix :
  (forall bucket,
     s3_buckets (fake w) !! bucket_name = Some bucket ->
     exists names,
       perform (S fuel) FakeAWS.get_dispatcher (ListS3Keys bucket_name prefix) w
         = (Returned (VSet names), w)
       /\ forall name, name ∈ names <-> is_Some (bucket !! (prefix +:+ name)))
  /\ (forall bucket,
        s3 (aws w) !! bucket_name = Some bucket ->
        exists names,
          perform (S fuel) boto_dispatcher (ListS3Keys bucket_name prefix) w
            = (Returned (VSet names), w)
          /\ forall name, name ∈ names <-> is_Some (bucket_keys bucket !! (prefix +:+ name))).
Proof.
  split; intros bucket Hb.
  - exists (stripped_names bucket prefix). split.
    + change (perform (S fuel) FakeAWS.get_dispatcher (ListS3Keys bucket_name prefix) w)
        with (FakeAWS._perform_list_s3_keys (perform fuel FakeAWS.get_dispatcher)
                (ListS3Keys bucket_name prefix) w).
      unfold FakeAWS._perform_list_s3_keys, FakeAWS.bucket_dict, bind, get_fake,
        dict_get, or_raise.
      now rewrite Hb.
    + intros name. apply elem_of_stripped_names.
  - exists (stripped_names (bucket_keys bucket) prefix). split.
    + change (perform (S fuel) boto_dispatcher (ListS3Keys bucket_name prefix) w)
        with (perform_list_s3_keys (perform fuel boto_dispatcher)
                (ListS3Keys bucket_name prefix) w).
      unfold perform_list_s3_keys, s3_get_bucket, bind, get_aws, or_raise.
      now rewrite Hb.
    + intros name. apply elem_of_stripped_names.
Qed.

Lemma list_keys_strips_prefix_once_witness :
  (exists names,
     perform 1 FakeAWS.get_dispatcher (ListS3Keys "docs" "foo/") sample_boto_world
       = (Returned (VSet names), sample_boto_world)
     /\ forall name, name ∈ names <->
          is_Some (({[ "docs/docs/index.html" := "<html>";
                       "docs/x.json" := "{}";
                       "foo/x.json" := "{1}";
                       "foo/y.txt" := "why";
                       "foo/deep/z.json" := "{2}" ]} : gmap string string)
                     !! ("foo/" +:+ name)))
  /\ (exists names,
        perform 1 boto_dispatcher (ListS3Keys "docs" "foo/") sample_boto_world
          = (Returned (VSet names), sample_boto_world)
        /\ forall name, name ∈ names <->
             is_Some (bucket_keys sample_bucket !! ("foo/" +:+ name))).
Proof.
  destruct (list_keys_strips_prefix_once 0 sample_boto_world "docs" "foo/") as [Hf Hb].
  split.
  - apply Hf. reflexivity.
  - apply Hb. reflexivity.
Defined.

(** ** Loops *)

Lemma bind_assoc {A B C} (m : M A) (k1 : A -> M B) (k2 : B -> M C) w :
  bind (bind m k1) k2 w = bind m (fun a => bind (k1 a) k2) w.
Proof. unfold bind. destruct (m w) as [[a| |] w']; reflexivity. Qed.

Lemma for_each_app {A} (xs ys : list A) (body : A -> M unit) w :
  for_each (xs ++ ys) body w = bind (for_each xs body) (fun _ => for_each ys body) w.
Proof.
  revert w. induction xs as [|x xs IH]; intros w.
  - reflexivity.
  - change (bind (body x) (fun _ => for_each (xs ++ ys) body) w
            = bind (bind (body x) (fun _ => for_each xs body))
                (fun _ => for_each ys body) w).
    rewrite bind_assoc. apply bind_ext. intros _ w'. apply IH.
Qed.

(** ** Deleting keys from the fake *)

Lemma append_inj_l p a b : p +:+ a = p +:+ b -> a = b.
Proof.
  induction p as [|c p IH]; [auto|].
  rewrite !append_String. intros H. injection H as H. auto.
Qed.

Lemma with_fake_bucket_id w name bucket :
  s3_buckets (fake w) !! name = Some bucket -> with_fake_bucket w name bucket = w.
Proof.
  intros H. unfold with_fake_bucket. rewrite (insert_id _ _ _ H).
  now rewrite fake_eta, world_eta.
Qed.

Lemma with_fake_bucket_twice w name b1 b2 :
  with_fake_bucket (with_fake_bucket w name b1) name b2 = with_fake_bucket w name b2.
Proof. unfold with_fake_bucket. simpl. now rewrite insert_insert_eq. Qed.

Lemma with_fake_bucket_lookup w name bucket :
  s3_buckets (fake (with_fake_bucket w name bucket)) !! name = Some bucket.
Proof. simpl. apply lookup_insert_eq. Qed.

Lemma delete_step_present w bucket_name bucket prefix key :
  s3_buckets (fake w) !! bucket_name = Some bucket ->
  is_Some (bucket !! (prefix +:+ key)) ->
  delete_step bucket_name prefix key w
  = (Returned tt, with_fake_bucket w bucket_name (delete (prefix +:+ key) bucket)).
Proof.
  intros Hb [content Hk].
  unfold delete_step, FakeAWS.bucket_dict, FakeAWS.mutate_bucket, bind, get_fake,
    dict_get, or_raise.
  rewrite Hb. simpl. rewrite Hk. simpl. rewrite Hb. reflexivity.
Qed.

Lemma delete_step_absent w bucket_name bucket prefix key :
  s3_buckets (fake w) !! bucket_name = Some bucket ->
  bucket !! (prefix +:+ key) = None ->
  delete_step bucket_name prefix key w = (Raised (KeyError (prefix +:+ key)), w).
Proof.
  intros Hb Hk.
  unfold delete_step, FakeAWS.bucket_dict, bind, get_fake, dict_get, or_raise.
  rewrite Hb. simpl. now rewrite Hk.
Qed.

Lemma lookup_without names bucket name :
  without names bucket !! name
  = if decide (name ∈ names) then None else bucket !! name.
Proof.
  unfold without. revert bucket. induction names as [|n names IH]; intros bucket; simpl.
  - destruct (decide (name ∈ [])) as [H|_]; [inversion H | reflexivity].
  - rewrite IH. destruct (decide (name ∈ names)) as [Hin|Hnin].
    + rewrite decide_True; [reflexivity | now apply elem_of_cons; right].
    + destruct (decide (name = n)) as [->|Hne].
      * rewrite lookup_delete_eq. rewrite decide_True; [reflexivity | now apply elem_of_cons; left].
      * rewrite lookup_delete_ne by congruence.
        rewrite decide_False; [reflexivity|].
        intros [?|?]%elem_of_cons; contradiction.
Qed.

Lemma delete_loop_succeeds bucket_name prefix keys : forall w bucket,
  s3_buckets (fake w) !! bucket_name = Some bucket ->
  NoDup keys ->
  (forall k, k ∈ keys -> is_Some (bucket !! (prefix +:+ k))) ->
  for_each keys (delete_step bucket_name prefix) w
  = (Returned tt,
     with_fake_bucket w bucket_name (without (String.append prefix <$> keys) bucket)).
Proof.
  induction keys as [|k keys IH]; intros w bucket Hb Hnd Hall; simpl.
  - unfold ret. now rewrite with_fake_bucket_id.
  - apply NoDup_cons in Hnd as [Hk Hnd].
    unfold bind. rewrite (delete_step_present w bucket_name bucket prefix k Hb).
    2:{ apply Hall. now apply elem_of_cons; left. }
    rewrite (IH _ (delete (prefix +:+ k) bucket)).
    + now rewrite with_fake_bucket_twice.
    + apply with_fake_bucket_lookup.
    + exact Hnd.
    + intros k' Hk'. rewrite lookup_delete_ne.
      * apply Hall. now apply elem_of_cons; right.
      * intros Heq. apply append_inj_l in Heq. subst k'. contradiction.
Qed.

Lemma fake_delete_all_present fuel w bucket_name bucket prefix keys :
  s3_buckets (fake w) !! bucket_name = Some bucket ->
  NoDup keys ->
  (forall k, k ∈ keys -> is_Some (bucket !! (prefix +:+ k))) ->
  perform (S fuel) FakeAWS.get_dispatcher (DeleteS3Keys bucket_name prefix keys) w
  = (Returned VNone,
     with_fake_bucket w bucket_name (without (String.append prefix <$> keys) bucket)).
Proof.
  intros Hb Hnd Hall.
  change (perform (S fuel) FakeAWS.get_dispatcher (DeleteS3Keys bucket_name prefix keys) w)
    with (bind (FakeAWS.bucket_dict bucket_name)
            (fun _ => bind (for_each keys (delete_step bucket_name prefix))
                        (fun _ => ret VNone)) w).
  unfold bind at 1. unfold FakeAWS.bucket_dict at 1, bind at 1, get_fake, dict_get, or_raise.
  rewrite Hb. simpl.
  now rewrite (bind_returned _ _ _ _ _
                 (delete_loop_succeeds bucket_name prefix keys w bucket Hb Hnd Hall)).
Qed.

(** C10: the fake deletes [prefix + key] for the keys in list order and
    raises the [KeyError] of the first one that is not in the dict at its
    turn.  In the world it leaves behind, the names of the keys before
    that one are gone from the bucket and every other name maps to what
    it did before the dispatch: nothing is restored and nothing after the
    failing key is deleted. *)
Theorem fake_delete_stops_at_missing_key fuel w bucket_name bucket prefix pre key post :
  s3_buckets (fake w) !! bucket_name = Some bucket ->
  NoDup pre ->
  (forall k, k ∈ pre -> is_Some (bucket !! (prefix +:+ k))) ->
  bucket !! (prefix +:+ key) = None \/ key ∈ pre ->
  exists bucket',
    perform (S fuel) FakeAWS.get_dispatcher
      (DeleteS3Keys bucket_name prefix (pre ++ key :: post)) w
    = (Raised (KeyError (prefix +:+ key)), with_fake_bucket w bucket_name bucket')
    /\ forall name,
         bucket' !! name
         = if decide (name ∈ String.append prefix <$> pre) then None else bucket !! name.
Proof.
  intros Hb Hnd Hall Hkey.
  exists (without (String.append prefix <$> pre) bucket). split.
  - change (perform (S fuel) FakeAWS.get_dispatcher
              (DeleteS3Keys bucket_name prefix (pre ++ key :: post)) w)
      with (bind (FakeAWS.bucket_dict bucket_name)
              (fun _ => bind (for_each (pre ++ key :: post) (delete_step bucket_name prefix))
                          (fun _ => ret VNone)) w).
    unfold bind at 1. unfold FakeAWS.bucket_dict at 1, bind at 1, get_fake, dict_get, or_raise.
    rewrite Hb. simpl.
    unfold bind at 1. rewrite for_each_app. unfold bind at 1.
    rewrite (delete_loop_succeeds bucket_name prefix pre w bucket Hb Hnd Hall).
    simpl. unfold bind at 1.
    rewrite (delete_step_absent _ bucket_name
               (without (String.append prefix <$> pre) bucket) prefix key).
    + reflexivity.
    + apply with_fake_bucket_lookup.
    + rewrite lookup_without.
      destruct (decide (prefix +:+ key ∈ String.append prefix <$> pre)) as [_|Hnin];
        [reflexivity|].
      destruct Hkey as [Hnone | Hin]; [exact Hnone|].
      exfalso. apply Hnin. apply list_elem_of_fmap. now exists key.
  - intros name. apply lookup_without.
Qed.

Lemma fake_delete_stops_at_missing_key_witness :
  exists bucket',
    perform 1 FakeAWS.get_dispatcher
      (DeleteS3Keys "docs" "foo/" (["x.json"] ++ "missing" :: ["y.txt"])) sample_world
    = (Raised (KeyError ("foo/" +:+ "missing")), with_fake_bucket sample_world "docs" bucket')
    /\ forall name,
         bucket' !! name
         = if decide (name ∈ String.append "foo/" <$> ["x.json"]) then None
           else ({[ "docs/docs/index.html" := "<html>";
                    "docs/x.json" := "{}";
                    "foo/x.json" := "{1}";
                    "foo/y.txt" := "why";
                    "foo/deep/z.json" := "{2}" ]} : gmap string string) !! name.
Proof.
  apply (fake_delete_stops_at_missing_key 0 sample_world "docs" _ "foo/"
           ["x.json"] "missing" ["y.txt"]).
  - reflexivity.
  - apply NoDup_singleton.
  - intros k Hk. apply list_elem_of_singleton in Hk. subst k. eexists. reflexivity.
  - left. reflexivity.
Defined.

(** ** Files *)

Lemma entry_lookup_set name c es : entry_lookup name (entry_set name c es) = Some c.
Proof.
  induction es as [|[n c0] es IH]; simpl.
  - now rewrite String.eqb_refl.
  - destruct (String.eqb n name) eqn:E; simpl; rewrite E; [reflexivity | exact IH].
Qed.

Lemma lookup_after_write p c : forall n n',
  fs_write p c n = Some n' -> lookup_node p n' = Some (File c).
Proof.
  induction p as [|s rest IH]; intros n n' H; simpl in H.
  - destruct n; [|discriminate]. injection H as <-. reflexivity.
  - destruct n as [|es]; [discriminate|].
    destruct (entry_lookup s es) as [child|] eqn:E.
    + destruct (fs_write rest c child) as [child'|] eqn:W; [|discriminate].
      injection H as <-. simpl. rewrite entry_lookup_set. eapply IH, W.
    + destruct rest; [|discriminate]. injection H as <-.
      simpl. now rewrite entry_lookup_set.
Qed.

Lemma read_after_write p c n n' : fs_write p c n = Some n' -> fs_read n' p = Some c.
Proof. intros H. unfold fs_read. now rewrite (lookup_after_write _ _ _ _ H). Qed.

Lemma write_after_write p c c' : forall n n',
  fs_write p c n = Some n' -> is_Some (fs_write p c' n').
Proof.
  induction p as [|s rest IH]; intros n n' H; simpl in H.
  - destruct n; [|discriminate]. injection H as <-. eexists; reflexivity.
  - destruct n as [|es]; [discriminate|].
    destruct (entry_lookup s es) as [child|] eqn:E.
    + destruct (fs_write rest c child) as [child'|] eqn:W; [|discriminate].
      injection H as <-. simpl. rewrite entry_lookup_set.
      destruct (IH _ _ W) as [x ->]. eexists; reflexivity.
    + destruct rest; [|discriminate]. injection H as <-.
      simpl. rewrite entry_lookup_set. eexists; reflexivity.
Qed.

Lemma write_any_content p c c' : forall n,
  is_Some (fs_write p c n) -> is_Some (fs_write p c' n).
Proof.
  induction p as [|s rest IH]; intros n [n' H]; simpl in *.
  - destruct n; [eexists; reflexivity | discriminate].
  - destruct n as [|es]; [discriminate|].
    destruct (entry_lookup s es) as [child|] eqn:E.
    + destruct (fs_write rest c child) as [child'|] eqn:W; [|discriminate].
      destruct (IH child) as [x ->]; [now rewrite W | eexists; reflexivity].
    + destruct rest; [eexists; reflexivity | discriminate].
Qed.

Lemma fs_writable_write fs p c :
  fs_writable fs p = true -> is_Some (fs_write p c fs).
Proof.
  unfold fs_writable. intros H. apply (write_any_content p "").
  destruct (fs_write p "" fs); [eexists; reflexivity | discriminate].
Qed.

Lemma set_content_written p c fs fs' :
  fs_write p c fs = Some fs' -> fs_set_content p c fs = (true, fs').
Proof. intros H. unfold fs_set_content. now rewrite H. Qed.

(** ** Upload, then download *)

Lemma fake_upload_stores fuel w source_path target_bucket target_key file bucket content :
  s3_buckets (fake w) !! target_bucket = Some bucket ->
  fs_read (local_fs w) file = Some content ->
  perform (S fuel) FakeAWS.get_dispatcher
    (UploadToS3 source_path target_bucket target_key file) w
  = (Returned VNone,
     with_fake_bucket w target_bucket
       (<[upload_key source_path target_key file := content]> bucket)).
Proof.
  intros Hb Hr.
  change (perform (S fuel) FakeAWS.get_dispatcher
            (UploadToS3 source_path target_bucket target_key file) w)
    with (FakeAWS._perform_upload_s3_key (perform fuel FakeAWS.get_dispatcher)
            (UploadToS3 source_path target_bucket target_key file) w).
  unfold FakeAWS._perform_upload_s3_key, FakeAWS.bucket_dict, FakeAWS.mutate_bucket,
    bind, get_fake, get_fs, dict_get, or_raise.
  rewrite Hb. simpl. rewrite Hr. simpl. rewrite Hb. reflexivity.
Qed.

Lemma fake_download_writes fuel w source_bucket source_key target_path bucket content fs' :
  s3_buckets (fake w) !! source_bucket = Some bucket ->
  bucket !! source_key = Some content ->
  fs_write target_path content (local_fs w) = Some fs' ->
  perform (S fuel) FakeAWS.get_dispatcher
    (DownloadS3Key source_bucket source_key target_path) w
  = (Returned VNone, with_fs w fs').
Proof.
  intros Hb Hk Hw.
  change (perform (S fuel) FakeAWS.get_dispatcher
            (DownloadS3Key source_bucket source_key target_path) w)
    with (FakeAWS._perform_download_s3_key (perform fuel FakeAWS.get_dispatcher)
            (DownloadS3Key source_bucket source_key target_path) w).
  unfold FakeAWS._perform_download_s3_key, FakeAWS.bucket_dict,
    bind, get_fake, get_fs, dict_get, or_raise.
  rewrite Hb. simpl. rewrite Hk. simpl.
  rewrite (set_content_written _ _ _ _ Hw). reflexivity.
Qed.

(** C7: an upload of a readable local file into an existing fake bucket,
    followed by a download of the key it was stored under to a writable
    path, both return, and the downloaded file then reads as exactly the
    content of the source file, whatever that content is. *)
Theorem fake_upload_download_roundtrip fuel w source_path target_bucket target_key
    file target_path content :
  is_Some (s3_buckets (fake w) !! target_bucket) ->
  fs_read (local_fs w) file = Some content ->
  fs_writable (local_fs w) target_path = true ->
  exists w1 w2,
    perform (S fuel) FakeAWS.get_dispatcher
      (UploadToS3 source_path target_bucket target_key file) w
    = (Returned VNone, w1)
    /\ perform (S fuel) FakeAWS.get_dispatcher
         (DownloadS3Key target_bucket (upload_key source_path target_key file) target_path) w1
       = (Returned VNone, w2)
    /\ fs_read (local_fs w2) target_path = Some content.
Proof.
  intros [bucket Hb] Hr Hw.
  destruct (fs_writable_write _ _ content Hw) as [fs' Hfs'].
  eexists. eexists. split; [|split].
  - apply (fake_upload_stores fuel w _ _ _ _ bucket content Hb Hr).
  - eapply fake_download_writes.
    + apply with_fake_bucket_lookup.
    + apply lookup_insert_eq.
    + exact Hfs'.
  - simpl. eapply read_after_write, Hfs'.
Qed.

Lemma fake_upload_download_roundtrip_witness :
  exists w1 w2,
    perform 1 FakeAWS.get_dispatcher
      (UploadToS3 ["src"] "docs" "release" ["src"; "empty"]) sample_world
    = (Returned VNone, w1)
    /\ perform 1 FakeAWS.get_dispatcher
         (DownloadS3Key "docs" (upload_key ["src"] "release" ["src"; "empty"])
            ["out"; "copy"]) w1
       = (Returned VNone, w2)
    /\ fs_read (local_fs w2) ["out"; "copy"] = Some "".
Proof.
  apply (fake_upload_download_roundtrip 0 sample_world ["src"] "docs" "release"
           ["src"; "empty"] ["out"; "copy"] "").
  - eexists. reflexivity.
  - reflexivity.
  - reflexivity.
Defined.

(** X20: the same round trip against boto: the download opens the target
    for writing and then streams the key into it. *)
Lemma boto_upload_download_roundtrip fuel w source_path target_bucket target_key
    file target_path content :
  is_Some (s3 (aws w) !! target_bucket) ->
  fs_read (local_fs w) file = Some content ->
  fs_writable (local_fs w) target_path = true ->
  exists w1 w2,
    perform (S fuel) boto_dispatcher
      (UploadToS3 source_path target_bucket target_key file) w
    = (Returned VNone, w1)
    /\ perform (S fuel) boto_dispatcher
         (DownloadS3Key target_bucket (upload_key source_path target_key file) target_path) w1
       = (Returned VNone, w2)
    /\ fs_read (local_fs w2) target_path = Some content.
Proof.
  intros [bucket Hb] Hr Hw.
  destruct (fs_writable_write _ _ "" Hw) as [opened Hopened].
  destruct (write_after_write _ _ content _ _ Hopened) as [written Hwritten].
  eexists. eexists. split; [|split].
  - change (perform (S fuel) boto_dispatcher
              (UploadToS3 source_path target_bucket target_key file) w)
      with (perform_upload_s3_key (perform fuel boto_dispatcher)
              (UploadToS3 source_path target_bucket target_key file) w).
    unfold perform_upload_s3_key, s3_get_bucket, s3_put_bucket, bind, get_aws, get_fs,
      or_raise.
    rewrite Hb. simpl. rewrite Hr. reflexivity.
  - match goal with
    | |- perform _ _ ?i ?w1 = ?result =>
        change (perform_download_s3_key (perform fuel boto_dispatcher) i w1 = result)
    end.
    unfold perform_download_s3_key, s3_get_bucket, bind, get_aws, get_fs, or_raise.
    simpl. rewrite lookup_insert_eq. simpl. rewrite lookup_insert_eq.
    rewrite Hopened. simpl. rewrite Hwritten. reflexivity.
  - simpl. eapply read_after_write, Hwritten.
Qed.

(** ** Walking a tree *)

Lemma walk_node_extends n : forall p q, q ∈ walk_node p n -> exists rel, q = p ++ rel.
Proof.
  induction n as [content | entries IH] using Node_ind; intros p q Hq; simpl in Hq.
  - apply list_elem_of_singleton in Hq. subst q. exists []. now rewrite app_nil_r.
  - apply elem_of_cons in Hq as [-> | Hq]; [exists []; now rewrite app_nil_r|].
    induction IH as [|[name c] es Hc _ IHes]; [inversion Hq|].
    apply elem_of_app in Hq as [Hq | Hq].
    + destruct (Hc _ _ Hq) as [rel ->]. exists (name :: rel). now rewrite <- app_assoc.
    + apply IHes, Hq.
Qed.

Lemma fs_walk_extends fs p q : q ∈ fs_walk fs p -> exists rel, q = p ++ rel.
Proof.
  unfold fs_walk. destruct (lookup_node p fs) as [n|].
  - apply walk_node_extends.
  - intros Hq. apply list_elem_of_singleton in Hq. subst q. exists []. now rewrite app_nil_r.
Qed.

(** ** Paths as strings *)

Lemma append_assoc a b c : (a +:+ b) +:+ c = a +:+ (b +:+ c).
Proof.
  induction a as [|x a IH]; [reflexivity|].
  rewrite !append_String. now rewrite IH.
Qed.

Lemma joined_app a b : joined (a ++ b) = joined a +:+ joined b.
Proof.
  induction a as [|s a IH]; [reflexivity|].
  simpl. rewrite IH. rewrite append_String, append_empty, !append_String, append_empty.
  f_equal. now rewrite append_assoc.
Qed.

Lemma append_empty_r a : a +:+ "" = a.
Proof.
  induction a as [|x a IH]; [reflexivity|].
  rewrite append_String. now rewrite IH.
Qed.

Lemma joined_slash rel : rel <> [] -> joined rel = "/" +:+ slash_joined rel.
Proof.
  induction rel as [|s rel IH]; intros H; [congruence|].
  destruct rel as [|s' rel].
  - simpl. now rewrite append_empty_r.
  - change (joined (s :: s' :: rel)) with ("/" +:+ s +:+ joined (s' :: rel)).
    change (slash_joined (s :: s' :: rel)) with (s +:+ "/" +:+ slash_joined (s' :: rel)).
    now rewrite IH.
Qed.

Lemma relative_to_app source_path rel :
  relative_to source_path (source_path ++ rel) = slash_joined rel.
Proof. unfold relative_to. now rewrite drop_app_length. Qed.

Lemma upload_key_below source_path target_key rel :
  source_path <> [] ->
  upload_key source_path target_key (source_path ++ rel) = target_key +:+ joined rel.
Proof.
  intros Hsp. unfold upload_key. f_equal.
  destruct source_path as [|s sp]; [congruence|].
  change (path_of (s :: sp)) with (joined (s :: sp)).
  change (path_of ((s :: sp) ++ rel)) with (joined ((s :: sp) ++ rel)).
  rewrite joined_app. apply str_drop_app.
Qed.

Lemma upload_key_below_root target_key rel :
  upload_key [] target_key rel = target_key +:+ slash_joined rel.
Proof.
  unfold upload_key. f_equal.
  destruct rel as [|s rel]; [reflexivity|].
  change (path_of (s :: rel)) with (joined (s :: rel)).
  rewrite joined_slash by congruence. reflexivity.
Qed.

(** ** Recursive upload *)

Lemma bind_ret {A B} (a : A) (k : A -> M B) w : bind (ret a) k w = k a w.
Proof. reflexivity. Qed.

Lemma bind_get_fs {B} (k : Node -> M B) w : bind get_fs k w = k (local_fs w) w.
Proof. reflexivity. Qed.

Lemma bind_cong_l {A B} (m1 m2 : M A) (k : A -> M B) w :
  m1 w = m2 w -> bind m1 k w = bind m2 k w.
Proof. intros H. unfold bind. now rewrite H. Qed.

Lemma for_each_cons {A} (x : A) xs (body : A -> M unit) w :
  for_each (x :: xs) body w = bind (body x) (fun _ => for_each xs body) w.
Proof. reflexivity. Qed.

Lemma bind_ext_run {A B} (m : M A) (k1 k2 : A -> M B) w :
  (forall a w', m w = (Returned a, w') -> k1 a w' = k2 a w') ->
  bind m k1 w = bind m k2 w.
Proof.
  intros H. unfold bind. destruct (m w) as [[a| |] w']; auto.
Qed.

Lemma upload_loop_skips (dispatcher : Dispatch) source_path target_bucket target_key files fs0 :
  (forall p w, local_fs (snd (dispatcher
                 (UploadToS3 source_path target_bucket target_key p) w)) = local_fs w) ->
  forall paths w,
    local_fs w = fs0 ->
    for_each paths (fun path =>
        if bool_decide (basename path ∈ files) then
          let* fs := get_fs in
          if fs_isfile fs path then
            dispatcher (UploadToS3 source_path target_bucket target_key path) ;;;
            ret tt
          else ret tt
        else ret tt) w
    = for_each (List.filter (wanted_file fs0 files) paths) (fun path =>
        dispatcher (UploadToS3 source_path target_bucket target_key path) ;;; ret tt) w.
Proof.
  intros Hfs. induction paths as [|p paths IH]; intros w Hw; [reflexivity|].
  simpl. unfold wanted_file at 1.
  destruct (bool_decide (basename p ∈ files)); simpl.
  - rewrite bind_assoc, bind_get_fs, Hw.
    destruct (fs_isfile fs0 p); simpl.
    + apply bind_ext_run. intros [] w' E. apply IH.
      rewrite <- Hw, <- (Hfs p w).
      unfold bind, ret in E.
      destruct (dispatcher (UploadToS3 source_path target_bucket target_key p) w)
        as [[v| |] w'']; simpl; congruence.
    + rewrite bind_ret. now apply IH.
  - rewrite bind_ret. now apply IH.
Qed.

Lemma upload_generator_as_upload_each (dispatcher : Dispatch) w
    source_path target_bucket target_key files :
  (forall p w', local_fs (snd (dispatcher
                  (UploadToS3 source_path target_bucket target_key p) w')) = local_fs w') ->
  upload_s3_key_recursively_generator dispatcher source_path target_bucket target_key
    files w
  = upload_each dispatcher source_path target_bucket target_key
      (uploads_of (local_fs w) source_path files) w.
Proof.
  intros Hfs. unfold upload_s3_key_recursively_generator, upload_each, uploads_of.
  rewrite bind_get_fs. unfold bind at 1. unfold bind at 3.
  now rewrite (upload_loop_skips dispatcher source_path target_bucket target_key files
                 (local_fs w) Hfs (fs_walk (local_fs w) source_path) w eq_refl).
Qed.

Lemma isfile_read fs p : fs_isfile fs p = true -> exists c, fs_read fs p = Some c.
Proof.
  unfold fs_isfile, fs_read. destruct (lookup_node p fs) as [[c|]|]; try discriminate.
  intros _. now exists c.
Qed.

Lemma fake_upload_loop fuel source_path target_bucket target_key fs :
  forall paths w bucket,
    local_fs w = fs ->
    s3_buckets (fake w) !! target_bucket = Some bucket ->
    Forall (fun p => fs_isfile fs p = true) paths ->
    for_each paths (fun path =>
        perform (S fuel) FakeAWS.get_dispatcher
          (UploadToS3 source_path target_bucket target_key path) ;;; ret tt) w
    = (Returned tt,
       with_fake_bucket w target_bucket (uploaded fs source_path target_key paths bucket)).
Proof.
  induction paths as [|p paths IH]; intros w bucket Hw Hb Hall.
  - simpl. unfold ret. now rewrite with_fake_bucket_id.
  - apply Forall_cons in Hall as [Hp Hall].
    destruct (isfile_read _ _ Hp) as [c Hc].
    rewrite for_each_cons, bind_assoc.
    rewrite (bind_returned _ _ _ _ _
               (fake_upload_stores fuel w source_path target_bucket target_key p bucket c
                  Hb ltac:(now rewrite Hw))).
    rewrite bind_ret.
    rewrite (IH _ (<[upload_key source_path target_key p := c]> bucket)).
    + rewrite with_fake_bucket_twice. unfold uploaded. simpl. now rewrite Hc.
    + exact Hw.
    + apply with_fake_bucket_lookup.
    + exact Hall.
Qed.

Lemma fake_upload_keeps_fs fuel source_path target_bucket target_key p w :
  local_fs (snd (perform (S fuel) FakeAWS.get_dispatcher
                   (UploadToS3 source_path target_bucket target_key p) w)) = local_fs w.
Proof.
  change (perform (S fuel) FakeAWS.get_dispatcher
            (UploadToS3 source_path target_bucket target_key p) w)
    with (FakeAWS._perform_upload_s3_key (perform fuel FakeAWS.get_dispatcher)
            (UploadToS3 source_path target_bucket target_key p) w).
  unfold FakeAWS._perform_upload_s3_key, FakeAWS.bucket_dict, FakeAWS.mutate_bucket,
    bind, get_fake, get_fs, set_fake, dict_get, or_raise, ret, raise.
  destruct (s3_buckets (fake w) !! target_bucket) eqn:Hb; simpl; [|reflexivity].
  destruct (fs_read (local_fs w) p); simpl; [|reflexivity].
  now rewrite Hb.
Qed.

Lemma uploads_of_wanted fs source_path files p :
  p ∈ uploads_of fs source_path files <->
  p ∈ fs_walk fs source_path /\ basename p ∈ files /\ fs_isfile fs p = true.
Proof.
  unfold uploads_of. rewrite list_elem_of_In, List.filter_In, <- list_elem_of_In.
  unfold wanted_file. rewrite andb_true_iff, bool_decide_eq_true. tauto.
Qed.

Lemma with_s3_keys_id w name bucket :
  s3 (aws w) !! name = Some bucket -> with_s3_keys w name bucket (bucket_keys bucket) = w.
Proof.
  intros H. unfold with_s3_keys.
  replace {| website_configuration := website_configuration bucket;
             bucket_keys := bucket_keys bucket |} with bucket by now destruct bucket.
  rewrite (insert_id _ _ _ H). destruct w as [fs [] fk]; reflexivity.
Qed.

Lemma with_s3_keys_twice w name bucket keys1 keys2 :
  with_s3_keys (with_s3_keys w name bucket keys1) name
    {| website_configuration := website_configuration bucket; bucket_keys := keys1 |} keys2
  = with_s3_keys w name bucket keys2.
Proof. unfold with_s3_keys. simpl. now rewrite insert_insert_eq. Qed.

Lemma boto_upload_stores fuel w source_path target_bucket target_key file bucket content :
  s3 (aws w) !! target_bucket = Some bucket ->
  fs_read (local_fs w) file = Some content ->
  perform (S fuel) boto_dispatcher
    (UploadToS3 source_path target_bucket target_key file) w
  = (Returned VNone,
     with_s3_keys w target_bucket bucket
       (<[upload_key source_path target_key file :=
            {| key_contents := content; key_public := true |}]> (bucket_keys bucket))).
Proof.
  intros Hb Hr.
  change (perform (S fuel) boto_dispatcher
            (UploadToS3 source_path target_bucket target_key file) w)
    with (perform_upload_s3_key (perform fuel boto_dispatcher)
            (UploadToS3 source_path target_bucket target_key file) w).
  unfold perform_upload_s3_key, s3_get_bucket, s3_put_bucket, bind, get_aws, get_fs, or_raise.
  rewrite Hb. simpl. rewrite Hr. reflexivity.
Qed.

Lemma boto_upload_keeps_fs fuel source_path target_bucket target_key p w :
  local_fs (snd (perform (S fuel) boto_dispatcher
                   (UploadToS3 source_path target_bucket target_key p) w)) = local_fs w.
Proof.
  change (perform (S fuel) boto_dispatcher
            (UploadToS3 source_path target_bucket target_key p) w)
    with (perform_upload_s3_key (perform fuel boto_dispatcher)
            (UploadToS3 source_path target_bucket target_key p) w).
  unfold perform_upload_s3_key, s3_get_bucket, s3_put_bucket,
    bind, get_aws, set_aws, get_fs, or_raise, ret, raise.
  destruct (s3 (aws w) !! target_bucket) eqn:Hb; simpl; [|reflexivity].
  destruct (fs_read (local_fs w) p); reflexivity.
Qed.

Lemma boto_upload_loop fuel source_path target_bucket target_key fs :
  forall paths w bucket,
    local_fs w = fs ->
    s3 (aws w) !! target_bucket = Some bucket ->
    Forall (fun p => fs_isfile fs p = true) paths ->
    for_each paths (fun path =>
        perform (S fuel) boto_dispatcher
          (UploadToS3 source_path target_bucket target_key path) ;;; ret tt) w
    = (Returned tt,
       with_s3_keys w target_bucket bucket
         (boto_uploaded fs source_path target_key paths (bucket_keys bucket))).
Proof.
  induction paths as [|p paths IH]; intros w bucket Hw Hb Hall.
  - simpl. unfold ret. now rewrite with_s3_keys_id.
  - apply Forall_cons in Hall as [Hp Hall].
    destruct (isfile_read _ _ Hp) as [c Hc].
    rewrite for_each_cons, bind_assoc.
    rewrite (bind_returned _ _ _ _ _
               (boto_upload_stores fuel w source_path target_bucket target_key p bucket c
                  Hb ltac:(now rewrite Hw))).
    rewrite bind_ret.
    rewrite (IH _ {| website_configuration := website_configuration bucket;
                     bucket_keys :=
                       <[upload_key source_path target_key p :=
                           {| key_contents := c; key_public := true |}]>
                         (bucket_keys bucket) |}).
    + simpl. rewrite with_s3_keys_twice. unfold boto_uploaded. simpl. now rewrite Hc.
    + exact Hw.
    + simpl. apply lookup_insert_eq.
    + exact Hall.
Qed.

Lemma uploads_are_files fs source_path files :
  Forall (fun p => fs_isfile fs p = true) (uploads_of fs source_path files).
Proof.
  apply Forall_forall. intros p Hp. now apply uploads_of_wanted in Hp as (_ & _ & H).
Qed.

Lemma uploaded_other_key fs source_path target_key paths : forall bucket key,
  (forall q, q ∈ paths -> upload_key source_path target_key q <> key) ->
  uploaded fs source_path target_key paths bucket !! key = bucket !! key.
Proof.
  unfold uploaded. induction paths as [|p paths IH]; intros bucket key Hne; [reflexivity|].
  simpl. rewrite IH.
  - apply lookup_insert_ne, Hne, elem_of_cons. now left.
  - intros q Hq. apply Hne, elem_of_cons. now right.
Qed.

(** After the uploads the key of every uploaded file is in the bucket,
    with the content of the file uploaded last under that key. *)
Lemma uploaded_key_present fs source_path target_key paths : forall bucket p,
  p ∈ paths ->
  Forall (fun p => fs_isfile fs p = true) paths ->
  exists q, q ∈ paths
    /\ upload_key source_path target_key q = upload_key source_path target_key p
    /\ is_Some (fs_read fs q)
    /\ uploaded fs source_path target_key paths bucket
         !! upload_key source_path target_key p = fs_read fs q.
Proof.
  induction paths as [|x paths IH]; intros bucket p Hp Hall; [inversion Hp|].
  apply Forall_cons in Hall as [Hx Hall].
  destruct (decide (Exists (fun q => upload_key source_path target_key q
                                     = upload_key source_path target_key p) paths))
    as [Hlater | Hnone].
  - apply Exists_exists in Hlater as (q' & Hq' & Hkey).
    assert (Hkeys : upload_key source_path target_key p
                    = upload_key source_path target_key q') by now symmetry.
    destruct (IH (<[upload_key source_path target_key x :=
                      default "" (fs_read fs x)]> bucket) q' Hq' Hall)
      as (q & Hq & Hqk & Hsome & Hlook).
    exists q. split; [apply elem_of_cons; now right|].
    split; [congruence|]. split; [exact Hsome|].
    unfold uploaded in *. simpl. now rewrite Hkeys.
  - assert (Hkey : upload_key source_path target_key x
                   = upload_key source_path target_key p).
    { apply elem_of_cons in Hp as [-> | Hp]; [reflexivity|].
      exfalso. apply Hnone, Exists_exists. now exists p. }
    destruct (isfile_read _ _ Hx) as [c Hc].
    exists x. split; [apply elem_of_cons; now left|].
    split; [exact Hkey|]. split; [now rewrite Hc|].
    change (uploaded fs source_path target_key (x :: paths) bucket)
      with (uploaded fs source_path target_key paths
              (<[upload_key source_path target_key x :=
                   default "" (fs_read fs x)]> bucket)).
    rewrite uploaded_other_key.
    + rewrite <- Hkey, lookup_insert_eq. now rewrite Hc.
    + intros q Hq Heq. apply Hnone, Exists_exists. now exists q.
Qed.

Lemma fake_base_upload_keeps_fs order fuel source_path target_bucket target_key p w :
  local_fs (snd (perform (S fuel) (fake_with_base order)
                   (UploadToS3 source_path target_bucket target_key p) w))
  = local_fs w.
Proof. exact (fake_upload_keeps_fs fuel source_path target_bucket target_key p w). Qed.

Lemma boto_base_upload_keeps_fs order fuel source_path target_bucket target_key p w :
  local_fs (snd (perform (S fuel) (boto_with_base order)
                   (UploadToS3 source_path target_bucket target_key p) w))
  = local_fs w.
Proof. exact (boto_upload_keeps_fs fuel source_path target_bucket target_key p w). Qed.

Lemma fake_base_upload_recursively order fuel w source_path target_bucket target_key files :
  perform (S (S (S fuel))) (fake_with_base order)
    (UploadToS3Recursively source_path target_bucket target_key files) w
  = upload_each (perform (S fuel) (fake_with_base order)) source_path target_bucket
      target_key (uploads_of (local_fs w) source_path files) w.
Proof.
  change (perform (S (S (S fuel))) (fake_with_base order)
            (UploadToS3Recursively source_path target_bucket target_key files) w)
    with (upload_s3_key_recursively_generator (perform (S fuel) (fake_with_base order))
            source_path target_bucket target_key files w).
  apply upload_generator_as_upload_each. intros p w'. apply fake_base_upload_keeps_fs.
Qed.

Lemma boto_base_upload_recursively order fuel w source_path target_bucket target_key files :
  perform (S (S (S fuel))) (boto_with_base order)
    (UploadToS3Recursively source_path target_bucket target_key files) w
  = upload_each (perform (S fuel) (boto_with_base order)) source_path target_bucket
      target_key (uploads_of (local_fs w) source_path files) w.
Proof.
  change (perform (S (S (S fuel))) (boto_with_base order)
            (UploadToS3Recursively source_path target_bucket target_key files) w)
    with (upload_s3_key_recursively_generator (perform (S fuel) (boto_with_base order))
            source_path target_bucket target_key files w).
  apply upload_generator_as_upload_each. intros p w'. apply boto_base_upload_keeps_fs.
Qed.

Lemma fake_base_upload_recursively_result order fuel w source_path target_bucket target_key
    files bucket :
  s3_buckets (fake w) !! target_bucket = Some bucket ->
  perform (S (S (S fuel))) (fake_with_base order)
    (UploadToS3Recursively source_path target_bucket target_key files) w
  = (Returned VNone,
     with_fake_bucket w target_bucket
       (uploaded (local_fs w) source_path target_key
          (uploads_of (local_fs w) source_path files) bucket)).
Proof.
  intros Hb. rewrite fake_base_upload_recursively. unfold upload_each.
  change (fun path : FilePath =>
            perform (S fuel) (fake_with_base order)
              (UploadToS3 source_path target_bucket target_key path) ;;; ret tt)
    with (fun path : FilePath =>
            perform (S fuel) FakeAWS.get_dispatcher
              (UploadToS3 source_path target_bucket target_key path) ;;; ret tt).
  now rewrite (bind_returned _ _ _ _ _
                 (fake_upload_loop fuel source_path target_bucket target_key (local_fs w)
                    _ w bucket eq_refl Hb (uploads_are_files _ _ _))).
Qed.

Lemma boto_base_upload_recursively_result order fuel w source_path target_bucket target_key
    files bucket :
  s3 (aws w) !! target_bucket = Some bucket ->
  perform (S (S (S fuel))) (boto_with_base order)
    (UploadToS3Recursively source_path target_bucket target_key files) w
  = (Returned VNone,
     with_s3_keys w target_bucket bucket
       (boto_uploaded (local_fs w) source_path target_key
          (uploads_of (local_fs w) source_path files) (bucket_keys bucket))).
Proof.
  intros Hb. rewrite boto_base_upload_recursively. unfold upload_each.
  change (fun path : FilePath =>
            perform (S fuel) (boto_with_base order)
              (UploadToS3 source_path target_bucket target_key path) ;;; ret tt)
    with (fun path : FilePath =>
            perform (S fuel) boto_dispatcher
              (UploadToS3 source_path target_bucket target_key path) ;;; ret tt).
  now rewrite (bind_returned _ _ _ _ _
                 (boto_upload_loop fuel source_path target_bucket target_key (local_fs w)
                    _ w bucket eq_refl Hb (uploads_are_files _ _ _))).
Qed.

(** C8, as worded: each uploaded file is stored at [target_key] followed
    by the file's path relative to [source_path].  It is not: the slice
    [file.path[len(source_path.path):]] keeps the separator in front of
    the relative path, so [src/a.txt] uploaded from [src] with target key
    [up] is stored at [up/a.txt] and nothing is stored at [upa.txt]. *)
Lemma upload_key_is_not_target_key_plus_relative_path :
  ~ (forall w source_path target_bucket target_key files p bucket,
       s3_buckets (fake w) !! target_bucket = Some bucket ->
       p ∈ uploads_of (local_fs w) source_path files ->
       exists w' bucket',
         perform 3 (fake_with_base elements)
           (UploadToS3Recursively source_path target_bucket target_key files) w
         = (Returned VNone, w')
         /\ s3_buckets (fake w') !! target_bucket = Some bucket'
         /\ bucket' !! (target_key +:+ relative_to source_path p)
            = fs_read (local_fs w) p).
Proof.
  intros H.
  assert (Hp : ["src"; "a.txt"] ∈ uploads_of (local_fs sample_world) ["src"] ["a.txt"]).
  { vm_compute. apply elem_of_cons. now left. }
  destruct (H sample_world ["src"] "docs" "up" ["a.txt"] ["src"; "a.txt"] _ eq_refl Hp)
    as (w' & bucket' & Hrun & Hb & Hkey).
  rewrite (fake_base_upload_recursively_result elements 0 sample_world
             ["src"] "docs" "up" ["a.txt"] _ eq_refl) in Hrun.
  injection Hrun as <-.
  unfold with_fake_bucket in Hb. simpl in Hb.
  rewrite lookup_insert_eq in Hb. injection Hb as <-.
  vm_compute in Hkey. discriminate.
Qed.

(** C8, amended: performing [UploadToS3Recursively] dispatches an
    [UploadToS3] for exactly the walked paths that are regular files with
    a base name in [files], in walk order, and nothing for directories and
    other files.  Each such file is stored at
    [target_key + file.path[len(source_path.path):]]: the target key, then
    a separator and the file's path relative to [source_path] (no
    separator is added when [source_path] is the root, and nothing but the
    target key is left when [source_path] is itself the file).  Against
    the fake and against S3, each composed with the base dispatcher, the
    dispatch returns [None] with those keys stored. *)
Theorem upload_recursively_uploads_wanted_files order fuel w
    source_path target_bucket target_key files :
  let intent := UploadToS3Recursively source_path target_bucket target_key files in
  let uploads := uploads_of (local_fs w) source_path files in
  (forall dispatcher : Dispatch,
     (forall p w', local_fs (snd (dispatcher
                     (UploadToS3 source_path target_bucket target_key p) w'))
                   = local_fs w') ->
     upload_s3_key_recursively_generator dispatcher source_path target_bucket target_key
       files w
     = upload_each dispatcher source_path target_bucket target_key uploads w)
  /\ (forall p, p ∈ uploads <->
                p ∈ fs_walk (local_fs w) source_path
                /\ basename p ∈ files
                /\ fs_isfile (local_fs w) p = true)
  /\ (forall p, p ∈ uploads ->
        exists rel,
          p = source_path ++ rel
          /\ relative_to source_path p = slash_joined rel
          /\ (rel = [] -> upload_key source_path target_key p = target_key)
          /\ (rel <> [] -> source_path <> [] ->
              upload_key source_path target_key p
              = target_key +:+ "/" +:+ relative_to source_path p)
          /\ (source_path = [] ->
              upload_key source_path target_key p
              = target_key +:+ relative_to source_path p))
  /\ perform (S (S (S fuel))) (fake_with_base order) intent w
     = upload_each (perform (S fuel) (fake_with_base order)) source_path target_bucket
         target_key uploads w
  /\ perform (S (S (S fuel))) (boto_with_base order) intent w
     = upload_each (perform (S fuel) (boto_with_base order)) source_path target_bucket
         target_key uploads w
  /\ (forall bucket,
        s3_buckets (fake w) !! target_bucket = Some bucket ->
        perform (S (S (S fuel))) (fake_with_base order) intent w
        = (Returned VNone,
           with_fake_bucket w target_bucket
             (uploaded (local_fs w) source_path target_key uploads bucket)))
  /\ (forall bucket,
        s3 (aws w) !! target_bucket = Some bucket ->
        perform (S (S (S fuel))) (boto_with_base order) intent w
        = (Returned VNone,
           with_s3_keys w target_bucket bucket
             (boto_uploaded (local_fs w) source_path target_key uploads
                (bucket_keys bucket))))
  /\ (forall bucket p,
        p ∈ uploads ->
        exists q,
          q ∈ uploads
          /\ upload_key source_path target_key q = upload_key source_path target_key p
          /\ is_Some (fs_read (local_fs w) q)
          /\ uploaded (local_fs w) source_path target_key uploads bucket
               !! upload_key source_path target_key p
             = fs_read (local_fs w) q).
Proof.
  intros intent uploads.
  split; [|split; [|split; [|split; [|split; [|split; [|split]]]]]].
  - intros dispatcher Hfs. now apply upload_generator_as_upload_each.
  - intros p. apply uploads_of_wanted.
  - intros p Hp. apply uploads_of_wanted in Hp as (Hwalk & _ & _).
    destruct (fs_walk_extends _ _ _ Hwalk) as [rel ->].
    exists rel. rewrite relative_to_app.
    split; [reflexivity|]. split; [reflexivity|]. split; [|split].
    + intros ->. rewrite app_nil_r. destruct source_path as [|s sp].
      * rewrite upload_key_below_root. apply append_empty_r.
      * rewrite <- (app_nil_r (s :: sp)) at 2.
        rewrite upload_key_below by congruence. apply append_empty_r.
    + intros Hrel Hsp. rewrite upload_key_below by assumption.
      now rewrite joined_slash.
    + intros ->. apply upload_key_below_root.
  - apply fake_base_upload_recursively.
  - apply boto_base_upload_recursively.
  - intros bucket Hb. now apply fake_base_upload_recursively_result.
  - intros bucket Hb. now apply boto_base_upload_recursively_result.
  - intros bucket p Hp.
    exact (uploaded_key_present _ _ _ _ bucket p Hp (uploads_are_files _ _ _)).
Qed.

Lemma upload_recursively_uploads_wanted_files_witness :
  perform 3 (fake_with_base elements)
    (UploadToS3Recursively ["src"] "docs" "up" ["a.txt"; "c.log"; "sub"]) sample_world
  = (Returned VNone,
     with_fake_bucket sample_world "docs"
       (<["up/sub/c.log" := "gamma"]>
          (<["up/a.txt" := "alpha"]>
             ({[ "docs/docs/index.html" := "<html>";
                 "docs/x.json" := "{}";
                 "foo/x.json" := "{1}";
                 "foo/y.txt" := "why";
                 "foo/deep/z.json" := "{2}" ]} : gmap string string)))).
Proof.
  destruct (upload_recursively_uploads_wanted_files elements 0 sample_world
              ["src"] "docs" "up" ["a.txt"; "c.log"; "sub"])
    as (_ & _ & _ & _ & _ & Hfake & _ & _).
  exact (Hfake _ eq_refl).
Defined.

(** ** Recursive download *)

Lemma for_each_ext {A} (xs : list A) (body1 body2 : A -> M unit) :
  (forall x w, body1 x w = body2 x w) ->
  forall w, for_each xs body1 w = for_each xs body2 w.
Proof.
  intros H. induction xs as [|x xs IH]; intros w; [reflexivity|].
  rewrite !for_each_cons. unfold bind. rewrite H.
  destruct (body2 x w) as [[[]| |] w']; auto.
Qed.

Lemma for_each_continue {A} (test : A -> bool) (body : A -> M unit) (xs : list A) :
  forall w,
    for_each xs (fun x => if negb (test x) then ret tt else body x) w
    = for_each (List.filter test xs) body w.
Proof.
  induction xs as [|x xs IH]; intros w; [reflexivity|].
  rewrite for_each_cons. simpl. destruct (test x); simpl.
  - apply bind_ext. intros _ w'. apply IH.
  - rewrite bind_ret. apply IH.
Qed.

Lemma download_generator_as_download_listed order (dispatcher : Dispatch) w
    source_bucket source_prefix target_path filter_extensions :
  download_s3_key_recursively_generator order dispatcher source_bucket source_prefix
    target_path filter_extensions w
  = download_listed order dispatcher source_bucket source_prefix target_path
      filter_extensions w.
Proof.
  unfold download_s3_key_recursively_generator, download_listed, download_each.
  apply bind_ext. intros listed w1. apply bind_ext. intros keys w2.
  apply bind_cong_l.
  rewrite <- (for_each_continue (fun key => endswith key filter_extensions)).
  apply for_each_ext.
  intros key w3. destruct (endswith key filter_extensions); simpl; [|reflexivity].
  apply bind_ext. intros path w4. unfold ensure_parent.
  rewrite !bind_assoc. apply bind_ext. intros fs w5.
  destruct (fs_exists fs (parent path)); reflexivity.
Qed.

Lemma fake_base_download_recursively order fuel w
    source_bucket source_prefix target_path filter_extensions :
  perform (S (S (S fuel))) (fake_with_base order)
    (DownloadS3KeyRecursively source_bucket source_prefix target_path filter_extensions) w
  = download_listed order (perform (S fuel) (fake_with_base order))
      source_bucket source_prefix target_path filter_extensions w.
Proof.
  change (perform (S (S (S fuel))) (fake_with_base order)
            (DownloadS3KeyRecursively source_bucket source_prefix target_path
               filter_extensions) w)
    with (download_s3_key_recursively_generator order
            (perform (S fuel) (fake_with_base order))
            source_bucket source_prefix target_path filter_extensions w).
  apply download_generator_as_download_listed.
Qed.

Lemma boto_base_download_recursively order fuel w
    source_bucket source_prefix target_path filter_extensions :
  perform (S (S (S fuel))) (boto_with_base order)
    (DownloadS3KeyRecursively source_bucket source_prefix target_path filter_extensions) w
  = download_listed order (perform (S fuel) (boto_with_base order))
      source_bucket source_prefix target_path filter_extensions w.
Proof.
  change (perform (S (S (S fuel))) (boto_with_base order)
            (DownloadS3KeyRecursively source_bucket source_prefix target_path
               filter_extensions) w)
    with (download_s3_key_recursively_generator order
            (perform (S fuel) (boto_with_base order))
            source_bucket source_prefix target_path filter_extensions w).
  apply download_generator_as_download_listed.
Qed.

Lemma filter_permutation {A} (test : A -> bool) (xs ys : list A) :
  xs ≡ₚ ys -> List.filter test xs ≡ₚ List.filter test ys.
Proof.
  induction 1 as [|x xs ys _ IH|x y xs|xs ys zs _ IH1 _ IH2]; simpl.
  - reflexivity.
  - destruct (test x); [now constructor | assumption].
  - destruct (test x), (test y); try reflexivity. apply perm_swap.
  - now transitivity (List.filter test ys).
Qed.

Lemma elem_of_filter_order order (test : string -> bool) (names : gset string) key :
  iteration_order order ->
  key ∈ List.filter test (order names) <-> key ∈ names /\ test key = true.
Proof.
  intros Horder.
  rewrite (filter_permutation test _ _ (Horder names)).
  rewrite list_elem_of_In, filter_In, <- list_elem_of_In, elem_of_elements.
  reflexivity.
Qed.

Lemma lookup_fresh_dirs p : exists n, lookup_node p (fresh_dirs p) = Some n.
Proof.
  induction p as [|s rest IH]; simpl; [eexists; reflexivity|].
  now rewrite String.eqb_refl.
Qed.

Lemma exists_after_makedirs p : forall n n',
  fs_makedirs p n = Some n' -> fs_exists n' p = true.
Proof.
  unfold fs_exists.
  induction p as [|s rest IH]; intros n n' H; simpl in H; [discriminate|].
  destruct n as [|es]; [discriminate|].
  destruct (entry_lookup s es) as [child|] eqn:E.
  - destruct (fs_makedirs rest child) as [child'|] eqn:W; [|discriminate].
    injection H as <-. simpl. rewrite entry_lookup_set. eapply IH, W.
  - injection H as <-. simpl. rewrite entry_lookup_set.
    destruct (lookup_fresh_dirs rest) as [x ->]. reflexivity.
Qed.

Lemma ensure_parent_exists path w w' :
  ensure_parent path w = (Returned tt, w') ->
  fs_exists (local_fs w') (parent path) = true
  /\ aws w' = aws w /\ fake w' = fake w.
Proof.
  unfold ensure_parent. rewrite bind_get_fs.
  destruct (fs_exists (local_fs w) (parent path)) eqn:E.
  - intros H. injection H as <-. auto.
  - unfold bind, or_raise.
    destruct (fs_makedirs (parent path) (local_fs w)) as [fs'|] eqn:Hm; [|discriminate].
    simpl. intros H. injection H as <-. simpl.
    split; [|auto]. eapply exists_after_makedirs, Hm.
Qed.

Lemma fake_list_keys fuel w bucket_name prefix bucket :
  s3_buckets (fake w) !! bucket_name = Some bucket ->
  perform (S fuel) FakeAWS.get_dispatcher (ListS3Keys bucket_name prefix) w
  = (Returned (VSet (stripped_names bucket prefix)), w).
Proof.
  intros Hb.
  change (perform (S fuel) FakeAWS.get_dispatcher (ListS3Keys bucket_name prefix) w)
    with (FakeAWS._perform_list_s3_keys (perform fuel FakeAWS.get_dispatcher)
            (ListS3Keys bucket_name prefix) w).
  unfold FakeAWS._perform_list_s3_keys, FakeAWS.bucket_dict, bind, get_fake,
    dict_get, or_raise.
  now rewrite Hb.
Qed.

Lemma filter_none {A} (test : A -> bool) (xs : list A) :
  (forall x, x ∈ xs -> test x = false) -> List.filter test xs = [].
Proof.
  induction xs as [|x xs IH]; intros H; [reflexivity|].
  simpl. rewrite (H x) by (apply elem_of_cons; now left).
  apply IH. intros y Hy. apply H, elem_of_cons. now right.
Qed.

Lemma fake_base_list_keys order fuel w bucket_name prefix bucket :
  s3_buckets (fake w) !! bucket_name = Some bucket ->
  perform (S fuel) (fake_with_base order) (ListS3Keys bucket_name prefix) w
  = (Returned (VSet (stripped_names bucket prefix)), w).
Proof. exact (fake_list_keys fuel w bucket_name prefix bucket). Qed.

Lemma fake_base_download_matching order fuel w
    source_bucket source_prefix target_path filter_extensions bucket :
  s3_buckets (fake w) !! source_bucket = Some bucket ->
  perform (S (S (S fuel))) (fake_with_base order)
    (DownloadS3KeyRecursively source_bucket source_prefix target_path filter_extensions) w
  = download_each (perform (S fuel) (fake_with_base order))
      source_bucket source_prefix target_path
      (List.filter (fun key => endswith key filter_extensions)
         (order (stripped_names bucket (source_prefix +:+ "/")))) w.
Proof.
  intros Hb. rewrite fake_base_download_recursively. unfold download_listed.
  rewrite (bind_returned _ _ _ _ _
             (fake_base_list_keys order fuel w source_bucket (source_prefix +:+ "/")
                bucket Hb)).
  reflexivity.
Qed.

(** C9: performing [DownloadS3KeyRecursively] first dispatches
    [ListS3Keys] for [source_prefix + "/"] on the source bucket and then,
    for the returned keys that end with one of the extensions and for no
    other key, makes sure the parent directory of [target_path/key]
    exists and dispatches [DownloadS3Key] from
    [os.path.join(source_prefix, key)] to that path.  The returned keys
    come in the order the set hands them out, whichever that is; the keys
    downloaded are the members of the set with a wanted extension, each
    once.  Against the fake composed with the base dispatcher the listed
    keys are the bucket's keys under the prefix, and a listing without a
    matching key returns [None] and leaves the world as it was. *)
Theorem download_recursively_downloads_matching_keys order fuel w
    source_bucket source_prefix target_path filter_extensions :
  iteration_order order ->
  let intent :=
    DownloadS3KeyRecursively source_bucket source_prefix target_path filter_extensions in
  let matching (names : gset string) :=
    List.filter (fun key => endswith key filter_extensions) (order names) in
  (forall dispatcher : Dispatch,
     download_s3_key_recursively_generator order dispatcher source_bucket source_prefix
       target_path filter_extensions w
     = download_listed order dispatcher source_bucket source_prefix target_path
         filter_extensions w)
  /\ (forall names key,
        key ∈ matching names <->
        key ∈ names /\ endswith key filter_extensions = true)
  /\ (forall names,
        matching names
        ≡ₚ List.filter (fun key => endswith key filter_extensions) (elements names))
  /\ (forall path w0 w1,
        ensure_parent path w0 = (Returned tt, w1) ->
        fs_exists (local_fs w1) (parent path) = true)
  /\ perform (S (S (S fuel))) (fake_with_base order) intent w
     = download_listed order (perform (S fuel) (fake_with_base order))
         source_bucket source_prefix target_path filter_extensions w
  /\ (forall bucket,
        s3_buckets (fake w) !! source_bucket = Some bucket ->
        perform (S (S (S fuel))) (fake_with_base order) intent w
        = download_each (perform (S fuel) (fake_with_base order))
            source_bucket source_prefix target_path
            (matching (stripped_names bucket (source_prefix +:+ "/"))) w)
  /\ (forall bucket,
        s3_buckets (fake w) !! source_bucket = Some bucket ->
        (forall name, is_Some (bucket !! (source_prefix +:+ "/" +:+ name)) ->
                      endswith name filter_extensions = false) ->
        perform (S (S (S fuel))) (fake_with_base order) intent w = (Returned VNone, w)).
Proof.
  intros Horder intent matching.
  split; [|split; [|split; [|split; [|split; [|split]]]]].
  - intros dispatcher. apply download_generator_as_download_listed.
  - intros names key. now apply elem_of_filter_order.
  - intros names. apply filter_permutation, Horder.
  - intros path w0 w1 H. now apply ensure_parent_exists in H as [H _].
  - apply fake_base_download_recursively.
  - intros bucket Hb. now apply fake_base_download_matching.
  - intros bucket Hb Hnone.
    unfold intent. rewrite (fake_base_download_matching _ _ _ _ _ _ _ bucket Hb).
    rewrite filter_none; [reflexivity|].
    intros name Hname. apply Hnone.
    rewrite (Horder _) in Hname.
    apply elem_of_elements, elem_of_stripped_names in Hname.
    now rewrite append_assoc in Hname.
Qed.

Lemma download_recursively_downloads_matching_keys_witness :
  (exists w',
     perform 3 (fake_with_base elements)
       (DownloadS3KeyRecursively "docs" "foo" ["out"] [".json"]) sample_world
     = (Returned VNone, w')
     /\ fs_read (local_fs w') ["out"; "x.json"] = Some "{1}"
     /\ fs_read (local_fs w') ["out"; "deep"; "z.json"] = Some "{2}"
     /\ fs_exists (local_fs w') ["out"; "y.txt"] = false
     /\ fs_read (local_fs w') ["src"; "a.txt"] = Some "alpha"
     /\ fake w' = fake sample_world)
  /\ perform 3 (fake_with_base elements)
       (DownloadS3KeyRecursively "docs" "foo" ["out"] [".html"]) sample_world
     = (Returned VNone, sample_world).
Proof.
  assert (Horder : iteration_order elements) by (intros names; reflexivity).
  split.
  - destruct (download_recursively_downloads_matching_keys elements 0 sample_world
                "docs" "foo" ["out"] [".json"] Horder) as (_ & _ & _ & _ & _ & Hfake & _).
    eexists. split; [etransitivity; [exact (Hfake _ eq_refl) | vm_compute; reflexivity]|].
    repeat split.
  - destruct (download_recursively_downloads_matching_keys elements 0 sample_world
                "docs" "foo" ["out"] [".html"] Horder) as (_ & _ & _ & _ & _ & _ & Hnone).
    apply (Hnone _ eq_refl).
    intros name Hname. rewrite <- append_assoc in Hname.
    apply elem_of_stripped_names, elem_of_elements in Hname.
    match type of Hname with
    | _ ∈ ?l => let l' := eval vm_compute in l in change l with l' in Hname
    end.
    repeat (apply elem_of_cons in Hname as [-> | Hname]; [reflexivity|]).
    inversion Hname.
Defined.

(** C1: the fake's table and boto's table hold the very same two
    functions for [DownloadS3KeyRecursively] and [UploadToS3Recursively].
    Each of the two hands its body back as a [Func] effect; performed
    with either table composed with the base dispatcher, a recursive
    download is the listing and the downloads of the matching keys, and a
    recursive upload is the uploads of the wanted files, every one of
    those sub-intents performed by the dispatcher the composite is
    performed with: by the fake's primitive performers under the fake's
    table and by boto's under boto's. *)
Theorem composite_performers_shared order fuel w
    source_bucket source_prefix target_path filter_extensions
    source_path target_bucket target_key files :
  let down :=
    DownloadS3KeyRecursively source_bucket source_prefix target_path filter_extensions in
  let up := UploadToS3Recursively source_path target_bucket target_key files in
  let fake_d := perform (S fuel) (fake_with_base order) in
  let boto_d := perform (S fuel) (boto_with_base order) in
  (FakeAWS.get_dispatcher down = Some perform_download_s3_key_recursively
   /\ boto_dispatcher down = Some perform_download_s3_key_recursively
   /\ FakeAWS.get_dispatcher up = Some perform_upload_s3_key_recursively
   /\ boto_dispatcher up = Some perform_upload_s3_key_recursively)
  /\ (perform (S (S (S fuel))) (fake_with_base order) down w
      = download_listed order fake_d source_bucket source_prefix target_path
          filter_extensions w
      /\ perform (S (S (S fuel))) (boto_with_base order) down w
         = download_listed order boto_d source_bucket source_prefix target_path
             filter_extensions w)
  /\ (perform (S (S (S fuel))) (fake_with_base order) up w
      = upload_each fake_d source_path target_bucket target_key
          (uploads_of (local_fs w) source_path files) w
      /\ perform (S (S (S fuel))) (boto_with_base order) up w
         = upload_each boto_d source_path target_bucket target_key
             (uploads_of (local_fs w) source_path files) w)
  /\ (forall bucket prefix key path file w',
        (fake_d (ListS3Keys bucket prefix) w'
         = FakeAWS._perform_list_s3_keys fake_d (ListS3Keys bucket prefix) w'
         /\ fake_d (DownloadS3Key bucket key path) w'
            = FakeAWS._perform_download_s3_key fake_d (DownloadS3Key bucket key path) w'
         /\ fake_d (UploadToS3 path bucket key file) w'
            = FakeAWS._perform_upload_s3_key fake_d (UploadToS3 path bucket key file) w')
        /\ (boto_d (ListS3Keys bucket prefix) w'
            = perform_list_s3_keys boto_d (ListS3Keys bucket prefix) w'
            /\ boto_d (DownloadS3Key bucket key path) w'
               = perform_download_s3_key boto_d (DownloadS3Key bucket key path) w'
            /\ boto_d (UploadToS3 path bucket key file) w'
               = perform_upload_s3_key boto_d (UploadToS3 path bucket key file) w')).
Proof.
  intros down up fake_d boto_d.
  split; [repeat split|]. split; [|split].
  - split; [apply fake_base_download_recursively | apply boto_base_download_recursively].
  - split; [apply fake_base_upload_recursively | apply boto_base_upload_recursively].
  - intros bucket prefix key path file w'. repeat split.
Qed.

Lemma composite_performers_shared_witness :
  perform 3 (fake_with_base elements)
    (UploadToS3Recursively ["src"] "docs" "up" ["a.txt"; "c.log"]) sample_boto_world
  = upload_each (perform 1 (fake_with_base elements)) ["src"] "docs" "up"
      [["src"; "a.txt"]; ["src"; "sub"; "c.log"]] sample_boto_world
  /\ perform 3 (boto_with_base elements)
       (UploadToS3Recursively ["src"] "docs" "up" ["a.txt"; "c.log"]) sample_boto_world
     = upload_each (perform 1 (boto_with_base elements)) ["src"] "docs" "up"
         [["src"; "a.txt"]; ["src"; "sub"; "c.log"]] sample_boto_world
  /\ perform 3 (fake_with_base elements)
       (DownloadS3KeyRecursively "docs" "foo" ["out"] [".json"]) sample_boto_world
     = download_listed elements (perform 1 (fake_with_base elements))
         "docs" "foo" ["out"] [".json"] sample_boto_world.
Proof.
  destruct (composite_performers_shared elements 0 sample_boto_world
              "docs" "foo" ["out"] [".json"] ["src"] "docs" "up" ["a.txt"; "c.log"])
    as (_ & (Hdown & _) & (Hup_fake & Hup_boto) & _).
  split; [exact Hup_fake | split; [exact Hup_boto | exact Hdown]].
Defined.

(** * Further properties *)

(** ** Routing rules, continued *)

Lemma fake_update_found fuel w bucket prefix rules old target :
  routing_rules (fake w) !! bucket = Some rules ->
  rules !! prefix = Some old ->
  perform (S fuel) FakeAWS.get_dispatcher (UpdateS3RoutingRule bucket prefix target) w
  = (Returned (VStr old), with_fake_rules w bucket (<[prefix := target]> rules)).
Proof.
  intros Hb Hp.
  change (perform (S fuel) FakeAWS.get_dispatcher (UpdateS3RoutingRule bucket prefix target) w)
    with (FakeAWS._perform_update_s3_routing_rule (perform fuel FakeAWS.get_dispatcher)
            (UpdateS3RoutingRule bucket prefix target) w).
  unfold FakeAWS._perform_update_s3_routing_rule, bind, get_fake, dict_get, or_raise.
  rewrite Hb. simpl. rewrite Hp. reflexivity.
Qed.

(** X1: in the fake, an update hands back the target it replaces, the
    rule then reads as the new target while every other rule of the bucket
    reads as before, and updating back to the old target hands back the
    new one and restores the world exactly. *)
Theorem fake_update_round_trip fuel w bucket prefix rules old target :
  routing_rules (fake w) !! bucket = Some rules ->
  rules !! prefix = Some old ->
  exists w1 rules1,
    perform (S fuel) FakeAWS.get_dispatcher (UpdateS3RoutingRule bucket prefix target) w
    = (Returned (VStr old), w1)
    /\ routing_rules (fake w1) !! bucket = Some rules1
    /\ rules1 !! prefix = Some target
    /\ (forall other, other <> prefix -> rules1 !! other = rules !! other)
    /\ perform (S fuel) FakeAWS.get_dispatcher (UpdateS3RoutingRule bucket prefix old) w1
       = (Returned (VStr target), w).
Proof.
  intros Hb Hp.
  exists (with_fake_rules w bucket (<[prefix := target]> rules)),
         (<[prefix := target]> rules).
  split; [now apply fake_update_found|].
  split; [apply lookup_insert_eq|].
  split; [apply lookup_insert_eq|].
  split; [intros other Hne; now apply lookup_insert_ne|].
  rewrite (fake_update_found fuel _ bucket prefix (<[prefix := target]> rules) target old).
  - f_equal. unfold with_fake_rules. simpl.
    rewrite !insert_insert_eq, (insert_id rules prefix old Hp), (insert_id _ bucket rules Hb).
    now rewrite fake_eta, world_eta.
  - apply lookup_insert_eq.
  - apply lookup_insert_eq.
Qed.

Lemma fake_update_round_trip_witness :
  exists w1 rules1,
    perform 1 FakeAWS.get_dispatcher (UpdateS3RoutingRule "docs" "en/latest/" "en/0.3.1/")
      sample_world
    = (Returned (VStr "en/0.3.0/"), w1)
    /\ routing_rules (fake w1) !! "docs" = Some rules1
    /\ rules1 !! "en/latest/" = Some "en/0.3.1/"
    /\ (forall other, other <> "en/latest/" ->
          rules1 !! other
          = ({[ "en/latest/" := "en/0.3.0/" ]} : gmap string string) !! other)
    /\ perform 1 FakeAWS.get_dispatcher (UpdateS3RoutingRule "docs" "en/latest/" "en/0.3.0/") w1
       = (Returned (VStr "en/0.3.1/"), sample_world).
Proof.
  apply (fake_update_round_trip 0 sample_world "docs" "en/latest/"
           {[ "en/latest/" := "en/0.3.0/" ]} "en/0.3.0/" "en/0.3.1/"); reflexivity.
Defined.

Lemma with_website_lookup w bucket_name bucket config :
  s3 (aws (with_website w bucket_name bucket config)) !! bucket_name
  = Some {| website_configuration := Some config; bucket_keys := bucket_keys bucket |}.
Proof. simpl. apply lookup_insert_eq. Qed.

(** X2: against boto, once an update has changed the first matching
    rule, the same update again finds nothing to change: it returns
    [None] and the world stays as the first update left it.  The first
    update touches the website configuration of that bucket only. *)
Theorem boto_update_twice fuel w bucket_name bucket pre r post prefix target :
  s3 (aws w) !! bucket_name = Some bucket ->
  website_configuration bucket = Some (pre ++ r :: post) ->
  Forall (fun r => condition_key_prefix r <> prefix) pre ->
  condition_key_prefix r = prefix ->
  redirect_replace_key_prefix r <> target ->
  exists w1,
    perform (S fuel) boto_dispatcher (UpdateS3RoutingRule bucket_name prefix target) w
    = (Returned (VStr (redirect_replace_key_prefix r)), w1)
    /\ perform (S fuel) boto_dispatcher (UpdateS3RoutingRule bucket_name prefix target) w1
       = (Returned VNone, w1)
    /\ local_fs w1 = local_fs w /\ fake w1 = fake w
    /\ (forall other, other <> bucket_name -> s3 (aws w1) !! other = s3 (aws w) !! other)
    /\ (exists bucket1, s3 (aws w1) !! bucket_name = Some bucket1
                        /\ bucket_keys bucket1 = bucket_keys bucket).
Proof.
  intros Hb Hc Hpre Hr Hne.
  pose (r' := {| condition_key_prefix := condition_key_prefix r;
                 redirect_replace_key_prefix := target |}).
  exists (with_website w bucket_name bucket (pre ++ r' :: post)).
  split; [|split; [|split; [|split; [|split]]]].
  - rewrite (boto_update_at_first_match fuel w bucket_name bucket pre r post prefix target
               Hb Hc Hpre Hr).
    apply String.eqb_neq in Hne. now rewrite Hne.
  - rewrite (boto_update_at_first_match fuel _ bucket_name _ pre r' post prefix target
               (with_website_lookup _ _ _ _) eq_refl Hpre Hr).
    simpl. now rewrite String.eqb_refl.
  - reflexivity.
  - reflexivity.
  - intros other Hother. simpl. now apply lookup_insert_ne.
  - eexists. split; [apply with_website_lookup | reflexivity].
Qed.

Lemma boto_update_twice_witness :
  exists w1,
    perform 1 boto_dispatcher (UpdateS3RoutingRule "docs" "en/latest/" "en/0.3.1/")
      sample_boto_world
    = (Returned (VStr "en/0.3.0/"), w1)
    /\ perform 1 boto_dispatcher (UpdateS3RoutingRule "docs" "en/latest/" "en/0.3.1/") w1
       = (Returned VNone, w1)
    /\ local_fs w1 = local_fs sample_boto_world /\ fake w1 = fake sample_boto_world
    /\ (forall other, other <> "docs" ->
          s3 (aws w1) !! other = s3 (aws sample_boto_world) !! other)
    /\ (exists bucket1, s3 (aws w1) !! "docs" = Some bucket1
                        /\ bucket_keys bucket1 = bucket_keys sample_bucket).
Proof.
  apply (boto_update_twice 0 sample_boto_world "docs" sample_bucket
           [ {| condition_key_prefix := "en/devel/";
                redirect_replace_key_prefix := "en/0.4.0dev1/" |} ]
           {| condition_key_prefix := "en/latest/";
              redirect_replace_key_prefix := "en/0.3.0/" |}
           [ {| condition_key_prefix := "en/latest/";
                redirect_replace_key_prefix := "en/0.2.0/" |} ] "en/latest/" "en/0.3.1/");
    [reflexivity | reflexivity | repeat constructor; discriminate | reflexivity
    | discriminate].
Defined.

(** X3: against boto, updating a rule and then updating it back to the
    target it had returns the old target, then the new one, and leaves
    the account exactly as it was. *)
Theorem boto_update_round_trip fuel w bucket_name bucket pre r post prefix target :
  s3 (aws w) !! bucket_name = Some bucket ->
  website_configuration bucket = Some (pre ++ r :: post) ->
  Forall (fun r => condition_key_prefix r <> prefix) pre ->
  condition_key_prefix r = prefix ->
  redirect_replace_key_prefix r <> target ->
  exists w1,
    perform (S fuel) boto_dispatcher (UpdateS3RoutingRule bucket_name prefix target) w
    = (Returned (VStr (redirect_replace_key_prefix r)), w1)
    /\ perform (S fuel) boto_dispatcher
         (UpdateS3RoutingRule bucket_name prefix (redirect_replace_key_prefix r)) w1
       = (Returned (VStr target), w).
Proof.
  intros Hb Hc Hpre Hr Hne.
  pose (r' := {| condition_key_prefix := condition_key_prefix r;
                 redirect_replace_key_prefix := target |}).
  exists (with_website w bucket_name bucket (pre ++ r' :: post)). split.
  - rewrite (boto_update_at_first_match fuel w bucket_name bucket pre r post prefix target
               Hb Hc Hpre Hr).
    apply String.eqb_neq in Hne. now rewrite Hne.
  - rewrite (boto_update_at_first_match fuel _ bucket_name _ pre r' post prefix
               (redirect_replace_key_prefix r) (with_website_lookup _ _ _ _) eq_refl Hpre Hr).
    simpl. assert (Hne' : target <> redirect_replace_key_prefix r) by congruence.
    apply String.eqb_neq in Hne'. rewrite Hne'. f_equal.
    unfold with_website. simpl. rewrite insert_insert_eq.
    replace {| condition_key_prefix := condition_key_prefix r;
               redirect_replace_key_prefix := redirect_replace_key_prefix r |}
      with r by now destruct r.
    rewrite <- Hc.
    replace {| website_configuration := website_configuration bucket;
               bucket_keys := bucket_keys bucket |} with bucket by now destruct bucket.
    rewrite (insert_id _ _ _ Hb). destruct w as [fs [] fk]; reflexivity.
Qed.

Lemma boto_update_round_trip_witness :
  exists w1,
    perform 1 boto_dispatcher (UpdateS3RoutingRule "docs" "en/latest/" "en/0.3.1/")
      sample_boto_world
    = (Returned (VStr "en/0.3.0/"), w1)
    /\ perform 1 boto_dispatcher (UpdateS3RoutingRule "docs" "en/latest/" "en/0.3.0/") w1
       = (Returned (VStr "en/0.3.1/"), sample_boto_world).
Proof.
  apply (boto_update_round_trip 0 sample_boto_world "docs" sample_bucket
           [ {| condition_key_prefix := "en/devel/";
                redirect_replace_key_prefix := "en/0.4.0dev1/" |} ]
           {| condition_key_prefix := "en/latest/";
              redirect_replace_key_prefix := "en/0.3.0/" |}
           [ {| condition_key_prefix := "en/latest/";
                redirect_replace_key_prefix := "en/0.2.0/" |} ] "en/latest/" "en/0.3.1/");
    [reflexivity | reflexivity | repeat constructor; discriminate | reflexivity
    | discriminate].
Defined.

(** ** CloudFront invalidations *)

Lemma no_distribution_for cname (dists : list Distribution) :
  Forall (fun d => cname ∉ cnames d) dists ->
  List.filter (fun dist => bool_decide (cname ∈ cnames dist)) dists = [].
Proof.
  induction 1 as [|d ds Hd _ IH]; simpl; [reflexivity|].
  now rewrite (bool_decide_eq_false_2 _ Hd).
Qed.

(** X4: against boto, an invalidation for a CNAME that no distribution
    carries raises [IndexError] and requests nothing; otherwise one
    request is added, for the first distribution (in listing order) that
    carries the CNAME and with exactly the intent's paths, whatever
    distributions follow. *)
Theorem boto_invalidation_first_distribution fuel w cname paths :
  (Forall (fun d => cname ∉ cnames d) (distributions (aws w)) ->
   perform (S fuel) boto_dispatcher (CreateCloudFrontInvalidation cname paths) w
   = (Raised IndexError, w))
  /\ (forall pre d post,
        distributions (aws w) = pre ++ d :: post ->
        Forall (fun d => cname ∉ cnames d) pre ->
        cname ∈ cnames d ->
        perform (S fuel) boto_dispatcher (CreateCloudFrontInvalidation cname paths) w
        = (Returned VNone, with_invalidation_request w (distribution_id d, paths))).
Proof.
  split.
  - intros Hnone.
    change (perform_create_cloudfront_invalidation (perform fuel boto_dispatcher)
              (CreateCloudFrontInvalidation cname paths) w = (Raised IndexError, w)).
    unfold perform_create_cloudfront_invalidation, bind, get_aws, or_raise.
    now rewrite (no_distribution_for _ _ Hnone).
  - intros pre d post Hd Hpre Hin.
    change (perform_create_cloudfront_invalidation (perform fuel boto_dispatcher)
              (CreateCloudFrontInvalidation cname paths) w
            = (Returned VNone, with_invalidation_request w (distribution_id d, paths))).
    unfold perform_create_cloudfront_invalidation, with_invalidation_request,
      bind, get_aws, or_raise.
    rewrite Hd, List.filter_app, (no_distribution_for _ _ Hpre). simpl.
    now rewrite (bool_decide_eq_true_2 _ Hin).
Qed.

Lemma boto_invalidation_first_distribution_witness :
  perform 1 boto_dispatcher (CreateCloudFrontInvalidation "docs.example.org" ["/index.html"])
    sample_boto_world
  = (Raised IndexError, sample_boto_world)
  /\ (let w := {| local_fs := sample_fs;
                  aws := {| s3 := ∅;
                            distributions :=
                              [ {| distribution_id := "E1"; cnames := ["a.example.org"] |};
                                {| distribution_id := "E2";
                                   cnames := ["b.example.org"; "docs.example.org"] |};
                                {| distribution_id := "E3"; cnames := ["docs.example.org"] |} ];
                            invalidation_requests := [] |};
                  fake := sample_fake |} in
      perform 1 boto_dispatcher
        (CreateCloudFrontInvalidation "docs.example.org" ["/index.html"]) w
      = (Returned VNone, with_invalidation_request w ("E2", ["/index.html"]))).
Proof.
  split.
  - apply (boto_invalidation_first_distribution 0 sample_boto_world). constructor.
  - intros w.
    apply (proj2 (boto_invalidation_first_distribution 0 w "docs.example.org" ["/index.html"])
             [ {| distribution_id := "E1"; cnames := ["a.example.org"] |} ]
             {| distribution_id := "E2"; cnames := ["b.example.org"; "docs.example.org"] |}
             [ {| distribution_id := "E3"; cnames := ["docs.example.org"] |} ]).
    + reflexivity.
    + constructor; [|constructor]. simpl. intros H.
      apply list_elem_of_singleton in H. discriminate H.
    + simpl. apply elem_of_cons. right. apply elem_of_cons. now left.
Defined.

Lemma with_recorded_nil w : with_recorded w [] = w.
Proof.
  unfold with_recorded. rewrite app_nil_r. now rewrite fake_eta, world_eta.
Qed.

Lemma with_recorded_app w xs ys :
  with_recorded (with_recorded w xs) ys = with_recorded w (xs ++ ys).
Proof. unfold with_recorded. simpl. now rewrite app_assoc. Qed.

(** X5: the fake records every invalidation it is asked for, never
    fails and never looks for a distribution: after a run of invalidation
    intents its list is the old list followed by those intents, in the
    order they were dispatched and with repetitions kept; nothing else in
    the world changes. *)
Theorem fake_invalidations_recorded_in_order fuel (requests : list (string * list string)) :
  forall w,
    let intents :=
      (fun request => CreateCloudFrontInvalidation (fst request) (snd request)) <$> requests in
    perform_each (S fuel) FakeAWS.get_dispatcher intents w
    = (Returned tt, with_recorded w intents).
Proof.
  induction requests as [|[cname paths] requests IH]; intros w intents.
  - unfold intents, perform_each. simpl. unfold ret. now rewrite with_recorded_nil.
  - unfold intents, perform_each. rewrite fmap_cons, for_each_cons, bind_assoc.
    change (perform (S fuel) FakeAWS.get_dispatcher
              (CreateCloudFrontInvalidation (fst (cname, paths)) (snd (cname, paths))))
      with (FakeAWS._perform_create_cloudfront_invalidation
              (perform fuel FakeAWS.get_dispatcher)
              (CreateCloudFrontInvalidation cname paths)).
    unfold FakeAWS._perform_create_cloudfront_invalidation at 1.
    rewrite bind_assoc. unfold bind at 1, get_fake at 1.
    rewrite bind_assoc. unfold bind at 1, set_fake at 1.
    rewrite !bind_ret.
    fold (with_recorded w [CreateCloudFrontInvalidation cname paths]).
    fold (perform_each (S fuel) FakeAWS.get_dispatcher
            ((fun request => CreateCloudFrontInvalidation (fst request) (snd request))
               <$> requests)).
    rewrite IH. now rewrite with_recorded_app.
Qed.

(** ** Deleting and listing *)

Lemma lookup_foldl_delete {V} (names : list string) : forall (keys : gmap string V) name,
  foldl (fun ks n => delete n ks) keys names !! name
  = if decide (name ∈ names) then None else keys !! name.
Proof.
  induction names as [|n names IH]; intros keys name; simpl.
  - destruct (decide (name ∈ [])) as [H|_]; [inversion H | reflexivity].
  - rewrite IH. destruct (decide (name ∈ names)) as [Hin|Hnin].
    + rewrite decide_True; [reflexivity | now apply elem_of_cons; right].
    + destruct (decide (name = n)) as [->|Hne].
      * rewrite lookup_delete_eq.
        rewrite decide_True; [reflexivity | now apply elem_of_cons; left].
      * rewrite lookup_delete_ne by congruence.
        rewrite decide_False; [reflexivity|].
        intros [?|?]%elem_of_cons; contradiction.
Qed.

Lemma elem_of_prefixed prefix (keys : list string) name :
  prefix +:+ name ∈ String.append prefix <$> keys <-> name ∈ keys.
Proof.
  rewrite list_elem_of_fmap. split.
  - intros (k & Heq & Hk). apply append_inj_l in Heq. now subst k.
  - intros Hk. now exists name.
Qed.

(** X6: against boto, deleting keys never fails for a key that is not
    there (where the fake raises): with the bucket known it returns
    [None]; afterwards none of the names [prefix + key] is in the bucket,
    every other key is as before, and the website configuration is
    kept. *)
Theorem boto_delete_ignores_missing_keys fuel w bucket_name bucket prefix keys :
  s3 (aws w) !! bucket_name = Some bucket ->
  exists remaining,
    perform (S fuel) boto_dispatcher (DeleteS3Keys bucket_name prefix keys) w
    = (Returned VNone, with_s3_keys w bucket_name bucket remaining)
    /\ (forall key, key ∈ keys -> remaining !! (prefix +:+ key) = None)
    /\ (forall name, name ∉ String.append prefix <$> keys ->
          remaining !! name = bucket_keys bucket !! name).
Proof.
  intros Hb.
  exists (foldl (fun ks n => delete n ks) (bucket_keys bucket)
            (map (String.append prefix) keys)).
  split; [|split].
  - change (perform (S fuel) boto_dispatcher (DeleteS3Keys bucket_name prefix keys) w)
      with (perform_delete_s3_keys (perform fuel boto_dispatcher)
              (DeleteS3Keys bucket_name prefix keys) w).
    unfold perform_delete_s3_keys, s3_get_bucket, s3_put_bucket, bind, get_aws, or_raise.
    now rewrite Hb.
  - intros key Hkey. rewrite lookup_foldl_delete.
    rewrite decide_True; [reflexivity|]. now apply elem_of_prefixed.
  - intros name Hname. rewrite lookup_foldl_delete. now rewrite decide_False.
Qed.

Lemma boto_delete_ignores_missing_keys_witness :
  exists remaining,
    perform 1 boto_dispatcher
      (DeleteS3Keys "docs" "en/0.3.0/" ["index.html"; "missing.html"]) sample_boto_world
    = (Returned VNone, with_s3_keys sample_boto_world "docs" sample_bucket remaining)
    /\ (forall key, key ∈ ["index.html"; "missing.html"] ->
          remaining !! ("en/0.3.0/" +:+ key) = None)
    /\ (forall name, name ∉ String.append "en/0.3.0/" <$> ["index.html"; "missing.html"] ->
          remaining !! name = bucket_keys sample_bucket !! name).
Proof.
  apply (boto_delete_ignores_missing_keys 0 sample_boto_world "docs" sample_bucket).
  reflexivity.
Defined.

(** X7: in the fake, after a delete that went through, listing under the
    same prefix returns the names listed before without the deleted keys,
    and nothing else. *)
Theorem fake_delete_then_list fuel w bucket_name bucket prefix keys :
  s3_buckets (fake w) !! bucket_name = Some bucket ->
  NoDup keys ->
  (forall k, k ∈ keys -> is_Some (bucket !! (prefix +:+ k))) ->
  exists w1 before after,
    perform (S fuel) FakeAWS.get_dispatcher (ListS3Keys bucket_name prefix) w
    = (Returned (VSet before), w)
    /\ perform (S fuel) FakeAWS.get_dispatcher (DeleteS3Keys bucket_name prefix keys) w
       = (Returned VNone, w1)
    /\ perform (S fuel) FakeAWS.get_dispatcher (ListS3Keys bucket_name prefix) w1
       = (Returned (VSet after), w1)
    /\ forall name, name ∈ after <-> name ∈ before /\ name ∉ keys.
Proof.
  intros Hb Hnd Hall.
  exists (with_fake_bucket w bucket_name (without (String.append prefix <$> keys) bucket)),
         (stripped_names bucket prefix),
         (stripped_names (without (String.append prefix <$> keys) bucket) prefix).
  split; [now apply fake_list_keys|].
  split; [now apply fake_delete_all_present|].
  split; [apply fake_list_keys, with_fake_bucket_lookup|].
  intros name. rewrite !elem_of_stripped_names, lookup_without.
  destruct (decide (prefix +:+ name ∈ String.append prefix <$> keys)) as [Hin|Hnin].
  - apply elem_of_prefixed in Hin. split.
    + intros [x Hx]. discriminate Hx.
    + intros [_ Hn]. contradiction.
  - split.
    + intros Hsome. split; [exact Hsome|]. intros Hk. apply Hnin. now apply elem_of_prefixed.
    + intros [Hsome _]. exact Hsome.
Qed.

Lemma fake_delete_then_list_witness :
  exists w1 before after,
    perform 1 FakeAWS.get_dispatcher (ListS3Keys "docs" "foo/") sample_world
    = (Returned (VSet before), sample_world)
    /\ perform 1 FakeAWS.get_dispatcher (DeleteS3Keys "docs" "foo/" ["y.txt"; "x.json"])
         sample_world
       = (Returned VNone, w1)
    /\ perform 1 FakeAWS.get_dispatcher (ListS3Keys "docs" "foo/") w1
       = (Returned (VSet after), w1)
    /\ forall name, name ∈ after <-> name ∈ before /\ name ∉ ["y.txt"; "x.json"].
Proof.
  apply (fake_delete_then_list 0 sample_world "docs"
           {[ "docs/docs/index.html" := "<html>";
              "docs/x.json" := "{}";
              "foo/x.json" := "{1}";
              "foo/y.txt" := "why";
              "foo/deep/z.json" := "{2}" ]} "foo/" ["y.txt"; "x.json"]).
  - reflexivity.
  - apply NoDup_cons. split; [|apply NoDup_singleton].
    intros H. apply list_elem_of_singleton in H. discriminate H.
  - intros k Hk. apply elem_of_cons in Hk as [-> | Hk]; [eexists; reflexivity|].
    apply list_elem_of_singleton in Hk. subst k. eexists; reflexivity.
Defined.

(** X8: listing with the empty prefix returns every key of the bucket,
    whole; this holds for the fake and for boto alike. *)
Theorem list_keys_empty_prefix fuel w bucket_name :
  (forall bucket,
     s3_buckets (fake w) !! bucket_name = Some bucket ->
     perform (S fuel) FakeAWS.get_dispatcher (ListS3Keys bucket_name "") w
     = (Returned (VSet (dom bucket)), w))
  /\ (forall bucket,
        s3 (aws w) !! bucket_name = Some bucket ->
        perform (S fuel) boto_dispatcher (ListS3Keys bucket_name "") w
        = (Returned (VSet (dom (bucket_keys bucket))), w)).
Proof.
  assert (Hall : forall V (keys : gmap string V), stripped_names keys "" = dom keys).
  { intros V keys. apply set_eq. intros name.
    rewrite elem_of_stripped_names, append_empty. symmetry. apply elem_of_dom. }
  split; intros bucket Hb.
  - rewrite (fake_list_keys fuel w bucket_name "" bucket Hb). now rewrite Hall.
  - change (perform (S fuel) boto_dispatcher (ListS3Keys bucket_name "") w)
      with (perform_list_s3_keys (perform fuel boto_dispatcher)
              (ListS3Keys bucket_name "") w).
    unfold perform_list_s3_keys, s3_get_bucket, bind, get_aws, or_raise.
    rewrite Hb. simpl. unfold ret. now rewrite Hall.
Qed.

Lemma list_keys_empty_prefix_witness :
  perform 1 FakeAWS.get_dispatcher (ListS3Keys "docs" "") sample_boto_world
  = (Returned (VSet (dom ({[ "docs/docs/index.html" := "<html>";
                             "docs/x.json" := "{}";
                             "foo/x.json" := "{1}";
                             "foo/y.txt" := "why";
                             "foo/deep/z.json" := "{2}" ]} : gmap string string))),
     sample_boto_world)
  /\ perform 1 boto_dispatcher (ListS3Keys "docs" "") sample_boto_world
     = (Returned (VSet (dom (bucket_keys sample_bucket))), sample_boto_world).
Proof.
  destruct (list_keys_empty_prefix 0 sample_boto_world "docs") as [Hf Hb].
  split; [apply Hf | apply Hb]; reflexivity.
Defined.

(** ** Copying keys in the fake *)

Section FakeCopy.

Variables (source_bucket source_prefix destination_bucket destination_prefix : string).
Variable source : gmap string string.
Hypothesis distinct : source_bucket <> destination_bucket.

Lemma copy_step_present w destination key content :
  s3_buckets (fake w) !! source_bucket = Some source ->
  s3_buckets (fake w) !! destination_bucket = Some destination ->
  source !! (source_prefix +:+ key) = Some content ->
  copy_step source_bucket source_prefix destination_bucket destination_prefix key w
  = (Returned tt,
     with_fake_bucket w destination_bucket
       (<[destination_prefix +:+ key := content]> destination)).
Proof.
  intros Hs Hd Hk.
  unfold copy_step, FakeAWS.bucket_dict, FakeAWS.mutate_bucket, bind, get_fake,
    dict_get, or_raise.
  rewrite Hs. simpl. rewrite Hk. simpl. rewrite Hd. reflexivity.
Qed.

Lemma copy_step_absent w key :
  s3_buckets (fake w) !! source_bucket = Some source ->
  source !! (source_prefix +:+ key) = None ->
  copy_step source_bucket source_prefix destination_bucket destination_prefix key w
  = (Raised (KeyError (source_prefix +:+ key)), w).
Proof.
  intros Hs Hk.
  unfold copy_step, FakeAWS.bucket_dict, bind, get_fake, dict_get, or_raise.
  rewrite Hs. simpl. now rewrite Hk.
Qed.

Lemma copy_loop_succeeds keys : forall w destination,
  s3_buckets (fake w) !! source_bucket = Some source ->
  s3_buckets (fake w) !! destination_bucket = Some destination ->
  (forall k, k ∈ keys -> is_Some (source !! (source_prefix +:+ k))) ->
  for_each keys
    (copy_step source_bucket source_prefix destination_bucket destination_prefix) w
  = (Returned tt,
     with_fake_bucket w destination_bucket
       (copied source source_prefix destination_prefix keys destination)).
Proof.
  induction keys as [|k keys IH]; intros w destination Hs Hd Hall.
  - simpl. unfold ret. now rewrite with_fake_bucket_id.
  - destruct (Hall k) as [content Hk]; [apply elem_of_cons; now left|].
    rewrite for_each_cons.
    rewrite (bind_returned _ _ _ _ _ (copy_step_present w destination k content Hs Hd Hk)).
    rewrite (IH _ (<[destination_prefix +:+ k := content]> destination)).
    + rewrite with_fake_bucket_twice. unfold copied. simpl. now rewrite Hk.
    + simpl. rewrite lookup_insert_ne by (intros E; apply distinct; now symmetry). exact Hs.
    + apply with_fake_bucket_lookup.
    + intros k' Hk'. apply Hall, elem_of_cons. now right.
Qed.

Lemma copied_other keys : forall destination name,
  name ∉ String.append destination_prefix <$> keys ->
  copied source source_prefix destination_prefix keys destination !! name
  = destination !! name.
Proof.
  unfold copied. induction keys as [|k keys IH]; intros destination name Hn; [reflexivity|].
  simpl. rewrite IH.
  - apply lookup_insert_ne. intros E. apply Hn. rewrite fmap_cons, <- E.
    apply elem_of_cons. now left.
  - intros Hin. apply Hn. rewrite fmap_cons. apply elem_of_cons. now right.
Qed.

Lemma copied_key keys : forall destination key,
  key ∈ keys ->
  copied source source_prefix destination_prefix keys destination
    !! (destination_prefix +:+ key)
  = Some (default "" (source !! (source_prefix +:+ key))).
Proof.
  induction keys as [|k keys IH]; intros destination key Hkey; [inversion Hkey|].
  change (copied source source_prefix destination_prefix (k :: keys) destination)
    with (copied source source_prefix destination_prefix keys
            (<[destination_prefix +:+ k :=
                 default "" (source !! (source_prefix +:+ k))]> destination)).
  destruct (decide (key ∈ keys)) as [Hin | Hnin]; [now apply IH|].
  apply elem_of_cons in Hkey as [-> | Hkey]; [|contradiction].
  rewrite copied_other; [apply lookup_insert_eq|].
  intros Hin. apply Hnin. now apply elem_of_prefixed in Hin.
Qed.

Lemma fake_copy_runs fuel w destination keys :
  s3_buckets (fake w) !! source_bucket = Some source ->
  s3_buckets (fake w) !! destination_bucket = Some destination ->
  perform (S fuel) FakeAWS.get_dispatcher
    (CopyS3Keys source_bucket source_prefix destination_bucket destination_prefix keys) w
  = bind (for_each keys
            (copy_step source_bucket source_prefix destination_bucket destination_prefix))
      (fun _ => ret VNone) w.
Proof.
  intros Hs Hd.
  change (perform (S fuel) FakeAWS.get_dispatcher
            (CopyS3Keys source_bucket source_prefix destination_bucket
               destination_prefix keys) w)
    with (bind (FakeAWS.bucket_dict source_bucket)
            (fun _ => bind (FakeAWS.bucket_dict destination_bucket)
               (fun _ => bind (for_each keys
                                 (copy_step source_bucket source_prefix destination_bucket
                                    destination_prefix))
                           (fun _ => ret VNone))) w).
  unfold bind at 1. unfold FakeAWS.bucket_dict at 1, bind at 1, get_fake, dict_get, or_raise.
  rewrite Hs. simpl.
  unfold bind at 1. unfold FakeAWS.bucket_dict at 1, bind at 1, get_fake, dict_get, or_raise.
  rewrite Hd. reflexivity.
Qed.

(** X9: in the fake, a copy between two different buckets whose source
    keys are all there returns [None]; afterwards the destination holds,
    under [destination_prefix + key], what the source holds under
    [source_prefix + key], for every key of the list; every other entry
    of the destination and the whole source bucket are as before. *)
Theorem fake_copy_copies_every_key fuel w destination keys :
  s3_buckets (fake w) !! source_bucket = Some source ->
  s3_buckets (fake w) !! destination_bucket = Some destination ->
  (forall k, k ∈ keys -> is_Some (source !! (source_prefix +:+ k))) ->
  exists w1 destination1,
    perform (S fuel) FakeAWS.get_dispatcher
      (CopyS3Keys source_bucket source_prefix destination_bucket destination_prefix keys) w
    = (Returned VNone, w1)
    /\ s3_buckets (fake w1) !! source_bucket = Some source
    /\ s3_buckets (fake w1) !! destination_bucket = Some destination1
    /\ (forall k, k ∈ keys ->
          destination1 !! (destination_prefix +:+ k) = source !! (source_prefix +:+ k))
    /\ (forall name, name ∉ String.append destination_prefix <$> keys ->
          destination1 !! name = destination !! name).
Proof.
  intros Hs Hd Hall.
  exists (with_fake_bucket w destination_bucket
            (copied source source_prefix destination_prefix keys destination)),
         (copied source source_prefix destination_prefix keys destination).
  split; [|split; [|split; [|split]]].
  - rewrite (fake_copy_runs fuel w destination keys Hs Hd).
    now rewrite (bind_returned _ _ _ _ _ (copy_loop_succeeds keys w destination Hs Hd Hall)).
  - simpl. rewrite lookup_insert_ne by (intros E; apply distinct; now symmetry). exact Hs.
  - apply with_fake_bucket_lookup.
  - intros k Hk. rewrite (copied_key keys destination k Hk).
    destruct (Hall k Hk) as [c ->]. reflexivity.
  - intros name Hname. now apply copied_other.
Qed.

(** X10: in the fake, a copy stops at the first key that the source
    bucket lacks, with the [KeyError] of that source name; the keys before
    it have been copied and stay copied, and no key after it is. *)
Theorem fake_copy_stops_at_missing_key fuel w destination pre key post :
  s3_buckets (fake w) !! source_bucket = Some source ->
  s3_buckets (fake w) !! destination_bucket = Some destination ->
  (forall k, k ∈ pre -> is_Some (source !! (source_prefix +:+ k))) ->
  source !! (source_prefix +:+ key) = None ->
  exists destination1,
    perform (S fuel) FakeAWS.get_dispatcher
      (CopyS3Keys source_bucket source_prefix destination_bucket destination_prefix
         (pre ++ key :: post)) w
    = (Raised (KeyError (source_prefix +:+ key)),
       with_fake_bucket w destination_bucket destination1)
    /\ (forall k, k ∈ pre ->
          destination1 !! (destination_prefix +:+ k) = source !! (source_prefix +:+ k))
    /\ (forall name, name ∉ String.append destination_prefix <$> pre ->
          destination1 !! name = destination !! name).
Proof.
  intros Hs Hd Hall Hkey.
  exists (copied source source_prefix destination_prefix pre destination).
  split; [|split].
  - rewrite (fake_copy_runs fuel w destination _ Hs Hd).
    unfold bind at 1. rewrite for_each_app.
    rewrite (bind_returned _ _ _ _ _ (copy_loop_succeeds pre w destination Hs Hd Hall)).
    rewrite for_each_cons. unfold bind at 1.
    rewrite copy_step_absent; [reflexivity | | exact Hkey].
    simpl. rewrite lookup_insert_ne by (intros E; apply distinct; now symmetry). exact Hs.
  - intros k Hk. rewrite (copied_key pre destination k Hk).
    destruct (Hall k Hk) as [c ->]. reflexivity.
  - intros name Hname. now apply copied_other.
Qed.

End FakeCopy.

Lemma fake_copy_copies_every_key_witness :
  exists w1 destination1,
    perform 1 FakeAWS.get_dispatcher
      (CopyS3Keys "dev" "doc/" "prod" "en/" ["a.html"; "b.html"]) two_buckets_world
    = (Returned VNone, w1)
    /\ s3_buckets (fake w1) !! "dev"
       = Some ({[ "doc/a.html" := "A"; "doc/b.html" := "B" ]} : gmap string string)
    /\ s3_buckets (fake w1) !! "prod" = Some destination1
    /\ (forall k, k ∈ ["a.html"; "b.html"] ->
          destination1 !! ("en/" +:+ k)
          = ({[ "doc/a.html" := "A"; "doc/b.html" := "B" ]} : gmap string string)
              !! ("doc/" +:+ k))
    /\ (forall name, name ∉ String.append "en/" <$> ["a.html"; "b.html"] ->
          destination1 !! name
          = ({[ "en/old.html" := "O" ]} : gmap string string) !! name).
Proof.
  apply (fake_copy_copies_every_key "dev" "doc/" "prod" "en/" _ ltac:(discriminate)
           0 two_buckets_world).
  - reflexivity.
  - reflexivity.
  - intros k Hk. apply elem_of_cons in Hk as [-> | Hk]; [eexists; reflexivity|].
    apply list_elem_of_singleton in Hk. subst k. eexists; reflexivity.
Defined.

Lemma fake_copy_stops_at_missing_key_witness :
  exists destination1,
    perform 1 FakeAWS.get_dispatcher
      (CopyS3Keys "dev" "doc/" "prod" "en/" (["a.html"] ++ "c.html" :: ["b.html"]))
      two_buckets_world
    = (Raised (KeyError ("doc/" +:+ "c.html")),
       with_fake_bucket two_buckets_world "prod" destination1)
    /\ (forall k, k ∈ ["a.html"] ->
          destination1 !! ("en/" +:+ k)
          = ({[ "doc/a.html" := "A"; "doc/b.html" := "B" ]} : gmap string string)
              !! ("doc/" +:+ k))
    /\ (forall name, name ∉ String.append "en/" <$> ["a.html"] ->
          destination1 !! name
          = ({[ "en/old.html" := "O" ]} : gmap string string) !! name).
Proof.
  apply (fake_copy_stops_at_missing_key "dev" "doc/" "prod" "en/" _ ltac:(discriminate)
           0 two_buckets_world).
  - reflexivity.
  - reflexivity.
  - intros k Hk. apply list_elem_of_singleton in Hk. subst k. eexists; reflexivity.
  - reflexivity.
Defined.

(** ** Single downloads and uploads *)

(** X11: a download of a key the bucket lacks.  The fake looks the key
    up before it touches the target, so it raises the [KeyError] of the
    key and the world is as before.  The boto performer opens the target
    for writing before it uses the key that [get_key] did not find, so it
    raises [AttributeError] and leaves the target as an empty file,
    whatever the target held. *)
Theorem download_of_missing_key fuel w source_bucket source_key target_path :
  (forall bucket,
     s3_buckets (fake w) !! source_bucket = Some bucket ->
     bucket !! source_key = None ->
     perform (S fuel) FakeAWS.get_dispatcher
       (DownloadS3Key source_bucket source_key target_path) w
     = (Raised (KeyError source_key), w))
  /\ (forall bucket,
        s3 (aws w) !! source_bucket = Some bucket ->
        bucket_keys bucket !! source_key = None ->
        fs_writable (local_fs w) target_path = true ->
        exists fs',
          perform (S fuel) boto_dispatcher
            (DownloadS3Key source_bucket source_key target_path) w
          = (Raised AttributeError, with_fs w fs')
          /\ fs_read fs' target_path = Some "").
Proof.
  split.
  - intros bucket Hb Hk.
    change (perform (S fuel) FakeAWS.get_dispatcher
              (DownloadS3Key source_bucket source_key target_path) w)
      with (FakeAWS._perform_download_s3_key (perform fuel FakeAWS.get_dispatcher)
              (DownloadS3Key source_bucket source_key target_path) w).
    unfold FakeAWS._perform_download_s3_key, FakeAWS.bucket_dict,
      bind, get_fake, dict_get, or_raise.
    rewrite Hb. simpl. now rewrite Hk.
  - intros bucket Hb Hk Hw.
    destruct (fs_writable_write _ _ "" Hw) as [opened Hopened].
    exists opened. split; [|eapply read_after_write, Hopened].
    change (perform (S fuel) boto_dispatcher
              (DownloadS3Key source_bucket source_key target_path) w)
      with (perform_download_s3_key (perform fuel boto_dispatcher)
              (DownloadS3Key source_bucket source_key target_path) w).
    unfold perform_download_s3_key, s3_get_bucket, bind, get_aws, get_fs, or_raise.
    rewrite Hb. simpl. rewrite Hopened. simpl. now rewrite Hk.
Qed.

Lemma download_of_missing_key_witness :
  perform 1 FakeAWS.get_dispatcher (DownloadS3Key "docs" "foo/none" ["src"; "a.txt"])
    sample_boto_world
  = (Raised (KeyError "foo/none"), sample_boto_world)
  /\ exists fs',
       perform 1 boto_dispatcher (DownloadS3Key "docs" "foo/none" ["src"; "a.txt"])
         sample_boto_world
       = (Raised AttributeError, with_fs sample_boto_world fs')
       /\ fs_read fs' ["src"; "a.txt"] = Some "".
Proof.
  destruct (download_of_missing_key 0 sample_boto_world "docs" "foo/none" ["src"; "a.txt"])
    as [Hfake Hboto].
  split.
  - apply (Hfake _ eq_refl). reflexivity.
  - apply (Hboto _ eq_refl); reflexivity.
Defined.

Lemma entry_lookup_set_ne name other c es :
  other <> name -> entry_lookup other (entry_set name c es) = entry_lookup other es.
Proof.
  intros Hne. induction es as [|[n c0] es IH]; simpl.
  - apply String.eqb_neq in Hne. rewrite String.eqb_sym. now rewrite Hne.
  - destruct (String.eqb n name) eqn:E; simpl.
    + apply String.eqb_eq in E. subst n.
      assert (H : String.eqb name other = false)
        by (apply String.eqb_neq; congruence).
      now rewrite H.
    + destruct (String.eqb n other); [reflexivity | exact IH].
Qed.

Lemma read_elsewhere_after_write p c : forall n n' q,
  fs_write p c n = Some n' -> q <> p -> fs_read n' q = fs_read n q.
Proof.
  unfold fs_read.
  induction p as [|s rest IH]; intros n n' q H Hq; simpl in H.
  - destruct n; [|discriminate]. injection H as <-.
    destruct q; [contradiction | reflexivity].
  - destruct n as [|es]; [discriminate|].
    destruct (entry_lookup s es) as [child|] eqn:E.
    + destruct (fs_write rest c child) as [child'|] eqn:W; [|discriminate].
      injection H as <-. destruct q as [|s' r']; [reflexivity|]. simpl.
      destruct (String.eqb_spec s' s) as [-> | Hne].
      * rewrite entry_lookup_set, E. apply (IH child child' r' W). congruence.
      * now rewrite entry_lookup_set_ne.
    + destruct rest; [|discriminate]. injection H as <-.
      destruct q as [|s' r']; [reflexivity|]. simpl.
      destruct (String.eqb_spec s' s) as [-> | Hne].
      * rewrite entry_lookup_set, E. destruct r'; [contradiction | reflexivity].
      * now rewrite entry_lookup_set_ne.
Qed.

Lemma entry_name_length name es c :
  entry_lookup name es = Some c -> String.length name <= String.length (all_names es).
Proof.
  induction es as [|[n c0] es IH]; simpl; [discriminate|].
  rewrite length_append.
  destruct (String.eqb_spec n name) as [-> | _]; [lia|].
  intros H. apply IH in H. lia.
Qed.

Lemma fresh_name_absent es base :
  entry_lookup (all_names es +:+ base +:+ ".new") es = None.
Proof.
  destruct (entry_lookup _ es) as [c|] eqn:E; [|reflexivity].
  apply entry_name_length in E. rewrite !length_append in E. simpl in E. lia.
Qed.

Lemma lookup_node_app d name : forall fs es,
  lookup_node d fs = Some (Dir es) ->
  lookup_node (d ++ [name]) fs = entry_lookup name es.
Proof.
  induction d as [|s d IH]; intros fs es H; simpl in *.
  - injection H as ->. now destruct (entry_lookup name es).
  - destruct fs as [|es0]; [discriminate|].
    destruct (entry_lookup s es0) as [child|]; [now apply IH | discriminate].
Qed.

Lemma write_new_entry d name c : forall fs es,
  lookup_node d fs = Some (Dir es) ->
  entry_lookup name es = None ->
  exists fs', fs_write (d ++ [name]) c fs = Some fs'.
Proof.
  induction d as [|s d IH]; intros fs es H Hname; simpl in *.
  - injection H as ->. rewrite Hname. eexists; reflexivity.
  - destruct fs as [|es0]; [discriminate|].
    destruct (entry_lookup s es0) as [child|]; [|discriminate].
    destruct (IH child es H Hname) as [child' ->]. eexists; reflexivity.
Qed.

Lemma write_onto_directory p c : forall fs es,
  lookup_node p fs = Some (Dir es) -> fs_write p c fs = None.
Proof.
  induction p as [|s p IH]; intros fs es H; simpl in *.
  - now injection H as ->.
  - destruct fs as [|es0]; [reflexivity|].
    destruct (entry_lookup s es0) as [child|]; [|discriminate].
    now rewrite (IH child es H).
Qed.

Lemma lookup_parent_directory p : forall fs n,
  lookup_node p fs = Some n -> p <> [] ->
  exists es, lookup_node (parent p) fs = Some (Dir es).
Proof.
  unfold parent.
  induction p as [|s p IH]; intros fs n H Hp; [congruence|].
  destruct fs as [|es0]; [discriminate|].
  destruct p as [|s' p].
  - now exists es0.
  - change (removelast (s :: s' :: p)) with (s :: removelast (s' :: p)).
    simpl in H |- *.
    destruct (entry_lookup s es0) as [child|]; [|discriminate].
    apply (IH child n H). congruence.
Qed.

Lemma temporary_sibling_absent fs p es :
  lookup_node (parent p) fs = Some (Dir es) ->
  lookup_node (temporary_sibling fs p) fs = None.
Proof.
  intros H. unfold temporary_sibling. rewrite H.
  rewrite (lookup_node_app _ _ _ _ H). apply fresh_name_absent.
Qed.

Lemma temporary_sibling_written fs p c es :
  lookup_node (parent p) fs = Some (Dir es) ->
  exists behind, fs_write (temporary_sibling fs p) c fs = Some behind.
Proof.
  intros H. unfold temporary_sibling. rewrite H.
  apply (write_new_entry _ _ _ _ _ H), fresh_name_absent.
Qed.

Lemma set_content_keeps_files p c fs q content :
  q <> p ->
  fs_read fs q = Some content ->
  fs_read (snd (fs_set_content p c fs)) q = Some content.
Proof.
  intros Hq Hr. unfold fs_set_content.
  destruct (fs_write p c fs) as [fs'|] eqn:Hw; simpl.
  - now rewrite (read_elsewhere_after_write _ _ _ _ _ Hw Hq).
  - unfold fs_isdir.
    destruct (lookup_node (parent p) fs) as [[|es]|] eqn:Hparent; try assumption.
    destruct (fs_write (temporary_sibling fs p) c fs) as [behind|] eqn:Hs; simpl;
      [|assumption].
    rewrite (read_elsewhere_after_write _ _ _ _ _ Hs); [assumption|].
    intros ->. unfold fs_read in Hr.
    now rewrite (temporary_sibling_absent _ _ _ Hparent) in Hr.
Qed.

Lemma set_content_onto_directory p c fs :
  fs_isdir fs p = true ->
  fst (fs_set_content p c fs) = false
  /\ fs_exists fs (temporary_sibling fs p) = false
  /\ fs_read (snd (fs_set_content p c fs)) (temporary_sibling fs p) = Some c.
Proof.
  unfold fs_isdir. intros Hdir.
  destruct (lookup_node p fs) as [[|es]|] eqn:Hp; try discriminate.
  assert (Hparent : exists es', lookup_node (parent p) fs = Some (Dir es')).
  { destruct p as [|s p'] eqn:E; [now exists es|].
    apply (lookup_parent_directory _ _ _ Hp). congruence. }
  destruct Hparent as [es' Hparent].
  destruct (temporary_sibling_written fs p c es' Hparent) as [behind Hbehind].
  unfold fs_set_content, fs_isdir, fs_exists.
  rewrite (write_onto_directory _ c _ _ Hp), Hparent, Hbehind,
    (temporary_sibling_absent _ _ _ Hparent).
  simpl. repeat split. eapply read_after_write, Hbehind.
Qed.

(** X12: a download through the fake changes neither the fake nor the
    account, and every local file other than the target keeps its
    content, whatever the outcome.  Where the download returns, no path
    other than the target reads differently afterwards.  Where the target
    is a directory and the key is there, [setContent] raises and leaves
    the content behind in a new file beside the target. *)
Theorem fake_download_writes_only_target fuel w source_bucket source_key target_path :
  let run := perform (S fuel) FakeAWS.get_dispatcher
               (DownloadS3Key source_bucket source_key target_path) w in
  fake (snd run) = fake w
  /\ aws (snd run) = aws w
  /\ (forall q content,
        q <> target_path ->
        fs_read (local_fs w) q = Some content ->
        fs_read (local_fs (snd run)) q = Some content)
  /\ (forall v q,
        fst run = Returned v ->
        q <> target_path ->
        fs_read (local_fs (snd run)) q = fs_read (local_fs w) q)
  /\ (forall bucket content,
        s3_buckets (fake w) !! source_bucket = Some bucket ->
        bucket !! source_key = Some content ->
        fs_isdir (local_fs w) target_path = true ->
        fst run = Raised (OSError target_path)
        /\ fs_exists (local_fs w) (temporary_sibling (local_fs w) target_path) = false
        /\ fs_read (local_fs (snd run)) (temporary_sibling (local_fs w) target_path)
           = Some content).
Proof.
  cbv zeta.
  change (perform (S fuel) FakeAWS.get_dispatcher
            (DownloadS3Key source_bucket source_key target_path) w)
    with (FakeAWS._perform_download_s3_key (perform fuel FakeAWS.get_dispatcher)
            (DownloadS3Key source_bucket source_key target_path) w).
  unfold FakeAWS._perform_download_s3_key, FakeAWS.bucket_dict,
    bind, get_fake, get_fs, set_fs, dict_get, or_raise, ret, raise.
  destruct (s3_buckets (fake w) !! source_bucket) as [bucket|]; simpl;
    [|repeat split; intros; congruence].
  destruct (bucket !! source_key) as [content|] eqn:Hkey; simpl;
    [|repeat split; intros; congruence].
  pose proof (set_content_keeps_files target_path content (local_fs w)) as Hkeeps.
  pose proof (set_content_onto_directory target_path content (local_fs w)) as Hdir.
  unfold fs_set_content in *.
  destruct (fs_write target_path content (local_fs w)) as [fs'|] eqn:Hw; simpl in *.
  - split; [reflexivity|]. split; [reflexivity|]. split; [|split].
    + intros q c Hq Hr. now apply Hkeeps.
    + intros v q _ Hq. now apply (read_elsewhere_after_write _ _ _ _ _ Hw).
    + intros b c _ _ Hd. now destruct (Hdir Hd).
  - destruct (fs_isdir (local_fs w) (parent target_path)); simpl in *.
    + destruct (fs_write (temporary_sibling (local_fs w) target_path) content
                  (local_fs w)) as [behind|]; simpl in *.
      * split; [reflexivity|]. split; [reflexivity|]. split; [|split].
        -- intros q c Hq Hr. now apply Hkeeps.
        -- discriminate.
        -- intros b c Hb Hc Hd. assert (c = content) as -> by congruence.
           destruct (Hdir Hd) as (_ & Habsent & Hread). auto.
      * split; [reflexivity|]. split; [reflexivity|]. split; [|split].
        -- intros q c Hq Hr. now apply Hkeeps.
        -- discriminate.
        -- intros b c Hb Hc Hd. assert (c = content) as -> by congruence.
           destruct (Hdir Hd) as (_ & Habsent & Hread). auto.
    + split; [reflexivity|]. split; [reflexivity|]. split; [|split].
      * intros q c Hq Hr. now apply Hkeeps.
      * discriminate.
      * intros b c Hb Hc Hd. assert (c = content) as -> by congruence.
        destruct (Hdir Hd) as (_ & Habsent & Hread). auto.
Qed.

Lemma fake_download_writes_only_target_witness :
  let run := perform 1 FakeAWS.get_dispatcher
               (DownloadS3Key "docs" "foo/x.json" ["src"; "sub"]) sample_world in
  fst run = Raised (OSError ["src"; "sub"])
  /\ fs_exists sample_fs ["src"; "a.txtsubemptysub.new"] = false
  /\ fs_read (local_fs (snd run)) ["src"; "a.txtsubemptysub.new"] = Some "{1}"
  /\ fs_read (local_fs (snd run)) ["src"; "sub"; "b.txt"] = Some "beta".
Proof.
  destruct (fake_download_writes_only_target 0 sample_world "docs" "foo/x.json"
              ["src"; "sub"]) as (_ & _ & Hkeeps & _ & Hdir).
  destruct (Hdir _ "{1}" eq_refl eq_refl eq_refl) as (Hraised & Habsent & Hbehind).
  split; [exact Hraised|]. split; [exact Habsent|]. split; [exact Hbehind|].
  apply Hkeeps; [discriminate | reflexivity].
Defined.

(** X13: an upload into an existing fake bucket stores the content of
    the file under the upload key, whatever that key held, and leaves
    every other key of the bucket alone; the same upload again changes
    nothing more. *)
Theorem fake_upload_overwrites_and_repeats fuel w source_path target_bucket target_key
    file bucket content :
  s3_buckets (fake w) !! target_bucket = Some bucket ->
  fs_read (local_fs w) file = Some content ->
  exists w1 bucket1,
    perform (S fuel) FakeAWS.get_dispatcher
      (UploadToS3 source_path target_bucket target_key file) w
    = (Returned VNone, w1)
    /\ s3_buckets (fake w1) !! target_bucket = Some bucket1
    /\ bucket1 !! upload_key source_path target_key file = Some content
    /\ (forall name, name <> upload_key source_path target_key file ->
          bucket1 !! name = bucket !! name)
    /\ perform (S fuel) FakeAWS.get_dispatcher
         (UploadToS3 source_path target_bucket target_key file) w1
       = (Returned VNone, w1).
Proof.
  intros Hb Hr.
  exists (with_fake_bucket w target_bucket
            (<[upload_key source_path target_key file := content]> bucket)),
         (<[upload_key source_path target_key file := content]> bucket).
  split; [now apply fake_upload_stores|].
  split; [apply with_fake_bucket_lookup|].
  split; [apply lookup_insert_eq|].
  split; [intros name Hne; apply lookup_insert_ne; congruence|].
  rewrite (fake_upload_stores fuel _ source_path target_bucket target_key file
             (<[upload_key source_path target_key file := content]> bucket) content
             (with_fake_bucket_lookup _ _ _) Hr).
  now rewrite with_fake_bucket_twice, insert_insert_eq.
Qed.

Lemma fake_upload_overwrites_and_repeats_witness :
  exists w1 bucket1,
    perform 1 FakeAWS.get_dispatcher
      (UploadToS3 ["src"] "docs" "foo" ["src"; "a.txt"]) sample_world
    = (Returned VNone, w1)
    /\ s3_buckets (fake w1) !! "docs" = Some bucket1
    /\ bucket1 !! upload_key ["src"] "foo" ["src"; "a.txt"] = Some "alpha"
    /\ (forall name, name <> upload_key ["src"] "foo" ["src"; "a.txt"] ->
          bucket1 !! name
          = ({[ "docs/docs/index.html" := "<html>";
                "docs/x.json" := "{}";
                "foo/x.json" := "{1}";
                "foo/y.txt" := "why";
                "foo/deep/z.json" := "{2}" ]} : gmap string string) !! name)
    /\ perform 1 FakeAWS.get_dispatcher
         (UploadToS3 ["src"] "docs" "foo" ["src"; "a.txt"]) w1
       = (Returned VNone, w1).
Proof.
  apply (fake_upload_overwrites_and_repeats 0 sample_world ["src"] "docs" "foo"
           ["src"; "a.txt"]); reflexivity.
Defined.

(** ** Recursive upload, continued *)

Lemma upload_loop_nothing (dispatcher : Dispatch) source_path target_bucket target_key
    files w :
  forall paths,
    (forall p, p ∈ paths -> wanted_file (local_fs w) files p = false) ->
    for_each paths (fun path =>
        if bool_decide (basename path ∈ files) then
          let* fs := get_fs in
          if fs_isfile fs path then
            dispatcher (UploadToS3 source_path target_bucket target_key path) ;;;
            ret tt
          else ret tt
        else ret tt) w
    = (Returned tt, w).
Proof.
  induction paths as [|p paths IH]; intros Hall; [reflexivity|].
  rewrite for_each_cons.
  assert (Hp := Hall p ltac:(apply elem_of_cons; now left)).
  assert (Hrest : forall q, q ∈ paths -> wanted_file (local_fs w) files q = false)
    by (intros q Hq; apply Hall, elem_of_cons; now right).
  unfold wanted_file in Hp.
  destruct (bool_decide (basename p ∈ files)); simpl in Hp.
  - rewrite bind_assoc, bind_get_fs, Hp, bind_ret. now apply IH.
  - rewrite bind_ret. now apply IH.
Qed.

Lemma filter_nil_none {A} (test : A -> bool) (xs : list A) :
  List.filter test xs = [] -> forall x, x ∈ xs -> test x = false.
Proof.
  induction xs as [|x xs IH]; intros H y Hy; [inversion Hy|].
  simpl in H. destruct (test x) eqn:E; [discriminate|].
  apply elem_of_cons in Hy as [-> | Hy]; [exact E | now apply IH].
Qed.

(** X14: a recursive upload that finds no wanted file dispatches nothing:
    its body returns [None] and the world is as before, whatever the
    dispatcher and even if the target bucket does not exist; so does the
    dispatch of the intent with the fake's or boto's table composed with
    the base dispatcher.  This is so in particular when the list of file
    names is empty and when the source path does not exist (the walk then
    yields only the path itself, which is not a file). *)
Theorem upload_recursively_nothing_wanted (dispatcher : Dispatch) order fuel w
    source_path target_bucket target_key files :
  let intent := UploadToS3Recursively source_path target_bucket target_key files in
  (uploads_of (local_fs w) source_path files = [] ->
   upload_s3_key_recursively_generator dispatcher source_path target_bucket target_key
     files w
   = (Returned VNone, w))
  /\ (uploads_of (local_fs w) source_path files = [] ->
      perform (S (S (S fuel))) (fake_with_base order) intent w = (Returned VNone, w)
      /\ perform (S (S (S fuel))) (boto_with_base order) intent w = (Returned VNone, w))
  /\ uploads_of (local_fs w) source_path [] = []
  /\ (fs_exists (local_fs w) source_path = false ->
      uploads_of (local_fs w) source_path files = []).
Proof.
  assert (Hbody : forall d : Dispatch,
             uploads_of (local_fs w) source_path files = [] ->
             upload_s3_key_recursively_generator d source_path target_bucket target_key
               files w
             = (Returned VNone, w)).
  { intros d Hnone. unfold upload_s3_key_recursively_generator.
    rewrite bind_get_fs.
    now rewrite (bind_returned _ _ _ _ _
                   (upload_loop_nothing d source_path target_bucket target_key
                      files w _ (filter_nil_none _ _ Hnone))). }
  intros intent. split; [|split; [|split]].
  - apply Hbody.
  - intros Hnone. split.
    + exact (Hbody (perform (S fuel) (fake_with_base order)) Hnone).
    + exact (Hbody (perform (S fuel) (boto_with_base order)) Hnone).
  - unfold uploads_of. apply filter_none. intros p _. unfold wanted_file.
    rewrite bool_decide_eq_false_2; [reflexivity|]. intros H. inversion H.
  - unfold fs_exists, uploads_of, fs_walk. intros Hmissing.
    destruct (lookup_node source_path (local_fs w)) eqn:E; [discriminate|].
    simpl. unfold wanted_file, fs_isfile. rewrite E. now rewrite andb_false_r.
Qed.

Lemma upload_recursively_nothing_wanted_witness :
  upload_s3_key_recursively_generator (perform 1 FakeAWS.get_dispatcher)
    ["nowhere"] "no-such-bucket" "up" ["a.txt"] sample_world
  = (Returned VNone, sample_world)
  /\ perform 3 (fake_with_base elements)
       (UploadToS3Recursively ["nowhere"] "no-such-bucket" "up" ["a.txt"]) sample_world
     = (Returned VNone, sample_world).
Proof.
  destruct (upload_recursively_nothing_wanted (perform 1 FakeAWS.get_dispatcher)
              elements 0 sample_world ["nowhere"] "no-such-bucket" "up" ["a.txt"])
    as (Hrun & Hcomposed & _ & Hmissing).
  split.
  - apply Hrun, Hmissing. reflexivity.
  - apply Hcomposed, Hmissing. reflexivity.
Defined.

(** ** What a dispatch leaves alone *)

Section Stable.

Variable R : World -> World -> Prop.
Hypothesis R_refl : forall w, R w w.
Hypothesis R_trans : forall w1 w2 w3, R w1 w2 -> R w2 w3 -> R w1 w3.

Lemma stable_ret {A} (a : A) : stable R (ret a).
Proof. intros w. apply R_refl. Qed.

Lemma stable_raise {A} e : stable R (@raise A e).
Proof. intros w. apply R_refl. Qed.

Lemma stable_or_raise {A} (o : option A) e : stable R (or_raise o e).
Proof. destruct o; [apply stable_ret | apply stable_raise]. Qed.

Lemma stable_dict_get {V} (d : gmap string V) k : stable R (dict_get d k).
Proof. apply stable_or_raise. Qed.

Lemma stable_get_fs : stable R get_fs.
Proof. intros w. apply R_refl. Qed.

Lemma stable_get_fake : stable R get_fake.
Proof. intros w. apply R_refl. Qed.

Lemma stable_get_aws : stable R get_aws.
Proof. intros w. apply R_refl. Qed.

Lemma stable_iterate order v : stable R (iterate order v).
Proof. destruct v; [apply stable_raise | apply stable_ret | apply stable_ret]. Qed.

Lemma stable_bind {A B} (m : M A) (k : A -> M B) :
  stable R m -> (forall a, stable R (k a)) -> stable R (bind m k).
Proof.
  intros Hm Hk w. unfold bind. specialize (Hm w).
  destruct (m w) as [[a| |] w1]; simpl in *; [|exact Hm|exact Hm].
  eapply R_trans; [exact Hm | apply Hk].
Qed.

Lemma stable_for_each {A} (xs : list A) (body : A -> M unit) :
  (forall x, stable R (body x)) -> stable R (for_each xs body).
Proof.
  intros Hbody. induction xs as [|x xs IH]; [apply stable_ret|].
  simpl. apply stable_bind; [apply Hbody | intros _; exact IH].
Qed.

Lemma stable_bucket_dict name : stable R (FakeAWS.bucket_dict name).
Proof.
  unfold FakeAWS.bucket_dict. apply stable_bind; [apply stable_get_fake|].
  intros self. apply stable_dict_get.
Qed.

End Stable.

Ltac stable_step R refl trans :=
  first
    [ apply (stable_bind R trans); [| intros ?]
    | apply (stable_for_each R refl trans); intros ?
    | apply (stable_bucket_dict R refl trans)
    | apply (stable_ret R refl)
    | apply (stable_raise R refl)
    | apply (stable_or_raise R refl)
    | apply (stable_dict_get R refl)
    | apply (stable_iterate R refl)
    | apply (stable_get_fs R refl)
    | apply (stable_get_fake R refl)
    | apply (stable_get_aws R refl)
    | match goal with
      | |- stable _ (if ?b then _ else _) => destruct b
      end ].

Lemma same_remote_refl w : same_remote w w.
Proof. split; reflexivity. Qed.

Lemma same_remote_trans w1 w2 w3 :
  same_remote w1 w2 -> same_remote w2 w3 -> same_remote w1 w3.
Proof. intros [H1 H2] [H3 H4]. split; congruence. Qed.

Lemma same_remote_set_fs fs : stable same_remote (set_fs fs).
Proof. intros w. split; reflexivity. Qed.

Ltac same_remote_steps :=
  repeat first [ stable_step same_remote same_remote_refl same_remote_trans
               | apply same_remote_set_fs ].

Lemma fake_list_same_remote fuel bucket_name prefix :
  stable same_remote (perform (S fuel) FakeAWS.get_dispatcher (ListS3Keys bucket_name prefix)).
Proof.
  change (stable same_remote
            (FakeAWS._perform_list_s3_keys (perform fuel FakeAWS.get_dispatcher)
               (ListS3Keys bucket_name prefix))).
  unfold FakeAWS._perform_list_s3_keys. same_remote_steps.
Qed.

Lemma fake_download_same_remote fuel source_bucket source_key target_path :
  stable same_remote
    (perform (S fuel) FakeAWS.get_dispatcher
       (DownloadS3Key source_bucket source_key target_path)).
Proof.
  change (stable same_remote
            (FakeAWS._perform_download_s3_key (perform fuel FakeAWS.get_dispatcher)
               (DownloadS3Key source_bucket source_key target_path))).
  unfold FakeAWS._perform_download_s3_key. same_remote_steps.
Qed.

Lemma boto_list_same_remote fuel bucket_name prefix :
  stable same_remote (perform (S fuel) boto_dispatcher (ListS3Keys bucket_name prefix)).
Proof.
  change (stable same_remote
            (perform_list_s3_keys (perform fuel boto_dispatcher)
               (ListS3Keys bucket_name prefix))).
  unfold perform_list_s3_keys, s3_get_bucket. same_remote_steps.
Qed.

Lemma boto_download_same_remote fuel source_bucket source_key target_path :
  stable same_remote
    (perform (S fuel) boto_dispatcher
       (DownloadS3Key source_bucket source_key target_path)).
Proof.
  change (stable same_remote
            (perform_download_s3_key (perform fuel boto_dispatcher)
               (DownloadS3Key source_bucket source_key target_path))).
  unfold perform_download_s3_key, s3_get_bucket. same_remote_steps.
Qed.

Lemma download_generator_same_remote order (dispatcher : Dispatch)
    source_bucket source_prefix target_path filter_extensions :
  (forall b p, stable same_remote (dispatcher (ListS3Keys b p))) ->
  (forall b k t, stable same_remote (dispatcher (DownloadS3Key b k t))) ->
  stable same_remote
    (download_s3_key_recursively_generator order dispatcher source_bucket source_prefix
       target_path filter_extensions).
Proof.
  intros Hlist Hdown. unfold download_s3_key_recursively_generator.
  repeat first [ apply Hlist | apply Hdown
               | stable_step same_remote same_remote_refl same_remote_trans
               | apply same_remote_set_fs ].
Qed.

(** X15: a recursive download, performed with the fake dispatcher or
    with the boto dispatcher, and whether it returns or raises part-way,
    changes nothing but local files: the fake (its buckets, rules and
    recorded invalidations) and the AWS account are as before.  This is
    so with the tables alone and with each of them composed with the base
    dispatcher, whatever the order a set of listed keys is gone through
    in. *)
Theorem download_recursively_keeps_remote order fuel w
    source_bucket source_prefix target_path filter_extensions :
  let intent :=
    DownloadS3KeyRecursively source_bucket source_prefix target_path filter_extensions in
  same_remote w (snd (perform (S (S fuel)) FakeAWS.get_dispatcher intent w))
  /\ same_remote w (snd (perform (S (S fuel)) boto_dispatcher intent w))
  /\ same_remote w (snd (perform (S (S (S fuel))) (fake_with_base order) intent w))
  /\ same_remote w (snd (perform (S (S (S fuel))) (boto_with_base order) intent w)).
Proof.
  intros intent. split; [|split; [|split]].
  - apply same_remote_refl.
  - apply same_remote_refl.
  - change (perform (S (S (S fuel))) (fake_with_base order) intent)
      with (download_s3_key_recursively_generator order
              (perform (S fuel) (fake_with_base order))
              source_bucket source_prefix target_path filter_extensions).
    apply download_generator_same_remote.
    + intros b p. exact (fake_list_same_remote fuel b p).
    + intros b k t. exact (fake_download_same_remote fuel b k t).
  - change (perform (S (S (S fuel))) (boto_with_base order) intent)
      with (download_s3_key_recursively_generator order
              (perform (S fuel) (boto_with_base order))
              source_bucket source_prefix target_path filter_extensions).
    apply download_generator_same_remote.
    + intros b p. exact (boto_list_same_remote fuel b p).
    + intros b k t. exact (boto_download_same_remote fuel b k t).
Qed.

Lemma only_bucket_refl b w : only_bucket b w w.
Proof. repeat split; reflexivity. Qed.

Lemma only_bucket_trans b w1 w2 w3 :
  only_bucket b w1 w2 -> only_bucket b w2 w3 -> only_bucket b w1 w3.
Proof.
  intros (A1 & A2 & A3 & A4 & A5) (B1 & B2 & B3 & B4 & B5).
  repeat split; try congruence.
  intros other Hne. rewrite (B5 other Hne). now apply A5.
Qed.

Lemma only_bucket_mutate b f : stable (only_bucket b) (FakeAWS.mutate_bucket b f).
Proof.
  intros w. unfold FakeAWS.mutate_bucket, bind, get_fake, dict_get, or_raise.
  destruct (s3_buckets (fake w) !! b); simpl; [|apply only_bucket_refl].
  repeat split. intros other Hne. simpl. apply lookup_insert_ne. congruence.
Qed.

Lemma fake_upload_only_bucket fuel source_path target_bucket target_key file :
  stable (only_bucket target_bucket)
    (perform (S fuel) FakeAWS.get_dispatcher
       (UploadToS3 source_path target_bucket target_key file)).
Proof.
  change (stable (only_bucket target_bucket)
            (FakeAWS._perform_upload_s3_key (perform fuel FakeAWS.get_dispatcher)
               (UploadToS3 source_path target_bucket target_key file))).
  unfold FakeAWS._perform_upload_s3_key.
  repeat first [ apply only_bucket_mutate
               | stable_step (only_bucket target_bucket)
                   (only_bucket_refl target_bucket) (only_bucket_trans target_bucket) ].
Qed.

(** X16: a recursive upload through the fake dispatcher, whatever its
    outcome, changes nothing but the dict of the target bucket: local
    files, the AWS account, the fake's routing rules, its recorded
    invalidations and every other fake bucket are as before.  This is so
    with the fake's table alone and with the table composed with the base
    dispatcher. *)
Theorem fake_upload_recursively_touches_one_bucket order fuel w
    source_path target_bucket target_key files :
  only_bucket target_bucket w
    (snd (perform (S (S fuel)) FakeAWS.get_dispatcher
            (UploadToS3Recursively source_path target_bucket target_key files) w))
  /\ only_bucket target_bucket w
       (snd (perform (S (S (S fuel))) (fake_with_base order)
               (UploadToS3Recursively source_path target_bucket target_key files) w)).
Proof.
  split; [apply only_bucket_refl|].
  change (perform (S (S (S fuel))) (fake_with_base order)
            (UploadToS3Recursively source_path target_bucket target_key files))
    with (upload_s3_key_recursively_generator (perform (S fuel) (fake_with_base order))
            source_path target_bucket target_key files).
  revert w. fold (stable (only_bucket target_bucket)
                    (upload_s3_key_recursively_generator
                       (perform (S fuel) (fake_with_base order))
                       source_path target_bucket target_key files)).
  unfold upload_s3_key_recursively_generator.
  repeat first [ exact (fake_upload_only_bucket fuel _ _ _ _)
               | stable_step (only_bucket target_bucket)
                   (only_bucket_refl target_bucket) (only_bucket_trans target_bucket) ].
Qed.

(** ** The key a recursive download asks for *)

(** X17: for a source prefix that is not empty and does not end with a
    slash, the key a recursive download asks for, built with
    [os.path.join] from a listed name that does not begin with a slash,
    is the very key of the bucket the name was listed for.  With the
    empty source prefix it is not: the listing is under ["/"], and the
    join gives the name without that slash. *)
Theorem download_key_of_listed_name (bucket : gmap string string) source_prefix name :
  (source_prefix <> "" ->
   endswith1 source_prefix "/" = false ->
   startswith name "/" = false ->
   name ∈ stripped_names bucket (source_prefix +:+ "/") ->
   os_path_join source_prefix name = source_prefix +:+ "/" +:+ name
   /\ is_Some (bucket !! os_path_join source_prefix name))
  /\ os_path_join "" name <> "" +:+ "/" +:+ name.
Proof.
  split.
  - intros Hne Hslash Hname Hlisted.
    assert (Hjoin : os_path_join source_prefix name = source_prefix +:+ "/" +:+ name).
    { unfold os_path_join. rewrite Hname, Hslash.
      apply String.eqb_neq in Hne. now rewrite Hne. }
    split; [exact Hjoin|]. rewrite Hjoin.
    apply elem_of_stripped_names in Hlisted. now rewrite append_assoc in Hlisted.
  - unfold os_path_join. intros H.
    assert (Hlen : String.length (os_path_join "" name) = String.length name).
    { unfold os_path_join. destruct (startswith name "/"); reflexivity. }
    unfold os_path_join in Hlen. rewrite H in Hlen.
    rewrite append_empty, length_append in Hlen. simpl in Hlen. lia.
Qed.

Lemma download_key_of_listed_name_witness :
  os_path_join "foo" "deep/z.json" = "foo" +:+ "/" +:+ "deep/z.json"
  /\ is_Some (({[ "docs/docs/index.html" := "<html>";
                  "docs/x.json" := "{}";
                  "foo/x.json" := "{1}";
                  "foo/y.txt" := "why";
                  "foo/deep/z.json" := "{2}" ]} : gmap string string)
               !! os_path_join "foo" "deep/z.json").
Proof.
  apply (proj1 (download_key_of_listed_name
                  {[ "docs/docs/index.html" := "<html>";
                     "docs/x.json" := "{}";
                     "foo/x.json" := "{1}";
                     "foo/y.txt" := "why";
                     "foo/deep/z.json" := "{2}" ]} "foo" "deep/z.json")).
  - discriminate.
  - reflexivity.
  - reflexivity.
  - apply elem_of_stripped_names. eexists. reflexivity.
Defined.

(** ** Composite intents and the base dispatcher *)

(** X18: neither table has a performer for the [Func] effect a composite
    performer hands back.  Performed with the fake's table or boto's
    table alone, a recursive download or upload therefore raises the
    [NoPerformerFoundError] of that [Func] effect and the world is as
    before, whatever the buckets and files are; each table composed with
    the base dispatcher has the performer of [Func] and keeps its own
    performer for the composite intents. *)
Theorem composite_needs_base_dispatcher order fuel w
    source_bucket source_prefix target_path filter_extensions
    source_path target_bucket target_key files :
  let down :=
    DownloadS3KeyRecursively source_bucket source_prefix target_path filter_extensions in
  let up := UploadToS3Recursively source_path target_bucket target_key files in
  let down_doit :=
    download_s3_key_recursively_doit source_bucket source_prefix target_path
      filter_extensions in
  let up_doit :=
    upload_s3_key_recursively_doit source_path target_bucket target_key files in
  (perform (S (S fuel)) FakeAWS.get_dispatcher down w
   = (Raised (NoPerformerFoundError (Func down_doit)), w)
   /\ perform (S (S fuel)) boto_dispatcher down w
      = (Raised (NoPerformerFoundError (Func down_doit)), w)
   /\ perform (S (S fuel)) FakeAWS.get_dispatcher up w
      = (Raised (NoPerformerFoundError (Func up_doit)), w)
   /\ perform (S (S fuel)) boto_dispatcher up w
      = (Raised (NoPerformerFoundError (Func up_doit)), w))
  /\ (forall doit,
        FakeAWS.get_dispatcher (Func doit) = None
        /\ boto_dispatcher (Func doit) = None
        /\ fake_with_base order (Func doit) = Some (perform_func order)
        /\ boto_with_base order (Func doit) = Some (perform_func order))
  /\ (forall intent performer,
        (FakeAWS.get_dispatcher intent = Some performer ->
         fake_with_base order intent = Some performer)
        /\ (boto_dispatcher intent = Some performer ->
            boto_with_base order intent = Some performer)).
Proof.
  intros down up down_doit up_doit.
  split; [repeat split|]. split; [intros doit; repeat split|].
  intros intent performer. unfold fake_with_base, boto_with_base. simpl.
  split; intros ->; reflexivity.
Qed.

Lemma composite_needs_base_dispatcher_witness :
  perform 2 FakeAWS.get_dispatcher
    (UploadToS3Recursively ["src"] "docs" "up" ["a.txt"]) sample_world
  = (Raised (NoPerformerFoundError
               (Func (upload_s3_key_recursively_doit ["src"] "docs" "up" ["a.txt"]))),
     sample_world)
  /\ fake_with_base elements
       (UploadToS3Recursively ["src"] "docs" "up" ["a.txt"])
     = Some perform_upload_s3_key_recursively.
Proof.
  destruct (composite_needs_base_dispatcher elements 0 sample_world
              "docs" "foo" ["out"] [".json"] ["src"] "docs" "up" ["a.txt"])
    as ((_ & _ & Hup & _) & _ & Hkeeps).
  split; [exact Hup|].
  apply (Hkeeps (UploadToS3Recursively ["src"] "docs" "up" ["a.txt"])). reflexivity.
Defined.

(** ** Unknown buckets in the fake *)

Lemma fake_bucket_dict_unknown w name :
  s3_buckets (fake w) !! name = None ->
  FakeAWS.bucket_dict name w = (Raised (KeyError name), w).
Proof.
  intros H. unfold FakeAWS.bucket_dict, bind, get_fake, dict_get, or_raise.
  now rewrite H.
Qed.

(** X19: every fake performer that names a bucket looks its dict up
    first: for a bucket the fake does not have it raises the [KeyError]
    of the bucket name and the world is as before.  This is so for a
    delete or a copy with an empty key list, for an upload whatever the
    state of the file, for a copy whose two buckets are both unknown (the
    source is looked up first), and it carries over to the composite
    intents performed with the fake's table composed with the base
    dispatcher: a recursive download always lists first, a recursive
    upload raises as soon as there is a wanted file. *)
Theorem fake_unknown_bucket_raises order fuel w bucket :
  s3_buckets (fake w) !! bucket = None ->
  (forall prefix,
     perform (S fuel) FakeAWS.get_dispatcher (ListS3Keys bucket prefix) w
     = (Raised (KeyError bucket), w))
  /\ (forall prefix keys,
        perform (S fuel) FakeAWS.get_dispatcher (DeleteS3Keys bucket prefix keys) w
        = (Raised (KeyError bucket), w))
  /\ (forall key target,
        perform (S fuel) FakeAWS.get_dispatcher (DownloadS3Key bucket key target) w
        = (Raised (KeyError bucket), w))
  /\ (forall source_path target_key file,
        perform (S fuel) FakeAWS.get_dispatcher
          (UploadToS3 source_path bucket target_key file) w
        = (Raised (KeyError bucket), w))
  /\ (forall source_prefix destination destination_prefix keys,
        perform (S fuel) FakeAWS.get_dispatcher
          (CopyS3Keys bucket source_prefix destination destination_prefix keys) w
        = (Raised (KeyError bucket), w))
  /\ (forall source source_prefix destination_prefix keys,
        is_Some (s3_buckets (fake w) !! source) ->
        perform (S fuel) FakeAWS.get_dispatcher
          (CopyS3Keys source source_prefix bucket destination_prefix keys) w
        = (Raised (KeyError bucket), w))
  /\ (forall source_prefix target_path filter_extensions,
        perform (S (S (S fuel))) (fake_with_base order)
          (DownloadS3KeyRecursively bucket source_prefix target_path filter_extensions) w
        = (Raised (KeyError bucket), w))
  /\ (forall source_path target_key files,
        uploads_of (local_fs w) source_path files <> [] ->
        perform (S (S (S fuel))) (fake_with_base order)
          (UploadToS3Recursively source_path bucket target_key files) w
        = (Raised (KeyError bucket), w)).
Proof.
  intros Hb.
  assert (Hup : forall n source_path target_key file,
             perform (S n) FakeAWS.get_dispatcher
               (UploadToS3 source_path bucket target_key file) w
             = (Raised (KeyError bucket), w)).
  { intros n source_path target_key file.
    change (perform (S n) FakeAWS.get_dispatcher
              (UploadToS3 source_path bucket target_key file) w)
      with (bind (FakeAWS.bucket_dict bucket)
              (fun _ => let* fs := get_fs in
                        let* source_file := or_raise (fs_read fs file) (IOError file) in
                        FakeAWS.mutate_bucket bucket
                          (insert (upload_key source_path target_key file) source_file) ;;;
                        ret VNone) w).
    unfold bind at 1. now rewrite (fake_bucket_dict_unknown w bucket Hb). }
  assert (Hlist : forall n prefix,
             perform (S n) FakeAWS.get_dispatcher (ListS3Keys bucket prefix) w
             = (Raised (KeyError bucket), w)).
  { intros n prefix.
    change (perform (S n) FakeAWS.get_dispatcher (ListS3Keys bucket prefix) w)
      with (bind (FakeAWS.bucket_dict bucket)
              (fun b => ret (VSet (stripped_names b prefix))) w).
    unfold bind. now rewrite (fake_bucket_dict_unknown w bucket Hb). }
  repeat apply conj.
  - apply Hlist.
  - intros prefix keys.
    change (perform (S fuel) FakeAWS.get_dispatcher (DeleteS3Keys bucket prefix keys) w)
      with (bind (FakeAWS.bucket_dict bucket)
              (fun _ => bind (for_each keys (delete_step bucket prefix))
                          (fun _ => ret VNone)) w).
    unfold bind at 1. now rewrite (fake_bucket_dict_unknown w bucket Hb).
  - intros key target.
    change (perform (S fuel) FakeAWS.get_dispatcher (DownloadS3Key bucket key target) w)
      with (bind (FakeAWS.bucket_dict bucket)
              (fun b => let* content := dict_get b key in
                        let* fs := get_fs in
                        set_fs (snd (fs_set_content target content fs)) ;;;
                        if fst (fs_set_content target content fs) then ret VNone
                        else raise (OSError target)) w).
    unfold bind at 1. now rewrite (fake_bucket_dict_unknown w bucket Hb).
  - apply Hup.
  - intros source_prefix destination destination_prefix keys.
    change (perform (S fuel) FakeAWS.get_dispatcher
              (CopyS3Keys bucket source_prefix destination destination_prefix keys) w)
      with (bind (FakeAWS.bucket_dict bucket)
              (fun _ => bind (FakeAWS.bucket_dict destination)
                 (fun _ => bind (for_each keys
                                   (copy_step bucket source_prefix destination
                                      destination_prefix))
                             (fun _ => ret VNone))) w).
    unfold bind at 1. now rewrite (fake_bucket_dict_unknown w bucket Hb).
  - intros source source_prefix destination_prefix keys [dict Hs].
    change (perform (S fuel) FakeAWS.get_dispatcher
              (CopyS3Keys source source_prefix bucket destination_prefix keys) w)
      with (bind (FakeAWS.bucket_dict source)
              (fun _ => bind (FakeAWS.bucket_dict bucket)
                 (fun _ => bind (for_each keys
                                   (copy_step source source_prefix bucket
                                      destination_prefix))
                             (fun _ => ret VNone))) w).
    unfold bind at 1. unfold FakeAWS.bucket_dict at 1, bind at 1, get_fake, dict_get, or_raise.
    rewrite Hs. simpl.
    unfold bind at 1. now rewrite (fake_bucket_dict_unknown w bucket Hb).
  - intros source_prefix target_path filter_extensions.
    rewrite fake_base_download_recursively. unfold download_listed, bind at 1.
    change (perform (S fuel) (fake_with_base order)
              (ListS3Keys bucket (source_prefix +:+ "/")) w)
      with (perform (S fuel) FakeAWS.get_dispatcher
              (ListS3Keys bucket (source_prefix +:+ "/")) w).
    now rewrite Hlist.
  - intros source_path target_key files Hsome.
    rewrite fake_base_upload_recursively. unfold upload_each.
    destruct (uploads_of (local_fs w) source_path files) as [|p rest]; [contradiction|].
    unfold bind at 1. rewrite for_each_cons. unfold bind at 1. unfold bind at 1.
    change (perform (S fuel) (fake_with_base order)
              (UploadToS3 source_path bucket target_key p) w)
      with (perform (S fuel) FakeAWS.get_dispatcher
              (UploadToS3 source_path bucket target_key p) w).
    now rewrite Hup.
Qed.

Lemma fake_unknown_bucket_raises_witness :
  perform 1 FakeAWS.get_dispatcher (DeleteS3Keys "nowhere" "" []) sample_world
  = (Raised (KeyError "nowhere"), sample_world)
  /\ perform 1 FakeAWS.get_dispatcher
       (CopyS3Keys "docs" "foo/" "nowhere" "bar/" []) sample_world
     = (Raised (KeyError "nowhere"), sample_world)
  /\ perform 3 (fake_with_base elements)
       (UploadToS3Recursively ["src"] "nowhere" "up" ["a.txt"]) sample_world
     = (Raised (KeyError "nowhere"), sample_world).
Proof.
  destruct (fake_unknown_bucket_raises elements 0 sample_world "nowhere" eq_refl)
    as (_ & Hdelete & _ & _ & _ & Hcopy & _ & Hupload).
  split; [apply Hdelete | split].
  - apply Hcopy. eexists. reflexivity.
  - apply Hupload. discriminate.
Defined.

Lemma boto_upload_download_roundtrip_witness :
  exists w1 w2,
    perform 1 boto_dispatcher
      (UploadToS3 ["src"] "docs" "release" ["src"; "empty"]) sample_boto_world
    = (Returned VNone, w1)
    /\ perform 1 boto_dispatcher
         (DownloadS3Key "docs" (upload_key ["src"] "release" ["src"; "empty"])
            ["out"; "copy"]) w1
       = (Returned VNone, w2)
    /\ fs_read (local_fs w2) ["out"; "copy"] = Some "".
Proof.
  apply (boto_upload_download_roundtrip 0 sample_boto_world ["src"] "docs" "release"
           ["src"; "empty"] ["out"; "copy"] "").
  - eexists. reflexivity.
  - reflexivity.
  - reflexivity.
Defined.
